(** * Call-lifecycle core of the outbound campaign server

    A shallow embedding of the server's call registry (services/callMonitor.js),
    the call controller's phone de-duplication, the webhook reconciler, the
    campaign batch executor, the conference transfer route and the audio
    stream retry logic, followed by the properties the specification states
    about them.

    JavaScript objects are finite maps from keys to values, so that the
    spread [{...call, ...updates}] is a left-biased union.  Call objects and
    the arrays they hold ([transcript], [statusHistory], [events]) live in a
    heap, because handlers keep references to them across updates.  Timers
    set with [setTimeout] are kept as pending tasks; time itself is a
    parameter [now] (milliseconds) of every handler. *)

From stdpp Require Import gmap strings list fin_maps.
From stdpp Require Import pretty.
From Stdlib Require Import ZArith Ascii.

(* ================================================================== *)
(** ** JavaScript values *)

#[local] Unset Elimination Schemes.
Inductive val : Type :=
  | VUndef
  | VNull
  | VBool (b : bool)
  | VNum (n : Z)
  | VStr (s : string)
  | VDate (t : Z)                     (* an ISO timestamp, by its instant *)
  | VArr (a : positive)               (* reference to a heap array *)
  | VList (l : list val)              (* an array literal that is never mutated *)
  | VLit (fs : list (string * val)).  (* an object literal that is never mutated *)
#[local] Set Elimination Schemes.

Abbreviation obj := (gmap string val).

(** [!!v] *)
Definition truthy (v : val) : bool :=
  match v with
  | VUndef | VNull => false
  | VBool b => b
  | VNum n => negb (n =? 0)%Z
  | VStr s => negb (String.eqb s "")
  | VDate _ | VArr _ | VList _ | VLit _ => true
  end.

(** [a === b].  Object and array literals have no identity of their own in
    the model and compare unequal, as two distinct objects do. *)
Definition strict_eq (v1 v2 : val) : bool :=
  match v1, v2 with
  | VUndef, VUndef | VNull, VNull => true
  | VBool a, VBool b => Bool.eqb a b
  | VNum a, VNum b => (a =? b)%Z
  | VStr a, VStr b => String.eqb a b
  | VDate a, VDate b => (a =? b)%Z
  | VArr a, VArr b => (a =? b)%positive
  | _, _ => false
  end.

(** [a || b] *)
Definition js_or (a b : val) : val := if truthy a then a else b.

(** [v === undefined || v === null]: a property read on [v] throws. *)
Definition nullish (v : val) : bool :=
  match v with VUndef | VNull => true | _ => false end.

(** [o.k] on an object held in a map: a missing key reads [undefined]. *)
Definition get (o : obj) (k : string) : val := default VUndef (o !! k).

(** [v?.k] on a value: a literal's field, [undefined] otherwise. *)
Fixpoint lit_get (fs : list (string * val)) (k : string) : val :=
  match fs with
  | [] => VUndef
  | (k', v) :: fs' => if String.eqb k' k then v else lit_get fs' k
  end.

Definition field (v : val) (k : string) : val :=
  match v with VLit fs => lit_get fs k | _ => VUndef end.

(** [[s1, s2, ...].includes(v)] *)
Definition includes (l : list string) (v : val) : bool :=
  existsb (fun s => strict_eq (VStr s) v) l.

(** A map key from a value: ids are provider-issued strings. *)
Definition key_of (v : val) : string :=
  match v with VStr s => s | _ => "" end.

(** The entries of an object as a literal, for event payloads. *)
Definition lit_of (o : obj) : val := VLit (map_to_list o).

(** [{...v}] of a value: the fields of a literal, nothing otherwise. *)
Definition spread (v : val) : list (string * val) :=
  match v with VLit fs => fs | _ => [] end.

(** A payload object as a map, to spread it into a call object. *)
Definition obj_of (v : val) : obj := list_to_map (spread v).

Abbreviation Event := (list (string * val)).

(* ================================================================== *)
(** ** Process state *)

Inductive ReadyState := CONNECTING | OPEN | CLOSING | CLOSED.

(** A WebSocket made by [setupAudioStreamWithRetry], with the variables its
    handlers close over. *)
Record Socket := mkSocket {
  ws_callId : string;
  ws_listenUrl : val;
  ws_retryCount : nat;
  ws_isConnected : bool;
  ws_readyState : ReadyState;
  ws_audioBuffer : nat
}.

Record RetryInfo := mkRetryInfo {
  ri_count : nat;
  ri_lastError : string;
  ri_nextRetryAt : Z
}.

(** The closures handed to [setTimeout], one constructor per call site. *)
Inductive Task :=
  | TConnectionTimeout (ws : nat)
  | TAudioRetry (callId : string) (listenUrl : val) (nextRetryCount : nat)
  | TExecuteCampaign (campaignId : string)
  | TProcessBatch (campaignId : string) (maxConcurrent : val) (callDelay : val)
  | TEndedCleanup (call : val) (duration : Z) (endedAt : Z)
  | TEndedRemoval (call : val)
  | TEndedRecheck (call : val)
  | TFailedRemoval (call : val)
  | TNoAnswerRemoval (call : val).

(** services/callMonitor.js: the fields of the [CallMonitor] singleton, with
    the heap of the call objects and arrays it refers to. *)
Record Monitor := mkMonitor {
  objs : gmap positive obj;
  arrs : gmap positive (list val);
  activeCalls : gmap string positive;
  callListeners : gmap string (gmap (option string) (option nat));
  audioStreams : gmap string nat;
  retryAttempts : gmap string RetryInfo;
  callStateHistory : gmap string (list val);
  sockets : list Socket
}.

(** services/redisService.js: the keys of the shared store. *)
Record Store := mkStore {
  campaigns : gmap string obj;            (* campaign:{id} *)
  activeCampaigns : list string;          (* the set active_campaigns *)
  queues : gmap string (list obj);        (* campaign_queue:{id} *)
  campaignCalls : gmap string (gmap string obj);  (* campaign_calls:{id} *)
  conferences : gmap string obj           (* conference:{id} *)
}.

Record World := mkWorld {
  mon : Monitor;
  store : Store;
  activeCallsByPhone : gmap string obj;   (* controllers/callController.js *)
  timers : list (Z * Task);               (* pending setTimeout callbacks *)
  broadcasts : list Event;                (* broadcastToClients *)
  sseUpdates : list Event;                (* sendRealtimeUpdate *)
  delivered : list (string * option string * Event);  (* listener callbacks run *)
  vapiRequests : list obj                 (* requests sent to the voice provider *)
}.

Definition emptyMonitor : Monitor :=
  mkMonitor ∅ ∅ ∅ ∅ ∅ ∅ ∅ [].
Definition emptyStore : Store := mkStore ∅ [] ∅ ∅ ∅.
Definition emptyWorld : World :=
  mkWorld emptyMonitor emptyStore ∅ [] [] [] [] [].

(** *** Field updates *)

Definition with_objs (f : gmap positive obj -> gmap positive obj) (m : Monitor) : Monitor :=
  mkMonitor (f (objs m)) (arrs m) (activeCalls m) (callListeners m)
            (audioStreams m) (retryAttempts m) (callStateHistory m) (sockets m).
Definition with_arrs (f : gmap positive (list val) -> gmap positive (list val)) (m : Monitor) : Monitor :=
  mkMonitor (objs m) (f (arrs m)) (activeCalls m) (callListeners m)
            (audioStreams m) (retryAttempts m) (callStateHistory m) (sockets m).
Definition with_activeCalls (f : gmap string positive -> gmap string positive) (m : Monitor) : Monitor :=
  mkMonitor (objs m) (arrs m) (f (activeCalls m)) (callListeners m)
            (audioStreams m) (retryAttempts m) (callStateHistory m) (sockets m).
Definition with_callListeners
    (f : gmap string (gmap (option string) (option nat)) -> gmap string (gmap (option string) (option nat)))
    (m : Monitor) : Monitor :=
  mkMonitor (objs m) (arrs m) (activeCalls m) (f (callListeners m))
            (audioStreams m) (retryAttempts m) (callStateHistory m) (sockets m).
Definition with_audioStreams (f : gmap string nat -> gmap string nat) (m : Monitor) : Monitor :=
  mkMonitor (objs m) (arrs m) (activeCalls m) (callListeners m)
            (f (audioStreams m)) (retryAttempts m) (callStateHistory m) (sockets m).
Definition with_retryAttempts (f : gmap string RetryInfo -> gmap string RetryInfo) (m : Monitor) : Monitor :=
  mkMonitor (objs m) (arrs m) (activeCalls m) (callListeners m)
            (audioStreams m) (f (retryAttempts m)) (callStateHistory m) (sockets m).
Definition with_callStateHistory (f : gmap string (list val) -> gmap string (list val)) (m : Monitor) : Monitor :=
  mkMonitor (objs m) (arrs m) (activeCalls m) (callListeners m)
            (audioStreams m) (retryAttempts m) (f (callStateHistory m)) (sockets m).
Definition with_sockets (f : list Socket -> list Socket) (m : Monitor) : Monitor :=
  mkMonitor (objs m) (arrs m) (activeCalls m) (callListeners m)
            (audioStreams m) (retryAttempts m) (callStateHistory m) (f (sockets m)).

Definition with_campaigns (f : gmap string obj -> gmap string obj) (s : Store) : Store :=
  mkStore (f (campaigns s)) (activeCampaigns s) (queues s) (campaignCalls s) (conferences s).
Definition with_activeCampaigns (f : list string -> list string) (s : Store) : Store :=
  mkStore (campaigns s) (f (activeCampaigns s)) (queues s) (campaignCalls s) (conferences s).
Definition with_queues (f : gmap string (list obj) -> gmap string (list obj)) (s : Store) : Store :=
  mkStore (campaigns s) (activeCampaigns s) (f (queues s)) (campaignCalls s) (conferences s).
Definition with_campaignCalls
    (f : gmap string (gmap string obj) -> gmap string (gmap string obj)) (s : Store) : Store :=
  mkStore (campaigns s) (activeCampaigns s) (queues s) (f (campaignCalls s)) (conferences s).
Definition with_conferences (f : gmap string obj -> gmap string obj) (s : Store) : Store :=
  mkStore (campaigns s) (activeCampaigns s) (queues s) (campaignCalls s) (f (conferences s)).

Definition with_mon (f : Monitor -> Monitor) (w : World) : World :=
  mkWorld (f (mon w)) (store w) (activeCallsByPhone w) (timers w)
          (broadcasts w) (sseUpdates w) (delivered w) (vapiRequests w).
Definition with_store (f : Store -> Store) (w : World) : World :=
  mkWorld (mon w) (f (store w)) (activeCallsByPhone w) (timers w)
          (broadcasts w) (sseUpdates w) (delivered w) (vapiRequests w).
Definition with_phones (f : gmap string obj -> gmap string obj) (w : World) : World :=
  mkWorld (mon w) (store w) (f (activeCallsByPhone w)) (timers w)
          (broadcasts w) (sseUpdates w) (delivered w) (vapiRequests w).
Definition with_timers (f : list (Z * Task) -> list (Z * Task)) (w : World) : World :=
  mkWorld (mon w) (store w) (activeCallsByPhone w) (f (timers w))
          (broadcasts w) (sseUpdates w) (delivered w) (vapiRequests w).
Definition with_broadcasts (f : list Event -> list Event) (w : World) : World :=
  mkWorld (mon w) (store w) (activeCallsByPhone w) (timers w)
          (f (broadcasts w)) (sseUpdates w) (delivered w) (vapiRequests w).
Definition with_sseUpdates (f : list Event -> list Event) (w : World) : World :=
  mkWorld (mon w) (store w) (activeCallsByPhone w) (timers w)
          (broadcasts w) (f (sseUpdates w)) (delivered w) (vapiRequests w).
Definition with_delivered
    (f : list (string * option string * Event) -> list (string * option string * Event))
    (w : World) : World :=
  mkWorld (mon w) (store w) (activeCallsByPhone w) (timers w)
          (broadcasts w) (sseUpdates w) (f (delivered w)) (vapiRequests w).
Definition with_vapiRequests (f : list obj -> list obj) (w : World) : World :=
  mkWorld (mon w) (store w) (activeCallsByPhone w) (timers w)
          (broadcasts w) (sseUpdates w) (delivered w) (f (vapiRequests w)).

(* ================================================================== *)
(** ** The state monad of the handlers *)

Definition St (A : Type) : Type := World -> A * World.

Definition ret {A} (a : A) : St A := fun w => (a, w).
Definition bind {A B} (m : St A) (k : A -> St B) : St B :=
  fun w => let (a, w') := m w in k a w'.
Definition gets {A} (f : World -> A) : St A := fun w => (f w, w).
Definition modify (f : World -> World) : St unit := fun w => (tt, f w).
Definition exec {A} (m : St A) (w : World) : World := snd (m w).
Definition eval {A} (m : St A) (w : World) : A := fst (m w).

Notation "'let*' x ':=' m 'in' k" := (bind m (fun x => k))
  (at level 10, x name, m at level 100, k at level 200).
Notation "m '>>' k" := (bind m (fun _ => k))
  (at level 90, right associativity).
Notation "'when' b 'then' m" := (if b then m else ret tt)
  (at level 10, b at level 100, m at level 200).

Definition broadcastToClients (e : Event) : St unit :=
  modify (with_broadcasts (fun l => l ++ [e])).
Definition sendRealtimeUpdate (e : Event) : St unit :=
  modify (with_sseUpdates (fun l => l ++ [e])).
Definition setTimeout (t : Task) (delay : Z) : St unit :=
  modify (with_timers (fun l => l ++ [(delay, t)])).

(** Heap primitives. *)
Definition alloc_obj (o : obj) : St positive :=
  let* l := gets (fun w => fresh (dom (objs (mon w)))) in
  modify (with_mon (with_objs (insert l o))) >> ret l.
Definition alloc_arr (xs : list val) : St positive :=
  let* a := gets (fun w => fresh (dom (arrs (mon w)))) in
  modify (with_mon (with_arrs (insert a xs))) >> ret a.
Definition read_obj (l : positive) : St obj :=
  gets (fun w => default ∅ (objs (mon w) !! l)).
Definition set_field (l : positive) (k : string) (v : val) : St unit :=
  modify (with_mon (with_objs (alter (insert k v) l))).
Definition arr_of (w : World) (v : val) : option (list val) :=
  match v with VArr a => arrs (mon w) !! a | _ => None end.
(** [v.push(x)] on an array of the heap.  On any other truthy value the
    source raises a TypeError (a string or a number has no [push]), and on an
    array that came in a JSON body it appends in place; neither is modelled,
    the push is skipped there.  The theorems that state what a handler
    stores after a push therefore assume that the field is unset or an array
    of the heap ([history_ok], [has_transcript] below). *)
Definition push (v : val) (x : val) : St unit :=
  match v with
  | VArr a => modify (with_mon (with_arrs (alter (fun xs => xs ++ [x]) a)))
  | _ => ret tt
  end.

(* ================================================================== *)
(** ** The environment of the process *)

(** What the outside world answers.  A result [None] of a provider call is
    the call throwing. *)
Record Env := mkEnv {
  (* process.env.NODE_ENV === 'development' *)
  development : bool;
  (* new WebSocket(url): [Some msg] when the constructor throws *)
  ws_new_throws : val -> option string;
  (* vapiService.createCall, by the number of requests made before it *)
  vapi_createCall : nat -> obj -> option obj;
  (* validateWebhookSignature(req), an HMAC check on the raw body *)
  validateWebhookSignature : val -> bool
}.

Section Model.
Variable env : Env.

(* ================================================================== *)
(** ** services/callMonitor.js *)

(** [emitToListeners]: every registered callback is run; a listener stored
    without a callback makes the call throw, which the loop catches. *)
Definition emitToListeners (callId : string) (event : Event) : St unit :=
  let* listeners := gets (fun w => callListeners (mon w) !! callId) in
  match listeners with
  | Some ls =>
      modify (with_delivered (fun d => d ++
        omap (fun '(lid, cb) =>
                match cb : option nat with
                | Some _ => Some (callId, lid, event)
                | None => None
                end) (map_to_list ls)))
  | None => ret tt
  end.

Definition maxRetries : nat := 3.

(** [Math.pow(2, retryCount) * 1000] *)
Definition retryDelay (retryCount : nat) : Z := (2 ^ Z.of_nat retryCount * 1000)%Z.

Definition handleAudioStreamRetry (now : Z) (callId : string) (listenUrl : val)
    (retryCount : nat) (errorReason : string) : St unit :=
  if retryCount <? maxRetries then
    let nextRetryCount := retryCount + 1 in
    modify (with_mon (with_retryAttempts
      (insert callId (mkRetryInfo nextRetryCount errorReason (now + retryDelay retryCount))))) >>
    setTimeout (TAudioRetry callId listenUrl nextRetryCount) (retryDelay retryCount) >>
    emitToListeners callId
      [("type", VStr "audio_retry_scheduled"); ("callId", VStr callId);
       ("retryCount", VNum (Z.of_nat nextRetryCount));
       ("maxRetries", VNum (Z.of_nat maxRetries));
       ("retryDelay", VNum (retryDelay retryCount));
       ("reason", VStr errorReason)]
  else
    modify (with_mon (with_retryAttempts (delete callId))) >>
    emitToListeners callId
      [("type", VStr "audio_retry_failed"); ("callId", VStr callId);
       ("maxRetries", VNum (Z.of_nat maxRetries));
       ("finalError", VStr errorReason)].

(** [setupAudioStreamWithRetry]: the socket is created with its handlers
    (below) and a ten-second connection timeout. *)
Definition setupAudioStreamWithRetry (now : Z) (callId : string) (listenUrl : val)
    (retryCount : nat) : St unit :=
  if negb (truthy listenUrl) then ret tt
  else match ws_new_throws env listenUrl with
       | Some message => handleAudioStreamRetry now callId listenUrl retryCount message
       | None =>
           let* ws := gets (fun w => length (sockets (mon w))) in
           modify (with_mon (with_sockets (fun l =>
             l ++ [mkSocket callId listenUrl retryCount false CONNECTING 0]))) >>
           setTimeout (TConnectionTimeout ws) 10000
       end.

Definition is_connection_timeout (ws : nat) (t : Z * Task) : bool :=
  match snd t with TConnectionTimeout ws' => ws' =? ws | _ => false end.

(** [clearTimeout(connectionTimeout)] *)
Definition clearConnectionTimeout (ws : nat) : St unit :=
  modify (with_timers (filter (fun t => is_connection_timeout ws t = false))).

Definition socket (ws : nat) : St (option Socket) :=
  gets (fun w => sockets (mon w) !! ws).
Definition setSocket (ws : nat) (f : Socket -> Socket) : St unit :=
  modify (with_mon (with_sockets (fun l =>
    match l !! ws with Some s => <[ws := f s]> l | None => l end))).

Definition mark_open (s : Socket) : Socket :=
  mkSocket (ws_callId s) (ws_listenUrl s) (ws_retryCount s) true OPEN (ws_audioBuffer s).
Definition mark_state (r : ReadyState) (s : Socket) : Socket :=
  mkSocket (ws_callId s) (ws_listenUrl s) (ws_retryCount s) (ws_isConnected s) r (ws_audioBuffer s).
Definition grow_buffer (n : nat) (s : Socket) : Socket :=
  mkSocket (ws_callId s) (ws_listenUrl s) (ws_retryCount s) (ws_isConnected s)
           (ws_readyState s) (ws_audioBuffer s + n).

(** The connection timeout set in [setupAudioStreamWithRetry]. *)
Definition onConnectionTimeout (now : Z) (ws : nat) : St unit :=
  let* s := socket ws in
  match s with
  | Some s =>
      when negb (ws_isConnected s) then
        (setSocket ws (mark_state CLOSING) >>     (* ws.terminate() *)
         handleAudioStreamRetry now (ws_callId s) (ws_listenUrl s) (ws_retryCount s)
           "connection_timeout")
  | None => ret tt
  end.

(** [ws.on('open')] *)
Definition onOpen (ws : nat) : St unit :=
  let* s := socket ws in
  match s with
  | Some s =>
      setSocket ws mark_open >>
      clearConnectionTimeout ws >>
      modify (with_mon (with_audioStreams (insert (ws_callId s) ws))) >>
      modify (with_mon (with_retryAttempts (delete (ws_callId s)))) >>
      emitToListeners (ws_callId s)
        [("type", VStr "audio_connected"); ("callId", VStr (ws_callId s));
         ("attempt", VNum (Z.of_nat (ws_retryCount s + 1)))]
  | None => ret tt
  end.

(** [handleStreamMessage] *)
Definition handleStreamMessage (now : Z) (callId : string) (message : obj) : St unit :=
  let* call := gets (fun w => activeCalls (mon w) !! callId) in
  match call with
  | None => ret tt
  | Some l =>
      let* c := read_obj l in
      push (get c "events")
        (VLit [("type", get message "type"); ("data", lit_of message);
               ("timestamp", VDate now)]) >>
      emitToListeners callId (map_to_list message)
  end.

(** [ws.on('message')]: a binary frame of [size] bytes, or a text frame that
    parses to [message] ([None] when [JSON.parse] throws). *)
Definition onMessage (now : Z) (ws : nat) (isBinary : bool) (size : nat)
    (message : option obj) : St unit :=
  let* s := socket ws in
  match s with
  | Some s =>
      if isBinary then
        setSocket ws (grow_buffer size) >>
        emitToListeners (ws_callId s)
          [("type", VStr "audio_data"); ("data", VNum (Z.of_nat size));
           ("bufferSize", VNum (Z.of_nat (ws_audioBuffer s + size)));
           ("timestamp", VDate now)]
      else match message with
           | Some m => handleStreamMessage now (ws_callId s) m
           | None => ret tt
           end
  | None => ret tt
  end.

(** [ws.on('close')] *)
Definition onClose (now : Z) (ws : nat) (code : Z) (reason : string) : St unit :=
  let* s := socket ws in
  match s with
  | Some s =>
      setSocket ws (mark_state CLOSED) >>
      clearConnectionTimeout ws >>
      modify (with_mon (with_audioStreams (delete (ws_callId s)))) >>
      emitToListeners (ws_callId s)
        [("type", VStr "audio_disconnected"); ("callId", VStr (ws_callId s));
         ("code", VNum code); ("reason", VStr reason);
         ("wasConnected", VBool (ws_isConnected s))] >>
      when negb (code =? 1000)%Z && (ws_retryCount s <? maxRetries) && ws_isConnected s then
        handleAudioStreamRetry now (ws_callId s) (ws_listenUrl s) (ws_retryCount s)
          ("close_code_" +:+ pretty code)
  | None => ret tt
  end.

(** [ws.on('error')] *)
Definition onError (now : Z) (ws : nat) (message : string) : St unit :=
  let* s := socket ws in
  match s with
  | Some s =>
      clearConnectionTimeout ws >>
      modify (with_mon (with_audioStreams (delete (ws_callId s)))) >>
      emitToListeners (ws_callId s)
        [("type", VStr "audio_error"); ("error", VStr message);
         ("callId", VStr (ws_callId s));
         ("attempt", VNum (Z.of_nat (ws_retryCount s + 1)))] >>
      handleAudioStreamRetry now (ws_callId s) (ws_listenUrl s) (ws_retryCount s) message
  | None => ret tt
  end.

(** The retry timer set in [handleAudioStreamRetry]. *)
Definition onAudioRetry (now : Z) (callId : string) (listenUrl : val)
    (nextRetryCount : nat) : St unit :=
  let* call := gets (fun w => activeCalls (mon w) !! callId) in
  let* stream := gets (fun w => audioStreams (mon w) !! callId) in
  when bool_decide (is_Some call) && negb (bool_decide (is_Some stream)) then
    setupAudioStreamWithRetry now callId listenUrl nextRetryCount.

(** [closeAudioStream] *)
Definition closeAudioStream (callId : string) : St unit :=
  let* ws := gets (fun w => audioStreams (mon w) !! callId) in
  match ws with
  | Some ws =>
      let* s := socket ws in
      match ws_readyState <$> s with
      | Some OPEN =>
          setSocket ws (mark_state CLOSING) >>    (* ws.close() *)
          modify (with_mon (with_audioStreams (delete callId)))
      | _ => ret tt
      end
  | None => ret tt
  end.

(** [v.length]: arrays and strings have one. *)
Definition js_length (w : World) (v : val) : option nat :=
  match v with
  | VArr a => length <$> (arrs (mon w) !! a)
  | VList l => Some (length l)
  | VStr s => Some (String.length s)
  | _ => None
  end.

(** [v.length > 0], false when there is no length. *)
Definition nonempty (w : World) (v : val) : bool :=
  match js_length w v with Some n => 0 <? n | None => false end.

(** The number held by a counter.  Arithmetic of the source on a value that
    is not a number gives [NaN] (stored as [null]), and a counter read from
    a missing [stats] object throws; the handlers below take the throwing
    case apart with [nullish], and the theorems about counters assume that
    the counter they read is a number. *)
Definition to_Z (v : val) : Z :=
  match v with VNum n => n | _ => 0%Z end.

(** [new Date(v).getTime()], [None] for an invalid date. *)
Definition date_of (v : val) : option Z :=
  match v with VDate t => Some t | _ => None end.

(** [addCall] *)
Definition addCall (now : Z) (callData : obj) : St unit :=
  let callId := key_of (get callData "id") in
  let* transcript := alloc_arr [] in
  let* events := alloc_arr [] in
  let* statusHistory := alloc_arr
    [VLit [("status", js_or (get callData "status") (VStr "queued"));
           ("timestamp", VDate now); ("source", VStr "call_creation")]] in
  let enhancedCallData : obj :=
    <["listenerCount" := VNum 0]>
    (<["hasActiveListeners" := VBool false]>
    (<["debugMode" := js_or (get callData "debugMode") (VBool false)]>
    (<["extendedMonitoring" := js_or (get callData "extendedMonitoring") (VBool false)]>
    (<["statusHistory" := VArr statusHistory]>
    (<["events" := VArr events]>
    (<["transcript" := VArr transcript]>
    (<["addedAt" := VDate now]> callData))))))) in
  let* l := alloc_obj enhancedCallData in
  modify (with_mon (with_activeCalls (insert callId l))) >>
  modify (with_mon (with_callStateHistory (insert callId []))) >>
  when truthy (field (get callData "monitor") "listenUrl") then
    setupAudioStreamWithRetry now callId (field (get callData "monitor") "listenUrl") 0.

(** [getCall]: the reference held by the registry. *)
Definition getCall (callId : string) : St (option positive) :=
  gets (fun w => activeCalls (mon w) !! callId).

(** [updateCall], first part ("Track status changes"): when the update
    carries a status that differs from the stored one, the transition is
    pushed on the stored object's [statusHistory] and on the debugging
    history of the monitor. *)
Definition recordStatusChange (now : Z) (callId : string) (l : positive)
    (updates : obj) : St unit :=
  let* c := read_obj l in
  when truthy (get updates "status")
       && negb (strict_eq (get updates "status") (get c "status")) then
    ((when negb (truthy (get c "statusHistory")) then
        (let* a := alloc_arr [] in set_field l "statusHistory" (VArr a))) >>
     let* c1 := read_obj l in
     push (get c1 "statusHistory")
       (VLit [("from", get c "status"); ("to", get updates "status");
              ("timestamp", VDate now); ("source", VStr "webhook_update")]) >>
     modify (with_mon (with_callStateHistory (fun h =>
       <[callId := default [] (h !! callId) ++
          [VLit [("status", get updates "status"); ("timestamp", VDate now);
                 ("previousStatus", get c "status");
                 ("updates", VList (VStr <$> (map_to_list updates).*1))]]]> h)))).

(** [updateCall], second part: a fresh object [{...call, ...updates,
    updatedAt}] replaces the stored one in the registry, and the audio
    stream is set up when its URL arrives.  Whoever still holds the old
    reference keeps the old fields. *)
Definition storeUpdatedCall (now : Z) (callId : string) (l : positive)
    (updates : obj) : St unit :=
  let* c := read_obj l in
  let updatedCall : obj := <["updatedAt" := VDate now]> (updates ∪ c) in
  let* l' := alloc_obj updatedCall in
  modify (with_mon (with_activeCalls (insert callId l'))) >>
  let* stream := gets (fun w => audioStreams (mon w) !! callId) in
  when truthy (field (get updates "monitor") "listenUrl")
       && negb (bool_decide (is_Some stream)) then
    setupAudioStreamWithRetry now callId (field (get updates "monitor") "listenUrl") 0.

(** [updateCall] *)
Definition updateCall (now : Z) (callId : string) (updates : obj) : St unit :=
  let* call := getCall callId in
  match call with
  | None => ret tt
  | Some l =>
      recordStatusChange now callId l updates >>
      storeUpdatedCall now callId l updates
  end.

(** [removeCall] *)
Definition removeCall (callId : string) (force : bool) : St bool :=
  let* call := getCall callId in
  let* blocked :=
    match call with
    | Some l =>
        let* c := read_obj l in
        if negb force && (strict_eq (get c "status") (VStr "ringing")
                          || strict_eq (get c "status") (VStr "in-progress")
                          || strict_eq (get c "status") (VStr "answered"))
        then ret true
        else
          let* hasTranscript := gets (fun w => nonempty w (get c "transcript")) in
          ret (negb force && truthy (get c "transcript") && hasTranscript)
    | None => ret false
    end in
  if blocked then ret false
  else
    closeAudioStream callId >>
    modify (with_mon (with_activeCalls (delete callId))) >>
    modify (with_mon (with_callListeners (delete callId))) >>
    modify (with_mon (with_retryAttempts (delete callId))) >>
    modify (with_mon (with_callStateHistory (delete callId))) >>
    ret true.

(** The first definitions of [addListener] and [removeListener] in the class
    body, which count listeners on the call.  The class defines both names
    again further down; a later method definition replaces an earlier one,
    so these two are never the ones called. *)
Definition addListener_counting (callId : string) : St unit :=
  let* call := getCall callId in
  match call with
  | Some l =>
      let* c := read_obj l in
      let n := (to_Z (js_or (get c "listenerCount") (VNum 0)) + 1)%Z in
      set_field l "listenerCount" (VNum n) >>
      set_field l "hasActiveListeners" (VBool (0 <? n)%Z)
  | None => ret tt
  end.

Definition removeListener_counting (callId : string) : St unit :=
  let* call := getCall callId in
  match call with
  | Some l =>
      let* c := read_obj l in
      let n := Z.max 0 (to_Z (js_or (get c "listenerCount") (VNum 0)) - 1) in
      set_field l "listenerCount" (VNum n) >>
      set_field l "hasActiveListeners" (VBool (0 <? n)%Z)
  | None => ret tt
  end.

(** [addListener(callId, listenerId, callback)]: the definition in force. *)
Definition addListener (callId : string) (listenerId : option string)
    (callback : option nat) : St unit :=
  modify (with_mon (with_callListeners (fun m =>
    <[callId := <[listenerId := callback]> (default ∅ (m !! callId))]> m))).

(** [removeListener(callId, listenerId)]: the definition in force. *)
Definition removeListener (callId : string) (listenerId : option string) : St unit :=
  modify (with_mon (with_callListeners (fun m =>
    match m !! callId with
    | Some listeners =>
        let listeners' := delete listenerId listeners in
        if bool_decide (size listeners' = 0) then delete callId m
        else <[callId := listeners']> m
    | None => m
    end))).

(** [cleanup(maxAge)]: which calls the sweep picks. *)
Definition cleanup_due (now maxAge : Z) (c : obj) : bool :=
  match date_of (js_or (get c "endedAt") (get c "addedAt")) with
  | None => false
  | Some callTime =>
      let age := (now - callTime)%Z in
      if strict_eq (get c "status") (VStr "ended") && (maxAge <? age)%Z then true
      else if strict_eq (get c "status") (VStr "failed") && (maxAge <? 2 * age)%Z then true
      else if negb (truthy (get c "status")) && (maxAge <? 4 * age)%Z then true
      else strict_eq (get c "status") (VStr "queued") && (300000 <? age)%Z
  end.

Fixpoint removeCalls (ids : list string) : St unit :=
  match ids with
  | [] => ret tt
  | callId :: rest => removeCall callId false >> removeCalls rest
  end.

Definition cleanup (now maxAge : Z) : St unit :=
  let* toRemove := gets (fun w =>
    omap (fun '(callId, l) =>
            if cleanup_due now maxAge (default ∅ (objs (mon w) !! l))
            then Some callId else None)
         (map_to_list (activeCalls (mon w)))) in
  removeCalls toRemove.

(* ================================================================== *)
(** ** services/redisService.js *)

(** [{...fs, k: v}] *)
Fixpoint lit_put (k : string) (v : val) (fs : list (string * val)) : list (string * val) :=
  match fs with
  | [] => [(k, v)]
  | (k', v') :: fs' =>
      if String.eqb k' k then (k, v) :: fs' else (k', v') :: lit_put k v fs'
  end.

(** [JSON.parse(JSON.stringify(v))]: keys holding [undefined] are dropped and
    an [undefined] array element becomes [null]. *)
Fixpoint json_val (v : val) : val :=
  match v with
  | VList l => VList (map (fun x => match x with VUndef => VNull | _ => json_val x end) l)
  | VLit fs =>
      VLit ((fix go (fs : list (string * val)) : list (string * val) :=
               match fs with
               | [] => []
               | (k, VUndef) :: fs' => go fs'
               | (k, x) :: fs' => (k, json_val x) :: go fs'
               end) fs)
  | _ => v
  end.

Definition is_undef (v : val) : bool :=
  match v with VUndef => true | _ => false end.

Definition json (o : obj) : obj :=
  json_val <$> filter (fun kv => is_undef kv.2 = false) o.

Definition saveCampaign (campaignId : string) (campaignData : obj) : St unit :=
  modify (with_store (with_campaigns (insert campaignId (json campaignData)))) >>
  modify (with_store (with_activeCampaigns (fun s =>
    if bool_decide (campaignId ∈ s) then s else s ++ [campaignId]))).

Definition getCampaign (campaignId : string) : St (option obj) :=
  gets (fun w => campaigns (store w) !! campaignId).

(** [updateCampaign]: [None] is the thrown 'Campaign not found'. *)
Definition updateCampaign (campaignId : string) (updates : obj) : St (option obj) :=
  let* campaign := getCampaign campaignId in
  match campaign with
  | None => ret None
  | Some c =>
      let updatedCampaign : obj := updates ∪ c in
      saveCampaign campaignId updatedCampaign >>
      ret (Some updatedCampaign)
  end.

Definition deleteCampaign (campaignId : string) : St unit :=
  modify (with_store (with_campaigns (delete campaignId))) >>
  modify (with_store (with_activeCampaigns (filter (fun i => i <> campaignId)))) >>
  modify (with_store (with_queues (delete campaignId))).

Definition getAllCampaigns : St (list obj) :=
  gets (fun w => omap (fun i => campaigns (store w) !! i) (activeCampaigns (store w))).

Definition saveCampaignQueue (campaignId : string) (contacts : list obj) : St unit :=
  modify (with_store (with_queues (delete campaignId))) >>
  when negb (bool_decide (contacts = [])) then
    modify (with_store (with_queues (insert campaignId (json <$> contacts)))).

(** [lPop] *)
Definition getNextContact (campaignId : string) : St (option obj) :=
  let* q := gets (fun w => default [] (queues (store w) !! campaignId)) in
  match q with
  | [] => ret None
  | contact :: rest =>
      modify (with_store (with_queues (fun m =>
        if bool_decide (rest = []) then delete campaignId m
        else <[campaignId := rest]> m))) >>
      ret (Some contact)
  end.

Definition getQueueLength (campaignId : string) : St nat :=
  gets (fun w => length (default [] (queues (store w) !! campaignId))).

Definition addCallToCampaign (campaignId callId : string) (callData : obj) : St unit :=
  modify (with_store (with_campaignCalls (fun m =>
    <[campaignId := <[callId := json callData]> (default ∅ (m !! campaignId))]> m))).

Definition getCampaignCalls (campaignId : string) : St (gmap string obj) :=
  gets (fun w => default ∅ (campaignCalls (store w) !! campaignId)).

(* ================================================================== *)
(** ** utils/validators.js *)

Definition is_digit (c : ascii) : bool :=
  (48 <=? nat_of_ascii c) && (nat_of_ascii c <=? 57).

(** [s.replace(/\D/g, '')] *)
Fixpoint digits (s : string) : string :=
  match s with
  | EmptyString => EmptyString
  | String c s' => if is_digit c then String c (digits s') else digits s'
  end.

(** [String(v)], for the values a phone number field can hold. *)
Definition js_String (v : val) : string :=
  match v with
  | VStr s => s
  | VNum n => pretty n
  | VUndef => "undefined"
  | VNull => "null"
  | VBool true => "true"
  | VBool false => "false"
  | _ => ""
  end.

Definition starts_with_1 (s : string) : bool :=
  match s with String c _ => Ascii.eqb c "1" | EmptyString => false end.

(** [formatToE164(phone)] with the default country code; [None] is [null]. *)
Definition formatToE164 (phone : val) : option string :=
  let cleaned := digits (js_String phone) in
  if String.length cleaned =? 10 then Some ("+1" +:+ cleaned)
  else if (String.length cleaned =? 11) && starts_with_1 cleaned then Some ("+" +:+ cleaned)
  else if 10 <? String.length cleaned then Some ("+" +:+ cleaned)
  else None.

(* ================================================================== *)
(** ** controllers/campaignController.js *)

(** An HTTP response: [res.status(n).json(body)]. *)
Record Response := mkResponse { status : nat; body : Event }.

(** The body of a start request.  [contacts] is an array of contact objects;
    [callDelay] and [maxConcurrent] are numbers. *)
Record StartRequest := mkStartRequest {
  sr_id : string;
  sr_name : val;
  sr_contacts : list obj;
  sr_callDelay : Z;
  sr_maxConcurrent : Z;
  sr_scheduleTime : val
}.

(** How one run of [processBatch] ends. *)
Inductive BatchResult :=
  | Halted                                  (* campaign gone or not active *)
  | Completed                               (* queue drained *)
  | Dispatched (calls : list (obj * bool))  (* the batch, with whether each call was placed *)
  | Retried.                                (* an error was caught; next run scheduled *)

(** [makeCall]: returns whether the call was placed.  The source returns
    nothing; every failure is caught inside.  The [catch] block reads
    [campaign.stats.failed]: on a campaign without [stats] it throws in
    turn, before the update and the broadcast. *)
Definition makeCall (now : Z) (campaignId : string) (contact : obj) : St bool :=
  let* campaign := getCampaign campaignId in
  match campaign with
  | None => ret false
  | Some _ =>
      let failed (message : string) : St bool :=
        let report : St bool :=
          broadcastToClients
            [("type", VStr "call_failed"); ("campaignId", VStr campaignId);
             ("contact", lit_of contact); ("error", VStr message)] >>
          ret false in
        let* campaign := getCampaign campaignId in
        match campaign with
        | Some c =>
            if nullish (get c "stats") then ret false
            else
              updateCampaign campaignId
                {[ "stats.failed" := VNum (to_Z (field (get c "stats") "failed") + 1);
                   "stats.inProgress" :=
                     VNum (Z.max 0 (to_Z (field (get c "stats") "inProgress") - 1)) ]} >>
              report
        | None => report
        end in
      match formatToE164 (get contact "phone_number") with
      | None =>
          failed ("Invalid phone number format: " +:+ js_String (get contact "phone_number"))
      | Some formattedPhone =>
          let request : obj :=
            {[ "phone_number" := VStr formattedPhone;
               "first_name" := js_or (get contact "first_name") (VStr "");
               "last_name" := js_or (get contact "last_name") (VStr "");
               "metadata" := VLit
                 [("campaignId", VStr campaignId);
                  ("leadSource", get contact "lead_source");
                  ("caseType", get contact "case_type");
                  ("organizationId", get contact "organizationid");
                  ("leadId", get contact "leadid")] ]} in
          let* n := gets (fun w => length (vapiRequests w)) in
          modify (with_vapiRequests (fun l => l ++ [request])) >>
          match vapi_createCall env n request with
          | None => failed "vapi createCall failed"
          | Some callData =>
              addCallToCampaign campaignId (key_of (get callData "id"))
                {[ "contactId" := get contact "leadid";
                   "callId" := get callData "id";
                   "status" := VStr "initiated";
                   "startTime" := VDate now ]} >>
              addCall now
                (<["contact" := VLit
                     [("first_name", get contact "first_name");
                      ("last_name", get contact "last_name");
                      ("lead_source", get contact "lead_source");
                      ("case_type", get contact "case_type");
                      ("organizationid", get contact "organizationid");
                      ("leadid", get contact "leadid")]]>
                 (<["customer" := VLit
                     (lit_put "metadata" (VLit
                        [("campaignId", VStr campaignId);
                         ("leadSource", get contact "lead_source");
                         ("caseType", get contact "case_type");
                         ("organizationId", get contact "organizationid");
                         ("leadId", get contact "leadid");
                         ("first_name", get contact "first_name");
                         ("last_name", get contact "last_name")])
                        (spread (get callData "customer")))]> callData)) >>
              broadcastToClients
                [("type", VStr "call_initiated"); ("campaignId", VStr campaignId);
                 ("call", lit_of (<["contact" := lit_of contact]> callData))] >>
              ret true
          end
      end
  end.

(** [completeCampaign] *)
Definition completeCampaign (now : Z) (campaignId : string) : St unit :=
  let* campaign := getCampaign campaignId in
  match campaign with
  | None => ret tt
  | Some _ =>
      let* updatedCampaign :=
        updateCampaign campaignId {[ "status" := VStr "completed"; "endTime" := VDate now ]} in
      match updatedCampaign with
      | Some u =>
          broadcastToClients
            [("type", VStr "campaign_completed"); ("campaignId", VStr campaignId);
             ("campaign", lit_of u)]
      | None => ret tt
      end
  end.

(** The [for] loop of [processBatch] that pops the next batch. *)
Fixpoint nextBatch (n : nat) (campaignId : string) : St (list obj) :=
  match n with
  | 0 => ret []
  | S n' =>
      let* contact := getNextContact campaignId in
      let* rest := nextBatch n' campaignId in
      ret (match contact with Some c => c :: rest | None => rest end)
  end.

(** [batch.map(contact => makeCall(campaignId, contact))], settled in order. *)
Fixpoint makeCalls (now : Z) (campaignId : string) (batch : list obj)
    : St (list (obj * bool)) :=
  match batch with
  | [] => ret []
  | contact :: rest =>
      let* placed := makeCall now campaignId contact in
      let* others := makeCalls now campaignId rest in
      ret ((contact, placed) :: others)
  end.

(** [processBatch], the closure of [executeCampaign] over [campaignId],
    [maxConcurrent] and [callDelay].  [Retried] is the [catch] block: the
    update of the statistics threw, either in [updateCampaign] or, on a
    campaign without [stats], at [currentCampaign.stats.inProgress]; the
    batch that was popped is dropped and the next run is scheduled. *)
Definition processBatch (now : Z) (campaignId : string) (maxConcurrent callDelay : val)
    : St BatchResult :=
  let* currentCampaign := getCampaign campaignId in
  match currentCampaign with
  | None => ret Halted
  | Some cur =>
      if negb (strict_eq (get cur "status") (VStr "active")) then ret Halted
      else
        let* queueLength := getQueueLength campaignId in
        if queueLength =? 0 then completeCampaign now campaignId >> ret Completed
        else
          let* batch :=
            nextBatch (Nat.min (Z.to_nat (to_Z maxConcurrent)) queueLength) campaignId in
          if length batch =? 0 then completeCampaign now campaignId >> ret Completed
          else
            let* queued := getQueueLength campaignId in
            if nullish (get cur "stats") then
              setTimeout (TProcessBatch campaignId maxConcurrent callDelay) (to_Z callDelay) >>
              ret Retried
            else
            let* updatedCampaign := updateCampaign campaignId
              {[ "stats.queued" := VNum (Z.of_nat queued);
                 "stats.inProgress" :=
                   VNum (to_Z (field (get cur "stats") "inProgress") + Z.of_nat (length batch));
                 "currentBatch" := VNum (to_Z (get cur "currentBatch") + 1) ]} in
            match updatedCampaign with
            | None =>
                setTimeout (TProcessBatch campaignId maxConcurrent callDelay) (to_Z callDelay) >>
                ret Retried
            | Some u =>
                broadcastToClients
                  [("type", VStr "campaign_update"); ("campaignId", VStr campaignId);
                   ("campaign", lit_of u)] >>
                let* calls := makeCalls now campaignId batch in
                setTimeout (TProcessBatch campaignId maxConcurrent callDelay) (to_Z callDelay) >>
                ret (Dispatched calls)
            end
  end.

(** [executeCampaign]: [None] when it returns before the first batch. *)
Definition executeCampaign (now : Z) (campaignId : string) : St (option BatchResult) :=
  let* campaign := getCampaign campaignId in
  match campaign with
  | None => ret None
  | Some c =>
      if negb (strict_eq (get c "status") (VStr "active")) then ret None
      else
        updateCampaign campaignId {[ "status" := VStr "active" ]} >>
        let* r := processBatch now campaignId (get c "maxConcurrent") (get c "callDelay") in
        ret (Some r)
  end.

(** The test [if (scheduleTime) { ... if (delay > 0) ...] of [startCampaign]:
    the delay of a start that is deferred. *)
Definition scheduleDelay (now : Z) (scheduleTime : val) : option Z :=
  if truthy scheduleTime then
    match date_of scheduleTime with
    | Some t => if (0 <? t - now)%Z then Some (t - now)%Z else None
    | None => None
    end
  else None.

(** [startCampaign].  The source starts [executeCampaign] without awaiting
    it; here it runs to the end of its first batch before the response. *)
Definition startCampaign (now : Z) (req : StartRequest) : St Response :=
  let* activeCampaigns := getAllCampaigns in
  let runningCampaigns :=
    filter (fun c : obj => strict_eq (get c "status") (VStr "active") = true) activeCampaigns in
  if 0 <? length runningCampaigns then
    ret (mkResponse 400
      [("error", VStr "A campaign is already in progress. Please stop it before starting a new one.")])
  else
    let total := VNum (Z.of_nat (length (sr_contacts req))) in
    let campaign : obj :=
      {[ "id" := VStr (sr_id req);
         "name" := sr_name req;
         "totalContacts" := total;
         "callDelay" := VNum (sr_callDelay req * 1000);
         "maxConcurrent" := VNum (sr_maxConcurrent req);
         "scheduleTime" := sr_scheduleTime req;
         "startTime" := VDate now;
         "stats" := VLit [("total", total); ("completed", VNum 0); ("failed", VNum 0);
                          ("inProgress", VNum 0); ("queued", total)];
         "status" := VStr "active";
         "currentBatch" := VNum 0;
         "callResults" := VList [] ]} in
    saveCampaign (sr_id req) campaign >>
    saveCampaignQueue (sr_id req) (sr_contacts req) >>
    match scheduleDelay now (sr_scheduleTime req) with
    | Some delay =>
        updateCampaign (sr_id req) {[ "status" := VStr "scheduled" ]} >>
        setTimeout (TExecuteCampaign (sr_id req)) delay >>
        ret (mkResponse 200
          [("message", VStr "Campaign scheduled successfully");
           ("campaign", lit_of (<["status" := VStr "scheduled"]> campaign))])
    | None =>
        executeCampaign now (sr_id req) >>
        ret (mkResponse 200
          [("message", VStr "Campaign started successfully");
           ("campaign", lit_of campaign)])
    end.

(** [updateCallStatus(callId, status, details)], called from the webhooks:
    the first campaign that lists the call gets its result and its
    statistics updated. *)
Fixpoint updateCallStatus_loop (now : Z) (callId : string) (st : string)
    (details : val) (cs : list obj) : St unit :=
  match cs with
  | [] => ret tt
  | campaign :: rest =>
      let cid := key_of (get campaign "id") in
      let* calls := getCampaignCalls cid in
      match calls !! callId with
      | Some result =>
          let result1 : obj := <["endTime" := VDate now]> (<["status" := VStr st]> result) in
          let result2 : obj :=
            if truthy details then <["details" := details]> result1 else result1 in
          addCallToCampaign cid callId result2 >>
          let stats := spread (get campaign "stats") in
          let finished (k : string) :=
            lit_put "inProgress" (VNum (Z.max 0 (to_Z (lit_get stats "inProgress") - 1)))
              (lit_put k (VNum (to_Z (lit_get stats k) + 1)) stats) in
          let updatedStats :=
            if String.eqb st "completed" then finished "completed"
            else if String.eqb st "failed" || String.eqb st "no-answer" || String.eqb st "busy"
                 then finished "failed"
                 else stats in
          updateCampaign cid {[ "stats" := VLit updatedStats ]} >>
          let* c := getCampaign cid in
          broadcastToClients
            [("type", VStr "campaign_update"); ("campaignId", get campaign "id");
             ("campaign", match c with Some c => lit_of c | None => VNull end)]
      | None => updateCallStatus_loop now callId st details rest
      end
  end.

Definition updateCallStatus (now : Z) (callId : string) (st : string) (details : val)
    : St unit :=
  let* cs := getAllCampaigns in
  updateCallStatus_loop now callId st details cs.

(* ================================================================== *)
(** ** controllers/callController.js *)

Definition is_space (c : ascii) : bool := Ascii.eqb c " ".

Fixpoint drop_spaces (l : list ascii) : list ascii :=
  match l with
  | c :: l' => if is_space c then drop_spaces l' else l
  | [] => []
  end.

(** [s.trim()], for the blanks a template string leaves. *)
Definition trim (s : string) : string :=
  String.string_of_list_ascii
    (rev (drop_spaces (rev (drop_spaces (String.list_ascii_of_string s))))).

(** [createCall].  [None] is a request that gets no response: when
    [vapiService.createCall] throws, the [catch] block reads
    [formattedPhone], which is declared inside the [try] block and so is not
    in scope there; that read throws in turn and nothing is sent. *)
Definition createCall (now : Z) (body : obj) : St (option Response) :=
  let phone_number := get body "phone_number" in
  let first_name := get body "first_name" in
  let last_name := get body "last_name" in
  let metadata := get body "metadata" in
  if negb (truthy (field metadata "assistantType")) then
    ret (Some (mkResponse 400
      [("error", VStr "Please select an assistant");
       ("message", VStr "An AI assistant must be selected before making a call")]))
  else
    match formatToE164 phone_number with
    | None => ret (Some (mkResponse 400 [("error", VStr "Invalid phone number format")]))
    | Some formattedPhone =>
        let* existingCall := gets (fun w => activeCallsByPhone w !! formattedPhone) in
        let* duplicate :=
          match existingCall with
          | Some existing =>
              let* call := getCall (key_of (get existing "callId")) in
              let* st :=
                match call with
                | Some l => let* c := read_obj l in ret (Some (get c "status"))
                | None => ret None
                end in
              match st with
              | Some s =>
                  if includes ["queued"; "ringing"; "in-progress"] s then
                    ret (Some (mkResponse 409
                      [("error", VStr "Call already active to this number");
                       ("existingCallId", get existing "callId");
                       ("existingCallStatus", s);
                       ("message", VStr ("A call is already " +:+ js_String s +:+ " for "
                                         +:+ formattedPhone
                                         +:+ ". Please wait for the current call to complete."))]))
                  else modify (with_phones (delete formattedPhone)) >> ret None
              | None => modify (with_phones (delete formattedPhone)) >> ret None
              end
          | None => ret None
          end in
        match duplicate with
        | Some response => ret (Some response)
        | None =>
            let convosoLeadId :=
              js_or (field metadata "convoso_id")
                (js_or (field metadata "lead_id") (js_or (field metadata "convosoId") VNull)) in
            let bridgeLegalId :=
              js_or (field metadata "leadId") (js_or (field metadata "bridgeLegalId") VNull) in
            let organizationId := js_or (field metadata "organizationId") (VStr "1") in
            let request : obj :=
              {[ "phone_number" := VStr formattedPhone;
                 "first_name" := js_or first_name (VStr "");
                 "last_name" := js_or last_name (VStr "");
                 "lead_source" := field metadata "source";
                 "case_type" := field metadata "leadType";
                 "organizationid" := organizationId;
                 "leadid" := bridgeLegalId;
                 "convoso_id" := convosoLeadId;
                 "metadata" := VLit
                   (lit_put "organization_id" organizationId
                   (lit_put "bridge_legal_id" bridgeLegalId
                   (lit_put "convoso_id" convosoLeadId
                   (lit_put "lead_id" convosoLeadId (spread metadata))))) ]} in
            let* n := gets (fun w => length (vapiRequests w)) in
            modify (with_vapiRequests (fun l => l ++ [request])) >>
            match vapi_createCall env n request with
            | None => ret None
            | Some callData =>
                let name :=
                  VStr (trim (js_String first_name +:+ " " +:+ js_String last_name)) in
                let contact := VLit
                  [("first_name", first_name); ("last_name", last_name);
                   ("lead_source", field metadata "source");
                   ("case_type", field metadata "leadType");
                   ("organizationid", organizationId);
                   ("leadid", bridgeLegalId);
                   ("convoso_id", convosoLeadId)] in
                modify (with_phones (insert formattedPhone
                  ({[ "callId" := get callData "id";
                      "createdAt" := VDate now;
                      "customer" := VLit [("first_name", first_name);
                                          ("last_name", last_name);
                                          ("phone", VStr formattedPhone)];
                      "convosoLeadId" := convosoLeadId ]} : obj))) >>
                addCall now
                  (<["debugMode" := VBool (development env)]>
                  (<["extendedMonitoring" := VBool true]>
                  (<["contact" := contact]>
                  (<["customer" := VLit
                      (lit_put "metadata" (VLit
                         (lit_put "bridge_legal_id" bridgeLegalId
                         (lit_put "convoso_id" convosoLeadId
                         (lit_put "lead_id" convosoLeadId
                         (lit_put "leadId" bridgeLegalId
                         (lit_put "organizationId" organizationId
                         (lit_put "caseType" (field metadata "leadType")
                         (lit_put "leadSource" (field metadata "source")
                         (lit_put "last_name" last_name
                         (lit_put "first_name" first_name (spread metadata)))))))))))
                      (lit_put "name" name (spread (get callData "customer"))))]>
                   callData)))) >>
                let* tracked := gets (fun w => size (activeCallsByPhone w)) in
                broadcastToClients
                  [("type", VStr "call_created");
                   ("call", lit_of (<["activeCallsByPhone" := VNum (Z.of_nat tracked)]>
                                    (<["contact" := contact]> callData)))] >>
                ret (Some (mkResponse 200
                  [("success", VBool true);
                   ("call", lit_of callData);
                   ("deduplicationInfo", VLit
                      [("phoneNumber", VStr formattedPhone);
                       ("activeCallsCount", VNum (Z.of_nat tracked))]);
                   ("leadIds", VLit [("convoso_id", convosoLeadId);
                                     ("bridge_legal_id", bridgeLegalId)])]))
            end
        end
    end.

(** [cleanupPhoneTracking(callId, phoneNumber)] *)
Definition cleanupPhoneTracking (callId : val) (phoneNumber : val) : St unit :=
  let* tracked := gets (fun w => activeCallsByPhone w !! key_of phoneNumber) in
  match tracked with
  | Some t =>
      when truthy phoneNumber && strict_eq (get t "callId") callId then
        modify (with_phones (delete (key_of phoneNumber)))
  | None => ret tt
  end.

(** [updateCallStatus] of the call controller (PUT status): the body's
    metadata is spread over the update. *)
Definition putCallStatus (now : Z) (callId : string) (st : val) (metadata : obj)
    : St Response :=
  if String.eqb callId "" then ret (mkResponse 400 [("error", VStr "Call ID is required")])
  else if negb (truthy st) then ret (mkResponse 400 [("error", VStr "Status is required")])
  else
    let* call := getCall callId in
    match call with
    | None => ret (mkResponse 404 [("error", VStr "Call not found")])
    | Some _ =>
        let updates : obj := metadata ∪ {[ "status" := st; "updatedAt" := VDate now ]} in
        updateCall now callId updates >>
        broadcastToClients
          [("type", VStr "call_status_updated"); ("callId", VStr callId);
           ("status", st); ("updates", lit_of updates)] >>
        ret (mkResponse 200
          [("success", VBool true);
           ("message", VStr ("Call status updated to " +:+ js_String st))])
    end.

(** The listener routes of the call controller: both call the monitor with
    the call id alone, so the listener id and the callback are [undefined]. *)
Definition addListenerRoute (callId : string) : St Response :=
  let* call := getCall callId in
  match call with
  | None => ret (mkResponse 404 [("error", VStr "Call not found in monitor")])
  | Some l =>
      addListener callId None None >>
      let* c := read_obj l in
      ret (mkResponse 200
        [("success", VBool true);
         ("listenerCount", js_or (get c "listenerCount") (VNum 1))])
  end.

Definition removeListenerRoute (callId : string) : St Response :=
  let* call := getCall callId in
  match call with
  | None => ret (mkResponse 404 [("error", VStr "Call not found in monitor")])
  | Some l =>
      removeListener callId None >>
      let* c := read_obj l in
      ret (mkResponse 200
        [("success", VBool true);
         ("listenerCount", js_or (get c "listenerCount") (VNum 0))])
  end.

(* ================================================================== *)
(** ** controllers/webhookController.js *)

(** [universalBroadcast] *)
Definition universalBroadcast (data : Event) : St unit :=
  broadcastToClients data >> sendRealtimeUpdate data.

(** [!call || !call.id] *)
Definition no_call (call : val) : bool :=
  negb (truthy call) || negb (truthy (field call "id")).

Definition call_key (call : val) : string := key_of (field call "id").

(** [callData.answeredAt || callData.transcript?.length > 0] on a stored call. *)
Definition answer_evidence (w : World) (c : obj) : bool :=
  truthy (get c "answeredAt") || nonempty w (get c "transcript").

(** [callData.transcript.slice(-100)] *)
Definition last100 (xs : list val) : list val := drop (length xs - 100) xs.

(** The tail shared by the transcript handlers: cap the transcript at 100
    entries, then write the held object back through [updateCall]. *)
Definition capAndStore (now : Z) (callId : string) (l : positive) : St unit :=
  let* c := read_obj l in
  let* xs := gets (fun w => arr_of w (get c "transcript")) in
  (match xs with
   | Some xs =>
       when 100 <? length xs then
         (let* a := alloc_arr (last100 xs) in set_field l "transcript" (VArr a))
   | None => ret tt
   end) >>
  let* callData := read_obj l in
  updateCall now callId callData.

(** [role === 'assistant' ? 'assistant' : 'customer'] *)
Definition speakerOf (role : val) : val :=
  if strict_eq role (VStr "assistant") then VStr "assistant" else VStr "customer".

(** The [transcriptEntry] that [handleTranscriptEvent] builds. *)
Definition transcriptEntry (now : Z) (webhookData : val) : val :=
  VLit [("speaker", speakerOf (field webhookData "role"));
        ("text", field webhookData "transcript");
        ("transcriptType", field webhookData "transcriptType");
        ("timestamp", VDate now); ("raw", webhookData)].

(** [handleTranscriptEvent].  [callData] is the object fetched at the start
    (reference [l]); the promotion to 'in-progress' goes through
    [updateCall], which stores a new object, and the final
    [updateCall(call.id, callData)] spreads the old one over it. *)
Definition handleTranscriptEvent (now : Z) (webhookData : val) : St unit :=
  let call := field webhookData "call" in
  let transcript := field webhookData "transcript" in
  let transcriptType := field webhookData "transcriptType" in
  let role := field webhookData "role" in
  if no_call call then ret tt
  else
    let* callData := getCall (call_key call) in
    match callData with
    | None => ret tt
    | Some l =>
        let* c := read_obj l in
        (when negb (strict_eq (get c "status") (VStr "in-progress"))
              && negb (strict_eq (get c "status") (VStr "answered")) then
           (updateCall now (call_key call)
              {[ "status" := VStr "in-progress";
                 "answeredAt" := js_or (get c "answeredAt") (VDate now) ]} >>
            universalBroadcast
              [("type", VStr "call_answered");
               ("call", VLit (lit_put "answeredAt" (js_or (get c "answeredAt") (VDate now))
                               (lit_put "status" (VStr "in-progress") (spread call))))])) >>
        let* c1 := read_obj l in
        (when negb (truthy (get c1 "transcript")) then
           (let* a := alloc_arr [] in set_field l "transcript" (VArr a))) >>
        let speaker := speakerOf role in
        let transcriptEntry := transcriptEntry now webhookData in
        let* c2 := read_obj l in
        let* xs := gets (fun w => default [] (arr_of w (get c2 "transcript"))) in
        (if strict_eq transcriptType (VStr "partial") then
           match last xs with
           | Some lastEntry =>
               if strict_eq (field lastEntry "speaker") speaker
                  && strict_eq (field lastEntry "transcriptType") (VStr "partial")
               then
                 match get c2 "transcript" with
                 | VArr a =>
                     modify (with_mon (with_arrs
                       (alter (fun ys => <[length ys - 1 := transcriptEntry]> ys) a)))
                 | _ => ret tt
                 end
               else push (get c2 "transcript") transcriptEntry
           | None => push (get c2 "transcript") transcriptEntry
           end
         else push (get c2 "transcript") transcriptEntry) >>
        capAndStore now (call_key call) l >>
        broadcastToClients
          [("type", VStr "transcript_update"); ("callId", field call "id");
           ("transcript", VLit [("speaker", speaker); ("text", transcript);
                                ("transcriptType", transcriptType);
                                ("timestamp", VDate now)])]
    end.

(** [handleCallStarted] *)
Definition handleCallStarted (now : Z) (call : val) : St unit :=
  if no_call call then ret tt
  else
    addCall now (<["startedAt" := VDate now]> (<["status" := VStr "started"]> (obj_of call))) >>
    universalBroadcast [("type", VStr "call_started"); ("call", call)].

(** [handleCallRinging] *)
Definition handleCallRinging (now : Z) (call : val) : St unit :=
  if no_call call then ret tt
  else
    updateCall now (call_key call) {[ "status" := VStr "ringing"; "ringingAt" := VDate now ]} >>
    broadcastToClients [("type", VStr "call_ringing"); ("call", call)].

(** [handleCallAnswered] *)
Definition handleCallAnswered (now : Z) (call : val) : St unit :=
  if no_call call then ret tt
  else
    updateCall now (call_key call)
      {[ "status" := VStr "in-progress"; "answeredAt" := VDate now ]} >>
    broadcastToClients [("type", VStr "call_answered"); ("call", call)].

(** [handleCallEnded]; the two nested timers are [TEndedCleanup] and
    [TEndedRemoval] below. *)
Definition handleCallEnded (now : Z) (call : val) : St unit :=
  if no_call call then ret tt
  else
    let* callData := getCall (call_key call) in
    let* c := match callData with
              | Some l => let* c := read_obj l in ret (Some c)
              | None => ret None
              end in
    if truthy (default VUndef ((fun c : obj => get c "hasActiveListeners") <$> c)) then ret tt
    else
      let endedAt := now in
      let answeredAt := default VUndef ((fun c : obj => get c "answeredAt") <$> c) in
      let duration : Z :=
        if truthy answeredAt then
          match date_of answeredAt with
          | Some t => ((endedAt - t) `div` 1000)%Z
          | None => 0%Z
          end
        else 0%Z in
      updateCall now (call_key call)
        {[ "status" := VStr "ended";
           "endedAt" := VDate endedAt;
           "duration" := VNum duration;
           "endReason" := js_or (field call "endReason") (VStr "unknown");
           "wasAnswered" := VBool (0 <? duration)%Z;
           "cleanupPending" := VBool true ]} >>
      (when truthy (field (field (field call "customer") "metadata") "campaignId") then
         updateCallStatus now (call_key call) "completed"
           (VLit [("duration", VNum duration); ("endReason", field call "endReason")])) >>
      setTimeout (TEndedCleanup call duration endedAt)
        (if development env then 600000 else 300000).

Definition removedFromMonitor (call : val) (reason : string) : Event :=
  [("type", VStr "call_removed_from_monitor"); ("callId", field call "id");
   ("reason", VStr reason)].

(** First timer of [handleCallEnded]. *)
Definition onEndedCleanup (call : val) (duration endedAt : Z) : St unit :=
  universalBroadcast
    [("type", VStr "call_ended");
     ("call", VLit (lit_put "wasAnswered" (VBool (0 <? duration)%Z)
                   (lit_put "endedAt" (VDate endedAt)
                   (lit_put "duration" (VNum duration) (spread call)))))] >>
  (when truthy (field (field call "customer") "number") then
     cleanupPhoneTracking (field call "id") (field (field call "customer") "number")) >>
  setTimeout (TEndedRemoval call) (if development env then 900000 else 600000).

(** Second timer of [handleCallEnded]. *)
Definition onEndedRemoval (call : val) : St unit :=
  let* callData := getCall (call_key call) in
  let* listening :=
    match callData with
    | Some l => let* c := read_obj l in ret (truthy (get c "hasActiveListeners"))
    | None => ret false
    end in
  if listening then setTimeout (TEndedRecheck call) 300000
  else
    let* removed := removeCall (call_key call) true in
    when removed then
      broadcastToClients (removedFromMonitor call "cleanup_complete_extended").

(** The re-check scheduled by the second timer. *)
Definition onEndedRecheck (call : val) : St unit :=
  let* finalCallData := getCall (call_key call) in
  match finalCallData with
  | Some l =>
      let* c := read_obj l in
      when negb (truthy (get c "hasActiveListeners")) then
        (removeCall (call_key call) true >>
         broadcastToClients (removedFromMonitor call "cleanup_complete_delayed"))
  | None => ret tt
  end.

(** [handleCallFailed] *)
Definition handleCallFailed (now : Z) (call : val) : St unit :=
  if no_call call then ret tt
  else
    updateCall now (call_key call)
      {[ "status" := VStr "failed";
         "failedAt" := VDate now;
         "failureReason" := js_or (field call "failureReason") (VStr "unknown") ]} >>
    (when truthy (field (field (field call "customer") "metadata") "campaignId") then
       updateCallStatus now (call_key call) "failed"
         (VLit [("failureReason", field call "failureReason")])) >>
    broadcastToClients
      [("type", VStr "call_failed");
       ("call", VLit (lit_put "failureReason" (js_or (field call "failureReason") (VStr "unknown"))
                     (lit_put "failedAt" (VDate now) (spread call))))] >>
    (when truthy (field (field call "customer") "number") then
       cleanupPhoneTracking (field call "id") (field (field call "customer") "number")) >>
    setTimeout (TFailedRemoval call) (if development env then 15000 else 2000).

(** The timer of [handleCallFailed]. *)
Definition onFailedRemoval (call : val) : St unit :=
  let* removed := removeCall (call_key call) true in
  when removed then broadcastToClients (removedFromMonitor call "failed_cleanup").

(** [handleSpeechUpdate] (legacy) *)
Definition handleSpeechUpdate (now : Z) (call message : val) : St unit :=
  if no_call call then ret tt
  else
    let* callData := getCall (call_key call) in
    match callData with
    | None => ret tt
    | Some l =>
        let* c := read_obj l in
        (when negb (truthy (get c "transcript")) then
           (let* a := alloc_arr [] in set_field l "transcript" (VArr a))) >>
        let* c1 := read_obj l in
        push (get c1 "transcript")
          (VLit [("speaker", js_or (field message "role") (VStr "unknown"));
                 ("text", field message "content");
                 ("transcriptType", VStr "final");
                 ("timestamp", VDate now)]) >>
        capAndStore now (call_key call) l >>
        broadcastToClients
          [("type", VStr "transcript_update"); ("callId", field call "id");
           ("transcript", VLit [("speaker", field message "role");
                                ("text", field message "content");
                                ("transcriptType", VStr "final")])]
    end.

(** [handleStatusUpdate] *)
Definition handleStatusUpdate (now : Z) (call : val) : St unit :=
  if no_call call then ret tt
  else
    let st := field call "status" in
    let updates0 : obj := {[ "status" := st; "updatedAt" := VDate now ]} in
    let* currentCall := getCall (call_key call) in
    let* updates1 :=
      match currentCall with
      | Some l =>
          let* c := read_obj l in
          (when negb (truthy (get c "statusHistory")) then
             (let* a := alloc_arr [] in set_field l "statusHistory" (VArr a))) >>
          let* c1 := read_obj l in
          push (get c1 "statusHistory")
            (VLit [("from", get c "status"); ("to", st); ("timestamp", VDate now)]) >>
          ret (<["statusHistory" := get c1 "statusHistory"]> updates0)
      | None =>
          addCall now (<["extendedMonitoring" := VBool true]>
                       (<["addedAt" := VDate now]> (obj_of call))) >>
          ret updates0
      end in
    let* updates :=
      if includes ["in-progress"; "answered"; "active"; "connected"; "conversation-started"] st
      then handleCallAnswered now call >> ret (<["answeredAt" := VDate now]> updates1)
      else if strict_eq st (VStr "ringing") then handleCallRinging now call >> ret updates1
      else if strict_eq st (VStr "queued") then ret updates1
      else if strict_eq st (VStr "failed") then handleCallFailed now call >> ret updates1
      else if strict_eq st (VStr "ended") then handleCallEnded now call >> ret updates1
      else if truthy st
              && negb (includes ["queued"; "ringing"; "failed"; "ended"; "no-answer"] st)
           then handleCallAnswered now call >> ret (<["answeredAt" := VDate now]> updates1)
           else ret updates1 in
    updateCall now (call_key call) updates >>
    let* previousStatus :=
      match currentCall with
      | Some l => let* c := read_obj l in ret (get c "status")
      | None => ret VUndef
      end in
    broadcastToClients
      [("type", VStr "call_status_update"); ("callId", field call "id");
       ("status", st); ("previousStatus", previousStatus);
       ("timestamp", VDate now); ("statusHistory", get updates "statusHistory")].

(** [handleFunctionCall] *)
Definition handleFunctionCall (call functionCall : val) : St unit :=
  if no_call call || negb (truthy functionCall) then ret tt
  else broadcastToClients
         [("type", VStr "function_call"); ("callId", field call "id");
          ("functionCall", functionCall)].

(** [handleConversationUpdate]: every message with a role and a content is
    appended as a final line. *)
Fixpoint appendMessages (now : Z) (callId : val) (l : positive) (messages : list val)
    : St unit :=
  match messages with
  | [] => ret tt
  | message :: rest =>
      (when truthy (field message "role") && truthy (field message "content") then
         (let* c := read_obj l in
          (when negb (truthy (get c "transcript")) then
             (let* a := alloc_arr [] in set_field l "transcript" (VArr a))) >>
          let* c1 := read_obj l in
          let speaker :=
            if strict_eq (field message "role") (VStr "assistant")
            then VStr "assistant" else VStr "customer" in
          push (get c1 "transcript")
            (VLit [("speaker", speaker); ("text", field message "content");
                   ("transcriptType", VStr "final");
                   ("timestamp", js_or (field message "timestamp") (VDate now))]) >>
          broadcastToClients
            [("type", VStr "transcript_update"); ("callId", callId);
             ("transcript", VLit [("speaker", speaker); ("text", field message "content");
                                  ("transcriptType", VStr "final")])])) >>
      appendMessages now callId l rest
  end.

Definition handleConversationUpdate (now : Z) (data : val) : St unit :=
  let call := field data "call" in
  if no_call call then ret tt
  else
    let* callData := getCall (call_key call) in
    match callData with
    | None => ret tt
    | Some l =>
        match field data "messages" with
        | VList messages =>
            appendMessages now (field call "id") l messages >>
            capAndStore now (call_key call) l
        | _ => ret tt
        end
    end.

(** [handleCallConnected] *)
Definition handleCallConnected (now : Z) (call : val) : St unit :=
  if no_call call then ret tt
  else
    let* callData := getCall (call_key call) in
    match callData with
    | None => ret tt
    | Some _ =>
        updateCall now (call_key call)
          {[ "status" := VStr "ringing"; "connectedAt" := VDate now ]} >>
        broadcastToClients [("type", VStr "call_connected"); ("call", call)]
    end.

(** [handleCallNoAnswer] *)
Definition handleCallNoAnswer (now : Z) (call : val) : St unit :=
  if no_call call then ret tt
  else
    let noAnswerAt := now in
    let* callData := getCall (call_key call) in
    let* answered :=
      match callData with
      | Some l => let* c := read_obj l in gets (fun w => answer_evidence w c)
      | None => ret false
      end in
    if answered then ret tt
    else
      updateCall now (call_key call)
        {[ "status" := VStr "no-answer";
           "endedAt" := VDate noAnswerAt;
           "endReason" := VStr "no-answer";
           "wasAnswered" := VBool false ]} >>
      (when truthy (field (field (field call "customer") "metadata") "campaignId") then
         updateCallStatus now (call_key call) "no-answer"
           (VLit [("endReason", VStr "no-answer")])) >>
      broadcastToClients
        [("type", VStr "call_no_answer");
         ("call", VLit (lit_put "endedAt" (VDate noAnswerAt)
                       (lit_put "status" (VStr "no-answer") (spread call))))] >>
      (when truthy (field (field call "customer") "number") then
         cleanupPhoneTracking (field call "id") (field (field call "customer") "number")) >>
      setTimeout (TNoAnswerRemoval call) (if development env then 300000 else 180000).

(** The timer of [handleCallNoAnswer]. *)
Definition onNoAnswerRemoval (call : val) : St unit :=
  let* finalCheck := getCall (call_key call) in
  let* answered :=
    match finalCheck with
    | Some l => let* c := read_obj l in gets (fun w => answer_evidence w c)
    | None => ret false
    end in
  if answered then ret tt
  else
    let* removed := removeCall (call_key call) false in
    when removed then
      broadcastToClients
        (removedFromMonitor call "no_answer_cleanup_after_extended_delay").

(** [handleVapiWebhook]: the switch on the event type. *)
Definition handleVapiWebhook (now : Z) (reqBody : val) : St Response :=
  if negb (validateWebhookSignature env reqBody) then
    ret (mkResponse 401 [("error", VStr "Invalid signature")])
  else
    let webhookData := js_or (field reqBody "message") reqBody in
    let type := field webhookData "type" in
    let call := field webhookData "call" in
    let ty (s : string) := strict_eq type (VStr s) in
    let ifNotInProgress : St unit :=
      when truthy call then
        (let* callData := getCall (call_key call) in
         match callData with
         | Some l =>
             let* c := read_obj l in
             when negb (strict_eq (get c "status") (VStr "in-progress")) then
               handleCallAnswered now call
         | None => ret tt
         end) in
    (if ty "speech-update" then
       when truthy (field webhookData "transcript") then
         handleSpeechUpdate now call (field webhookData "transcript")
     else if ty "transcript" then
       when truthy (field webhookData "transcript")
            || truthy (field webhookData "transcriptType") then
         handleTranscriptEvent now webhookData
     else if ty "status-update" then
       when truthy call then handleStatusUpdate now call
     else if ty "call-started" then
       handleCallStarted now (js_or call webhookData)
     else if ty "call-ended" || ty "end-of-call-report" || ty "hang" then
       handleCallEnded now (js_or call webhookData)
     else if ty "conversation-update" then
       handleConversationUpdate now webhookData
     else if ty "function-call" then
       handleFunctionCall call (field webhookData "functionCall")
     else if ty "call-no-answer" || ty "no-answer" then
       handleCallNoAnswer now (js_or call webhookData)
     else if ty "phone-call-connected" || ty "phone-call-started" then
       when truthy call then handleCallConnected now call
     else if ty "speech-started" then ifNotInProgress
     else if ty "speech-ended" then ret tt
     else if ty "call-answered" || ty "phone-answered" || ty "answered" then
       when truthy call then handleCallAnswered now call
     else if ty "conversation-started" || ty "assistant-speaking" || ty "user-speaking" then
       ifNotInProgress
     else
       when truthy (field call "status") then handleStatusUpdate now call) >>
    ret (mkResponse 200 [("received", VBool true); ("timestamp", VDate now)]).

(* ================================================================== *)
(** ** Timers *)

(** What a pending timer does when it fires. *)
Definition fire (now : Z) (t : Task) : St unit :=
  match t with
  | TConnectionTimeout ws => onConnectionTimeout now ws
  | TAudioRetry callId listenUrl nextRetryCount =>
      onAudioRetry now callId listenUrl nextRetryCount
  | TExecuteCampaign campaignId => executeCampaign now campaignId >> ret tt
  | TProcessBatch campaignId maxConcurrent callDelay =>
      processBatch now campaignId maxConcurrent callDelay >> ret tt
  | TEndedCleanup call duration endedAt => onEndedCleanup call duration endedAt
  | TEndedRemoval call => onEndedRemoval call
  | TEndedRecheck call => onEndedRecheck call
  | TFailedRemoval call => onFailedRemoval call
  | TNoAnswerRemoval call => onNoAnswerRemoval call
  end.

(** The [i]-th pending timer fires: it leaves the list and runs. *)
Definition fireTimer (now : Z) (i : nat) : St unit :=
  let* t := gets (fun w => timers w !! i) in
  match t with
  | Some (_, task) => modify (with_timers (delete i)) >> fire now task
  | None => ret tt
  end.

Definition is_process_batch (campaignId : string) (t : Z * Task) : bool :=
  match snd t with
  | TProcessBatch c _ _ => String.eqb c campaignId
  | _ => false
  end.

(** The batch loop of a campaign: as long as a [processBatch] timer of the
    campaign is pending, it fires.  [fuel] bounds the number of rounds. *)
Fixpoint drain (fuel : nat) (now : Z) (campaignId : string) : St (list BatchResult) :=
  match fuel with
  | 0 => ret []
  | S fuel' =>
      let* pending := gets (fun w => list_find (fun t => is_process_batch campaignId t = true) (timers w)) in
      match pending with
      | Some (i, (_, TProcessBatch c m d)) =>
          modify (with_timers (delete i)) >>
          let* r := processBatch now c m d in
          let* rs := drain fuel' now campaignId in
          ret (r :: rs)
      | _ => ret []
      end
  end.

(** A campaign run from [executeCampaign] to the end of its batch loop. *)
Definition runCampaign (fuel : nat) (now : Z) (campaignId : string)
    : St (list BatchResult) :=
  let* first := executeCampaign now campaignId in
  match first with
  | None => ret []
  | Some r => let* rs := drain fuel now campaignId in ret (r :: rs)
  end.

End Model.

(* ================================================================== *)
(** ** routes/vapiTools.js and services/twilioService.js *)

(** An error object thrown by a provider's client: [error.message] and
    [error.code]. *)
Record JsError := mkError { err_message : string; err_code : val }.

(** What a step of the route throws: a [TypeError] of the engine (a property
    read on [undefined] or [null], a call of a method the value has not), whose
    message names the property or the method read, or an error object. *)
Inductive Thrown :=
  | TypeError
  | Err (e : JsError).

(** The parameters of [client.calls.list]. *)
Record CallQuery := mkCallQuery {
  q_to : val;
  q_from : val;
  q_startTimeAfter : Z;
  q_status : list string;
  q_limit : nat
}.

(** The telephony providers as the route sees them: the environment
    variables it reads and the answers of the clients.  The TwiML a request
    carries is a fixed text around the values given here. *)
Record Telephony := mkTelephony {
  TWILIO_PHONE_NUMBER : val;
  VAPI_HOLD_ASSISTANT_ID : val;
  (* twilio: client.calls.list(query) *)
  calls_list : CallQuery -> JsError + list val;
  (* twilio: client.calls.create({to, from, twiml}), the TwiML naming the
     lead type and the conference *)
  calls_create : val -> val -> val -> string -> JsError + val;
  (* twilio: client.calls(callSid).update({twiml}), the TwiML naming the
     conference and saying the welcome message *)
  calls_update : val -> string -> string -> JsError + val;
  (* vapiService.createConferenceCall({conferenceId, customerPhone, assistantId, metadata}) *)
  createConferenceCall : obj -> JsError + val
}.

(** [`${v}`] for the values of a JSON body; an array is joined with commas. *)
Fixpoint js_template (v : val) : string :=
  match v with
  | VStr s => s
  | VNum n => pretty n
  | VUndef => "undefined"
  | VNull => "null"
  | VBool true => "true"
  | VBool false => "false"
  | VList l =>
      String.concat ","
        (map (fun x => match x with VUndef | VNull => "" | _ => js_template x end) l)
  | VLit _ => "[object Object]"
  | VDate _ | VArr _ => ""
  end.

(** [{...v}] for any value of a JSON body: the characters of a string and
    the elements of an array are spread under their indices. *)
Definition spread_indexed (v : val) : list (string * val) :=
  match v with
  | VLit fs => fs
  | VList l => imap (fun i x => (pretty i, x)) l
  | VStr s =>
      imap (fun i c => (pretty i, VStr (String c EmptyString))) (String.list_ascii_of_string s)
  | _ => []
  end.

(** [{...base, ...v}] on literals. *)
Definition lit_spread (base : list (string * val)) (v : val) : list (string * val) :=
  fold_left (fun acc kv => lit_put (fst kv) (snd kv) acc) (spread_indexed v) base.

(** [v?.[0]] where only fields of the result are read. *)
Definition first_of (v : val) : val :=
  match v with VList (x :: _) => x | _ => VUndef end.

Fixpoint is_prefix (p s : string) : bool :=
  match p, s with
  | EmptyString, _ => true
  | String a p', String b s' => Ascii.eqb a b && is_prefix p' s'
  | String _ _, EmptyString => false
  end.

(** [s.includes(p)] *)
Fixpoint str_includes (p s : string) : bool :=
  is_prefix p s ||
  match s with
  | EmptyString => false
  | String _ s' => str_includes p s'
  end.

(** [formatPhoneToE164] of routes/vapiTools.js.  [phone.replace] on a truthy
    value that is not a string is a [TypeError]. *)
Definition formatPhoneToE164 (phone : val) : Thrown + val :=
  if negb (truthy phone) then inr VNull
  else
    match phone with
    | VStr s =>
        let cleaned := digits s in
        let n := String.length cleaned in
        if n =? 10 then inr (VStr ("+1" +:+ cleaned))
        else if (n =? 11) && starts_with_1 cleaned then inr (VStr ("+" +:+ cleaned))
        else if is_prefix "+" s && (10 <=? n) then inr phone
        else if (10 <=? n) && (n <=? 15) then inr (VStr ("+" +:+ cleaned))
        else inr phone
    | _ => inl TypeError
    end.

Section Conference.
Variable tel : Telephony.

(** [findActiveCallByPhone]: every failure inside, the log line that reads
    [activeCall.sid] included, ends in [null]. *)
Definition findActiveCallByPhone (now : Z) (customerPhone : val) : val :=
  match calls_list tel
          (mkCallQuery customerPhone (TWILIO_PHONE_NUMBER tel)
             (now - 30 * 60 * 1000) ["in-progress"] 10) with
  | inl _ => VNull
  | inr [] => VNull
  | inr (activeCall :: _) => if nullish activeCall then VNull else activeCall
  end.

(** [modifyCallToJoinConference]: the error of the client is thrown again;
    [welcomeMessage] is a string. *)
Definition modifyCallToJoinConference (callSid : val) (conferenceId welcomeMessage : string)
    : Thrown + val :=
  match calls_update tel callSid conferenceId welcomeMessage with
  | inl e => inl (Err e)
  | inr updatedCall => if nullish updatedCall then inl TypeError else inr updatedCall
  end.

(** [redisService.client.setEx(`conference:${conferenceId}`, 1800,
    JSON.stringify(conferenceData))]; the expiry is not modelled. *)
Definition setConference (conferenceId : string) (conferenceData : obj) : St unit :=
  modify (with_store (with_conferences (insert conferenceId (json conferenceData)))).

(** The steps of the [try] block: a state computation that ends in a thrown
    value or a result. *)
Definition Try (A : Type) : Type := St (Thrown + A).

Definition try_bind {A B} (m : Try A) (k : A -> Try B) : Try B :=
  let* r := m in
  match r with
  | inl e => ret (inl e)
  | inr a => k a
  end.

Definition pure_step {A} (r : Thrown + A) : Try A := ret r.
Definition throw {A} (e : Thrown) : Try A := ret (inl e).
Definition effect (m : St unit) : Try unit := m >> ret (inr tt).
Definition of_client {A} (r : JsError + A) : Try A :=
  ret (match r with inl e => inl (Err e) | inr a => inr a end).

(** [v.k]: a [TypeError] on [undefined] and [null]. *)
Definition read (v : val) (k : string) : Try val :=
  if nullish v then throw TypeError else ret (inr (field v k)).

Notation "'try*' x ':=' m 'in' k" := (try_bind m (fun x => k))
  (at level 10, x name, m at level 100, k at level 200).

(** The response of the [catch] block. *)
Definition conferenceError (reqBody : val) (error : Thrown) : Response :=
  let message_includes (p : string) : bool :=
    match error with
    | Err e => negb (String.eqb (err_message e) "") && str_includes p (err_message e)
    | TypeError => false
    end in
  let code_is (n : Z) : bool :=
    match error with
    | Err e => strict_eq (err_code e) (VNum n)
    | TypeError => false
    end in
  let '(errorMessage, shouldTransferToQueue) :=
    if message_includes "findActiveCallByPhone" then
      ("Could not locate customer call for seamless transfer", true)
    else if message_includes "modifyCallToJoinConference" then
      ("Failed to modify customer call - using direct queue transfer", true)
    else if code_is 20003%Z then ("Twilio authentication failed", false)
    else if code_is 21205%Z then ("Invalid phone number format", false)
    else ("Conference creation failed", false) in
  mkResponse 200
    [("results", VList [VLit
       [("toolCallId",
         js_or (field (first_of (field (field reqBody "message") "toolCallList")) "id")
               (VStr "unknown"));
        ("result", VLit
          ([("success", VBool false);
            ("error", VStr errorMessage);
            ("message",
             VStr (if shouldTransferToQueue
                   then "Conference creation failed - transferring directly to queue"
                   else "Conference creation failed - please try again"))]
           ++ (if shouldTransferToQueue then
                 [("fallbackTransfer", VLit
                    [("destination", VStr "+18336130051");
                     ("message",
                      VStr "Let me transfer you directly to our senior consultant queue")])]
               else [])))]])].

(** The [try] block of [POST /transfer-conference]. *)
Definition transferConference_try (now : Z) (reqBody : val) : Try Response :=
  let message := field reqBody "message" in
  let toolCallId :=
    js_or (field (first_of (field message "toolCallList")) "id") (VStr "unknown") in
  (* the first log line reads message.call?.id *)
  try* call := read message "call" in
  let variableValues := js_or (field (field call "assistant") "variableValues") (VLit []) in
  let toolArgs := js_or (field (first_of (field message "toolCallList")) "arguments") (VLit []) in
  let leadId :=
    js_or (field toolArgs "leadId")
    (js_or (field toolArgs "qualified_lead_id")
    (js_or (field variableValues "qualified_lead_id")
    (js_or (field variableValues "leadId")
    (js_or (field variableValues "bridgeLegalId")
           (field (field call "customer") "id"))))) in
  let rawCustomerPhone :=
    js_or (field toolArgs "customerPhone")
    (js_or (field toolArgs "phone")
    (js_or (field variableValues "phoneNumber")
    (js_or (field (field call "customer") "number")
    (js_or (field variableValues "customerPhone")
    (js_or (field variableValues "phone")
           (field variableValues "phoneNumber")))))) in
  try* customerPhone := pure_step (formatPhoneToE164 rawCustomerPhone) in
  let customerName :=
    js_or (field toolArgs "customerName")
    (js_or (field variableValues "fullName")
    (js_or (VStr (trim (js_template (js_or (field variableValues "firstName") (VStr ""))
                        +:+ " " +:+
                        js_template (js_or (field variableValues "lastName") (VStr "")))))
    (js_or (field (field call "customer") "name")
           (VStr "Customer")))) in
  let qualificationData := js_or (field toolArgs "qualificationData") (VLit []) in
  let organizationId :=
    js_or (field qualificationData "organizationId")
    (js_or (field variableValues "organizationId")
    (js_or (field toolArgs "organizationId") (VStr "1"))) in
  let customInfo :=
    js_or (field qualificationData "customInfo")
    (js_or (field variableValues "customInfo") (VLit [])) in
  let qualificationResult :=
    js_or (field qualificationData "qualificationResult")
    (js_or (field qualificationData "qualification_result")
    (js_or (field variableValues "qualification_result") (VLit []))) in
  let finalLeadId :=
    js_or leadId (js_or (field call "id") (VStr ("unknown_" +:+ pretty now))) in
  if negb (truthy finalLeadId) || negb (truthy customerPhone) then
    throw (Err (mkError
      ("Missing critical data - leadId: " +:+ js_template finalLeadId
       +:+ ", phone: " +:+ js_template customerPhone
       +:+ " (raw: " +:+ js_template rawCustomerPhone +:+ ")") VUndef))
  else
  let finalQualificationData :=
    lit_spread
      [("qualifyStatus", VBool true);
       ("leadType", js_or (field qualificationData "leadType") (VStr "hair straightener"));
       ("organizationId", organizationId);
       ("customInfo", customInfo);
       ("qualificationResult", qualificationResult)]
      qualificationData in
  let dynamicLeadType := lit_get finalQualificationData "leadType" in
  let conferenceId := "conf_" +:+ pretty now +:+ "_" +:+ js_template finalLeadId in
  (* twilioService.createConference({..., initialCallId: message.call.id}) *)
  try* originalCallId := read call "id" in
  let conferenceData : obj :=
    {[ "conferenceId" := VStr conferenceId;
       "leadId" := finalLeadId;
       "customerId" := finalLeadId;
       "customerPhone" := customerPhone;
       "customerName" := js_or customerName (VStr "Customer");
       "qualificationData" := VLit finalQualificationData;
       "originalCallId" := originalCallId;
       "assistantType" := dynamicLeadType;
       "createdAt" := VDate now;
       "status" := VStr "initializing";
       "participants" := VList [];
       "convoso_lead_id" :=
         js_or (field (field (field call "assistant") "variableValues") "convoso_lead_id")
               finalLeadId ]} in
  try* _ := effect (setConference conferenceId conferenceData) in
  try* holdAssistantCall := of_client (createConferenceCall tel
    {[ "conferenceId" := VStr conferenceId;
       "customerPhone" := customerPhone;
       "assistantId" := VAPI_HOLD_ASSISTANT_ID tel;
       "metadata" := VLit
         [("conferenceId", VStr conferenceId);
          ("role", VStr "hold_assistant");
          ("customerId", finalLeadId);
          ("customerName", customerName);
          ("customerPhone", customerPhone);
          ("leadType", dynamicLeadType);
          ("qualificationData", VLit finalQualificationData);
          ("qualificationSummary",
           VStr ("Qualified lead from " +:+ js_template dynamicLeadType
                 +:+ " case. Lead ID: " +:+ js_template finalLeadId));
          ("instruction",
           VStr "Keep the customer engaged while waiting for senior consultant");
          ("leadId", finalLeadId);
          ("organizationId", organizationId);
          ("caseType", dynamicLeadType);
          ("customInfo", customInfo);
          ("qualificationResult", qualificationResult);
          ("dataStructure", VStr "prompt_aligned");
          ("timestamp", VDate now)] ]}) in
  try* holdAssistantCallId := read holdAssistantCall "id" in
  let conferenceData : obj :=
    <["status" := VStr "hold_assistant_joining"]>
    (<["participants" := VList [VStr "hold_assistant"]]>
    (<["holdAssistantCallId" := holdAssistantCallId]> conferenceData)) in
  try* _ := effect (setConference conferenceId conferenceData) in
  try* queueCall := of_client (calls_create tel (VStr "+18336130051")
                                 (TWILIO_PHONE_NUMBER tel) dynamicLeadType conferenceId) in
  try* queueCallSid := read queueCall "sid" in
  let conferenceData : obj :=
    <["status" := VStr "waiting_for_agent"]>
    (<["queueCallSid" := queueCallSid]> conferenceData) in
  try* _ := effect (setConference conferenceId conferenceData) in
  try* _ := effect (broadcastToClients
    [("type", VStr "qualified_lead_conference");
     ("data", VLit
        [("conferenceId", VStr conferenceId);
         ("leadId", finalLeadId);
         ("customerPhone", customerPhone);
         ("customerName", customerName);
         ("status", VStr "conference_created_seamless_pending");
         ("participants", VList [VStr "hold_assistant"; VStr "queue_dialing";
                                 VStr "customer_seamless_join_pending"]);
         ("transferMethod", VStr "seamless_call_modification");
         ("message", VStr "Conference created - attempting seamless customer join")])]) in
  let activeCall := findActiveCallByPhone now customerPhone in
  if truthy activeCall then
    try* _ := pure_step (modifyCallToJoinConference (field activeCall "sid") conferenceId
      "Perfect! I'm now connecting you with one of our senior consultants. Please hold on for just a moment.") in
    let conferenceData : obj :=
      <["transferMethod" := VStr "call_modification"]>
      (<["status" := VStr "customer_joining"]>
      (<["participants" := VList [VStr "hold_assistant"; VStr "customer_joined"]]>
      (<["customerCallSid" := field activeCall "sid"]> conferenceData))) in
    try* _ := effect (setConference conferenceId conferenceData) in
    try* _ := effect (broadcastToClients
      [("type", VStr "qualified_lead_conference");
       ("data", VLit
          [("conferenceId", VStr conferenceId);
           ("leadId", finalLeadId);
           ("customerPhone", customerPhone);
           ("customerName", customerName);
           ("status", VStr "customer_joining_seamlessly");
           ("participants", VList [VStr "customer_joining"; VStr "hold_assistant";
                                   VStr "queue_dialing"]);
           ("transferMethod", VStr "call_modification")])]) in
    ret (inr (mkResponse 200
      [("results", VList [VLit
         [("toolCallId", toolCallId);
          ("result", VLit
             [("success", VBool true);
              ("conferenceId", VStr conferenceId);
              ("message", VStr "Conference created and customer joined seamlessly");
              ("method", VStr "call_modification");
              ("details", VLit
                 [("holdAssistantConnected", VBool true);
                  ("queueDialing", VBool true);
                  ("customerJoined", VBool true);
                  ("conferenceReady", VBool true);
                  ("seamlessTransfer", VBool true)])])]])]))
  else
    ret (inr (mkResponse 200
      [("results", VList [VLit
         [("toolCallId", toolCallId);
          ("result", VLit
             [("success", VBool true);
              ("conferenceId", VStr conferenceId);
              ("message", VStr "Conference created - using SIP transfer fallback");
              ("transferDestination", VLit
                 [("type", VStr "sip");
                  ("sipUri", VStr ("sip:" +:+ conferenceId +:+ "@conference.twilio.com"));
                  ("headers", VLit
                     [("X-Conference-Id", VStr conferenceId);
                      ("X-Customer-Id", finalLeadId)])]);
              ("details", VLit
                 [("holdAssistantConnected", VBool true);
                  ("queueDialing", VBool true);
                  ("conferenceReady", VBool true);
                  ("conferenceMethod", VStr "sip_transfer_fallback")])])]])])).

(** [POST /transfer-conference] *)
Definition transferConference (now : Z) (reqBody : val) : St Response :=
  let* r := transferConference_try now reqBody in
  match r with
  | inr response => ret response
  | inl error => ret (conferenceError reqBody error)
  end.

End Conference.

(* ================================================================== *)
(** * Vocabulary of the properties *)

(** ** Reading the registry *)

(** The object the registry holds for a call id. *)
Definition callObject (w : World) (callId : string) : option obj :=
  match activeCalls (mon w) !! callId with
  | Some l => objs (mon w) !! l
  | None => None
  end.

(** A field of a registered call. *)
Definition callField (w : World) (callId k : string) : option val :=
  (fun c : obj => get c k) <$> callObject w callId.

(** The transcript lines of a registered call. *)
Definition transcriptOf (w : World) (callId : string) : option (list val) :=
  match callObject w callId with
  | Some c => arr_of w (get c "transcript")
  | None => None
  end.

(** [m] keeps [I]: the basis of every invariant below. *)
Definition preserves {A} (I : World -> Prop) (m : St A) : Prop :=
  forall w, I w -> I (exec m w).


(** Calls of the monitor's listener methods, directly or through the two
    routes of the call controller. *)
Inductive ListenerCall :=
  | AddListener (callId : string) (listenerId : option string) (callback : option nat)
  | RemoveListener (callId : string) (listenerId : option string)
  | AddListenerRoute (callId : string)
  | RemoveListenerRoute (callId : string).

Definition runListenerCall (c : ListenerCall) : St unit :=
  match c with
  | AddListener callId listenerId callback => addListener callId listenerId callback
  | RemoveListener callId listenerId => removeListener callId listenerId
  | AddListenerRoute callId => addListenerRoute callId >> ret tt
  | RemoveListenerRoute callId => removeListenerRoute callId >> ret tt
  end.

Fixpoint runListenerCalls (cs : list ListenerCall) : St unit :=
  match cs with
  | [] => ret tt
  | c :: rest => runListenerCall c >> runListenerCalls rest
  end.

(** ** Concrete environments and worlds for the examples *)

(** An environment in production mode where sockets construct, the voice
    provider refuses every call and every webhook signature is accepted. *)
Definition env0 : Env := mkEnv false (fun _ => None) (fun _ _ => None) (fun _ => true).

Definition call_c1 (st : string) : val :=
  VLit [("id", VStr "c1"); ("status", VStr st)].

(** One queued call [c1]. *)
Definition w_queued : World :=
  exec (addCall env0 1000 {[ "id" := VStr "c1"; "status" := VStr "queued" ]}) emptyWorld.

(** [c1] after a PUT of status 'ended' whose metadata carries a listener count. *)
Definition w_listening : World :=
  exec (putCallStatus env0 2000 "c1" (VStr "ended") {[ "listenerCount" := VNum 1 ]}) w_queued.

(** [c1] after the webhook reported 'in-progress'. *)
Definition w_in_progress : World :=
  exec (handleStatusUpdate env0 2000 (call_c1 "in-progress")) w_queued.

Definition hello_final : val :=
  VLit [("type", VStr "transcript"); ("call", call_c1 "in-progress");
        ("transcript", VStr "hello"); ("transcriptType", VStr "final");
        ("role", VStr "user")].

(** [c1] after a final transcript line. *)
Definition w_spoken : World :=
  exec (handleTranscriptEvent env0 3000 hello_final) w_in_progress.

(** The call id is in the registry. *)
Definition registered (callId : string) (w : World) : Prop :=
  is_Some (activeCalls (mon w) !! callId).

(** The status history of the call, if it is registered, is unset or an
    array of the heap: the states in which [statusHistory.push] of
    [updateCall] and of the status handler does not throw. *)
Definition history_ok (w : World) (callId : string) : bool :=
  match callObject w callId with
  | Some c =>
      negb (truthy (get c "statusHistory"))
      || bool_decide (is_Some (arr_of w (get c "statusHistory")))
  | None => true
  end.

(** Modelled from the spec: the rank of a status along the lifecycle
    queued, ringing, in-progress, then one of the terminal states.  The
    specification orders statuses by this rank; the source has no such
    function and compares no ranks.  Statuses off the chain have none. *)
Definition rank (st : val) : option nat :=
  if strict_eq st (VStr "queued") then Some 0
  else if strict_eq st (VStr "ringing") then Some 1
  else if strict_eq st (VStr "in-progress") then Some 2
  else if strict_eq st (VStr "ended") || strict_eq st (VStr "failed")
          || strict_eq st (VStr "no-answer") then Some 3
  else None.

(** ** Runs of the whole process *)

(** What can happen to the process: a request, a webhook, a socket event or
    a timer that fires. *)
Inductive Input :=
  | InWebhook (now : Z) (reqBody : val)
  | InCreateCall (now : Z) (body : obj)
  | InPutCallStatus (now : Z) (callId : string) (st : val) (metadata : obj)
  | InStartCampaign (now : Z) (req : StartRequest)
  | InListenerCall (c : ListenerCall)
  | InCleanup (now maxAge : Z)
  | InTimer (now : Z) (i : nat)
  | InSocketOpen (ws : nat)
  | InSocketMessage (now : Z) (ws : nat) (isBinary : bool) (size : nat) (message : option obj)
  | InSocketClose (now : Z) (ws : nat) (code : Z) (reason : string)
  | InSocketError (now : Z) (ws : nat) (message : string).

Definition step (env : Env) (i : Input) : St unit :=
  match i with
  | InWebhook now reqBody => handleVapiWebhook env now reqBody >> ret tt
  | InCreateCall now body => createCall env now body >> ret tt
  | InPutCallStatus now callId st metadata => putCallStatus env now callId st metadata >> ret tt
  | InStartCampaign now req => startCampaign env now req >> ret tt
  | InListenerCall c => runListenerCall c
  | InCleanup now maxAge => cleanup now maxAge
  | InTimer now i => fireTimer env now i
  | InSocketOpen ws => onOpen ws
  | InSocketMessage now ws isBinary size message => onMessage now ws isBinary size message
  | InSocketClose now ws code reason => onClose now ws code reason
  | InSocketError now ws message => onError now ws message
  end.

Fixpoint run (env : Env) (inputs : list Input) : St unit :=
  match inputs with
  | [] => ret tt
  | i :: rest => step env i >> run env rest
  end.

(** A retry timer carries a retry number within the maximum. *)
Definition task_ok (t : Z * Task) : Prop :=
  match snd t with
  | TAudioRetry _ _ nextRetryCount => nextRetryCount <= maxRetries
  | _ => True
  end.

(** No retry counter, anywhere, is above the maximum: not the count kept in
    [retryAttempts], not the attempt number a socket was opened with, not
    the attempt number a pending retry timer will use. *)
Definition retries_bounded (w : World) : Prop :=
  (forall callId r, retryAttempts (mon w) !! callId = Some r -> ri_count r <= maxRetries)
  /\ Forall (fun s => ws_retryCount s <= maxRetries) (sockets (mon w))
  /\ Forall task_ok (timers w).

(** The sockets that retries have opened for the audio stream of a call:
    those created with an attempt number above 0. *)
Definition retrySockets (callId : string) (w : World) : list Socket :=
  filter (fun s => String.eqb (ws_callId s) callId && (0 <? ws_retryCount s) = true)
    (sockets (mon w)).

(** A call with a listen URL starts; its socket opens, fails and closes
    abnormally, and both retry timers fire; the first of the two sockets
    they open goes the same way. *)
Definition started_c1 : val :=
  VLit [("type", VStr "call-started");
        ("call", VLit [("id", VStr "c1");
                       ("monitor", VLit [("listenUrl", VStr "wss://listen/c1")])])].

Definition failing_stream : list Input :=
  [InWebhook 1000 started_c1;
   InSocketOpen 0; InSocketError 2000 0 "reset"; InSocketClose 2000 0 1006 "abnormal";
   InTimer 3000 0; InTimer 3000 0;
   InSocketOpen 1; InSocketError 4000 1 "reset"; InSocketClose 4000 1 1006 "abnormal";
   InTimer 6000 1; InTimer 6000 1].

(** An environment whose voice provider accepts every call and answers
    with call [c2], queued. *)
Definition env_ok : Env :=
  mkEnv false (fun _ => None)
    (fun _ _ => Some {[ "id" := VStr "c2"; "status" := VStr "queued" ]})
    (fun _ => true).

Definition dial_request : obj :=
  {[ "phone_number" := VStr "5551234567";
     "first_name" := VStr "Ada";
     "last_name" := VStr "Smith";
     "metadata" := VLit [("assistantType", VStr "pfas")] ]}.

(** The world after one accepted call-create request. *)
Definition w_dialed : World := exec (createCall env_ok 1000 dial_request) emptyWorld.

(** ** Campaign runs *)

(** The campaign is stored and active. *)
Definition campaign_active (campaignId : string) (w : World) : Prop :=
  exists c, campaigns (store w) !! campaignId = Some c
            /\ get c "status" = VStr "active".

(** The contacts still queued for a campaign. *)
Definition queueOf (campaignId : string) (w : World) : list obj :=
  default [] (queues (store w) !! campaignId).

(** The pending [processBatch] timers of a campaign. *)
Definition batchTimers (campaignId : string) (w : World) : list (Z * Task) :=
  filter (fun t => is_process_batch campaignId t = true) (timers w).

(** The campaign is stored and active, and its statistics hold the number
    of calls in progress, as every campaign that [startCampaign] stores
    does. *)
Definition campaign_ready (campaignId : string) (w : World) : Prop :=
  exists c, campaigns (store w) !! campaignId = Some c
            /\ get c "status" = VStr "active"
            /\ exists n, field (get c "stats") "inProgress" = VNum n.

(** An invariant of the campaign's own data: its record is active with its
    statistics, its queue is [q], and its pending batch timers are [ts]. *)
Definition campaign_frame (cid : string) (q : list obj) (ts : list (Z * Task)) (w : World) : Prop :=
  campaign_ready cid w /\ queueOf cid w = q /\ batchTimers cid w = ts.

(** The request [makeCall] sends to the voice provider for a contact of the
    campaign; none when [formatToE164] refuses the contact's number. *)
Definition dispatchRequest (campaignId : string) (contact : obj) : option obj :=
  (fun formattedPhone : string =>
     ({[ "phone_number" := VStr formattedPhone;
         "first_name" := js_or (get contact "first_name") (VStr "");
         "last_name" := js_or (get contact "last_name") (VStr "");
         "metadata" := VLit
           [("campaignId", VStr campaignId);
            ("leadSource", get contact "lead_source");
            ("caseType", get contact "case_type");
            ("organizationId", get contact "organizationid");
            ("leadId", get contact "leadid")] ]} : obj))
  <$> formatToE164 (get contact "phone_number").

(** The requests for a list of contacts, in order. *)
Definition dispatchRequests (campaignId : string) (contacts : list obj) : list obj :=
  omap (dispatchRequest campaignId) contacts.

(** A queue cut into batches of [m]. *)
Fixpoint chunks (fuel m : nat) (q : list obj) : list (list obj) :=
  match fuel with
  | 0 => []
  | S fuel' =>
      match q with
      | [] => []
      | _ => take m q :: chunks fuel' m (drop m q)
      end
  end.

(** The contacts of the batches a run dispatched, in order. *)
Definition dispatchedBatches (rs : list BatchResult) : list (list obj) :=
  omap (fun r => match r with Dispatched calls => Some (calls.*1) | _ => None end) rs.

Definition contact_n (phone : string) : obj :=
  {[ "phone_number" := VStr phone; "first_name" := VStr "Lee"; "leadid" := VStr phone ]}.

Definition ten_contacts : list obj :=
  contact_n <$> ["5550000001"; "5550000002"; "5550000003"; "5550000004"; "5550000005";
                 "5550000006"; "5550000007"; "5550000008"; "5550000009"; "5550000010"].

Definition campaign_k1 : obj :=
  {[ "id" := VStr "k1"; "status" := VStr "active";
     "maxConcurrent" := VNum 3; "callDelay" := VNum 5000;
     "stats" := VLit [("total", VNum 10); ("completed", VNum 0); ("failed", VNum 0);
                      ("inProgress", VNum 0); ("queued", VNum 10)];
     "currentBatch" := VNum 0 ]}.

(** Campaign [k1] stored with ten contacts queued, nothing dispatched yet. *)
Definition w_campaign : World :=
  exec (saveCampaign "k1" campaign_k1 >> saveCampaignQueue "k1" ten_contacts) emptyWorld.

Definition start_k2 : StartRequest :=
  mkStartRequest "k2" (VStr "second") ten_contacts 5 3 VUndef.

(** ** Transcripts *)

(** The part of the monitor that holds the calls: the registry, the call
    objects and their arrays. *)
Definition heap (w : World) : gmap positive obj * gmap positive (list val) * gmap string positive :=
  (objs (mon w), arrs (mon w), activeCalls (mon w)).

(** The call is registered, its transcript is an array holding [T], and its
    status history is an array of its own, as [addCall] sets them up. *)
Definition has_transcript (callId : string) (T : list val) (w : World) : Prop :=
  exists l c a h,
    activeCalls (mon w) !! callId = Some l
    /\ objs (mon w) !! l = Some c
    /\ get c "transcript" = VArr a
    /\ arrs (mon w) !! a = Some T
    /\ get c "statusHistory" = VArr h
    /\ h <> a
    /\ is_Some (arrs (mon w) !! h).

(** [transcriptType === 'partial'] *)
Definition isPartial (x : val) : bool :=
  strict_eq (field x "transcriptType") (VStr "partial").

(** The entry [e] takes the place of the last line of [T]: [e] is a partial
    and the last line is a partial of the same speaker. *)
Definition replacesLast (T : list val) (e : val) : bool :=
  isPartial e &&
  match last T with
  | Some x => strict_eq (field x "speaker") (field e "speaker") && isPartial x
  | None => false
  end.

(** The transcript [T] after the entry [e], cut to its last 100 lines. *)
Definition withEntry (T : list val) (e : val) : list val :=
  last100 (if replacesLast T e then <[length T - 1 := e]> T else T ++ [e]).

(** A handler holds the call object [c] at [l], whose transcript array [a]
    contains [T], while the registry may have moved on to a later object of
    the same call; [h] is the status history they share. *)
Definition holds_call (callId : string) (l : positive) (c : obj) (a : positive)
    (T : list val) (h : positive) (w : World) : Prop :=
  objs (mon w) !! l = Some c
  /\ arrs (mon w) !! a = Some T
  /\ is_Some (arrs (mon w) !! h)
  /\ exists lc cc,
       activeCalls (mon w) !! callId = Some lc
       /\ objs (mon w) !! lc = Some cc
       /\ get cc "statusHistory" = VArr h.

Definition hello_partial : val :=
  VLit [("type", VStr "transcript"); ("call", call_c1 "in-progress");
        ("transcript", VStr "hel"); ("transcriptType", VStr "partial");
        ("role", VStr "user")].

(** A 'call-ended' webhook for call [c1] of campaign [k1]. *)
Definition ended_c1 : val :=
  VLit [("type", VStr "call-ended");
        ("call", VLit [("id", VStr "c1"); ("status", VStr "ended");
                       ("customer", VLit [("metadata", VLit [("campaignId", VStr "k1")])])])].

(** Campaign [k1] with call [c1] among its calls. *)
Definition w_tracked : World :=
  exec (addCallToCampaign "k1" "c1" {[ "id" := VStr "c1"; "status" := VStr "queued" ]})
    w_campaign.

(** [stats.completed] of a stored campaign. *)
Definition completedOf (campaignId : string) (w : World) : option val :=
  (fun c : obj => field (get c "stats") "completed") <$> campaigns (store w) !! campaignId.

(** ** Conference transfers *)

(** The [result] object of the route's response. *)
Definition toolResult (r : Response) : val :=
  field (first_of (lit_get (body r) "results")) "result".

(** The conference record stored under the conference id of the response. *)
Definition conferenceRecord (r : Response) (w : World) : option obj :=
  conferences (store w) !! key_of (field (toolResult r) "conferenceId").

(** A transfer request of the qualifying assistant for call [c1], lead
    [L7], with the customer's number in the call. *)
Definition transfer_request : val :=
  VLit [("message", VLit
    [("toolCallList", VList [VLit [("id", VStr "tool1");
                                   ("arguments", VLit [("leadId", VStr "L7")])]]);
     ("call", VLit [("id", VStr "c1");
                    ("customer", VLit [("number", VStr "5551234567")])])])].

(** Providers that accept every request; the customer has no call in
    progress. *)
Definition tel_none : Telephony :=
  mkTelephony (VStr "+17254447698") (VStr "hold1")
    (fun _ => inr [])
    (fun _ _ _ _ => inr (VLit [("sid", VStr "CAqueue")]))
    (fun _ _ _ => inr (VLit [("sid", VStr "CAcust")]))
    (fun _ => inr (VLit [("id", VStr "hold-call")])).

(** The same providers when the customer's call to +15551234567 is in
    progress. *)
Definition tel_found : Telephony :=
  mkTelephony (VStr "+17254447698") (VStr "hold1")
    (fun q => if strict_eq (q_to q) (VStr "+15551234567")
              then inr [VLit [("sid", VStr "CAcust"); ("status", VStr "in-progress")]]
              else inr [])
    (fun _ _ _ _ => inr (VLit [("sid", VStr "CAqueue")]))
    (fun _ _ _ => inr (VLit [("sid", VStr "CAcust")]))
    (fun _ => inr (VLit [("id", VStr "hold-call")])).

(** ** utils/validators.js, continued *)

(** [validatePhoneNumber]: [inl] the error text, [inr] the cleaned digits. *)
Definition validatePhoneNumber (phone : val) : string + string :=
  if negb (truthy phone) then inl "Phone number is required"
  else
    let cleaned := digits (js_String phone) in
    if String.length cleaned <? 10 then inl "Phone number is too short"
    else if 15 <? String.length cleaned then inl "Phone number is too long"
    else inr cleaned.

(** Every character is a decimal digit. *)
Fixpoint all_digits (s : string) : bool :=
  match s with
  | EmptyString => true
  | String c s' => is_digit c && all_digits s'
  end.

(** ** The registry *)

(** The keys [addCall] sets itself. *)
Definition addCall_keys : list string :=
  ["listenerCount"; "hasActiveListeners"; "debugMode"; "extendedMonitoring";
   "statusHistory"; "events"; "transcript"; "addedAt"].

(** The status history of a registered call. *)
Definition statusHistoryOf (w : World) (callId : string) : option (list val) :=
  match callObject w callId with
  | Some c => arr_of w (get c "statusHistory")
  | None => None
  end.

(** A non-forced [removeCall] refuses the call: its status is one of
    'ringing', 'in-progress', 'answered', or it has transcript lines. *)
Definition removal_blocked (w : World) (callId : string) : bool :=
  match activeCalls (mon w) !! callId with
  | Some l =>
      let c := default ∅ (objs (mon w) !! l) in
      (strict_eq (get c "status") (VStr "ringing")
       || strict_eq (get c "status") (VStr "in-progress")
       || strict_eq (get c "status") (VStr "answered"))
      || (truthy (get c "transcript") && nonempty w (get c "transcript"))
  | None => false
  end.

(** The sweep of [cleanup] picks the call. *)
Definition cleanup_picks (now maxAge : Z) (w : World) (callId : string) : bool :=
  match activeCalls (mon w) !! callId with
  | Some l => cleanup_due now maxAge (default ∅ (objs (mon w) !! l))
  | None => false
  end.

(** Call [c1] with a socket to its listen URL, connecting, then open. *)
Definition w_connecting : World :=
  exec (setupAudioStreamWithRetry env0 1500 "c1" (VStr "wss://listen/c1") 0) w_queued.
Definition w_streaming : World := exec (onOpen 0) w_connecting.
Definition socket0 : Socket := mkSocket "c1" (VStr "wss://listen/c1") 0 true OPEN 0.

(** ** controllers/campaignController.js, continued *)

(** [stopCampaign]: the first campaign found active is marked stopped and
    then deleted with its queue.  An update that throws ends in the 500 of
    the [catch] block. *)
Definition stopCampaign (now : Z) : St Response :=
  let* activeCampaigns := getAllCampaigns in
  match List.find (fun c : obj => strict_eq (get c "status") (VStr "active")) activeCampaigns with
  | None => ret (mkResponse 400 [("error", VStr "No active campaign to stop")])
  | Some runningCampaign =>
      let campaignId := key_of (get runningCampaign "id") in
      let* updatedCampaign :=
        updateCampaign campaignId {[ "status" := VStr "stopped"; "endTime" := VDate now ]} in
      match updatedCampaign with
      | None => ret (mkResponse 500 [("error", VStr "Failed to stop campaign")])
      | Some u =>
          deleteCampaign campaignId >>
          broadcastToClients
            [("type", VStr "campaign_stopped"); ("campaignId", get runningCampaign "id");
             ("campaign", lit_of u)] >>
          ret (mkResponse 200
            [("message", VStr "Campaign stopped successfully"); ("campaign", lit_of u)])
      end
  end.

(** A request to start campaign [k3] at a later time. *)
Definition start_k3_later : StartRequest :=
  mkStartRequest "k3" (VStr "later") ten_contacts 5 3 (VDate 60000).

(** A contact whose number has too few digits. *)
Definition contact_short : obj :=
  {[ "phone_number" := VStr "555-0100"; "first_name" := VStr "Sam"; "leadid" := VStr "L1" ]}.

(* ================================================================== *)
(** * Properties *)

(** ** The state monad *)

Lemma exec_bind {A B} (m : St A) (k : A -> St B) w :
  exec (bind m k) w = exec (k (eval m w)) (exec m w).
Proof. unfold exec, eval, bind. destruct (m w); reflexivity. Qed.

Lemma eval_bind {A B} (m : St A) (k : A -> St B) w :
  eval (bind m k) w = eval (k (eval m w)) (exec m w).
Proof. unfold exec, eval, bind. destruct (m w); reflexivity. Qed.

Lemma exec_ret {A} (a : A) w : exec (ret a) w = w.
Proof. reflexivity. Qed.
Lemma eval_ret {A} (a : A) w : eval (ret a) w = a.
Proof. reflexivity. Qed.
Lemma exec_gets {A} (f : World -> A) w : exec (gets f) w = w.
Proof. reflexivity. Qed.
Lemma eval_gets {A} (f : World -> A) w : eval (gets f) w = f w.
Proof. reflexivity. Qed.
Lemma exec_modify (f : World -> World) w : exec (modify f) w = f w.
Proof. reflexivity. Qed.

Create Rewrite HintDb st.
#[export] Hint Rewrite @exec_bind @eval_bind @exec_ret @eval_ret @exec_gets @eval_gets
  @exec_modify : st.

(** Symbolic execution of the monadic primitives. *)
Ltac st_simp := autorewrite with st.

Lemma run_eq {A} (m : St A) w : m w = (eval m w, exec m w).
Proof. unfold eval, exec. destruct (m w); reflexivity. Qed.

Lemma preserves_ret {A} (I : World -> Prop) (a : A) : preserves I (ret a).
Proof. intros w H. exact H. Qed.

Lemma preserves_gets {A} (I : World -> Prop) (f : World -> A) : preserves I (gets f).
Proof. intros w H. exact H. Qed.

Lemma preserves_bind {A B} (I : World -> Prop) (m : St A) (k : A -> St B) :
  preserves I m -> (forall a, preserves I (k a)) -> preserves I (bind m k).
Proof. intros Hm Hk w H. rewrite exec_bind. apply Hk, Hm, H. Qed.

Lemma preserves_modify (I : World -> Prop) (f : World -> World) :
  (forall w, I w -> I (f w)) -> preserves I (modify f).
Proof. intros Hf w H. apply Hf, H. Qed.

(** One step of a preservation proof: split a bind, close a return or a
    read, case on a conditional. *)
Ltac pres_step :=
  match goal with
  | |- preserves _ (bind _ _) => apply preserves_bind; [| intros ?]
  | |- preserves _ (ret _) => apply preserves_ret
  | |- preserves _ (gets _) => apply preserves_gets
  | |- preserves _ (if ?b then _ else _) => destruct b eqn:?
  | |- preserves _ (match ?x with _ => _ end) => destruct x eqn:?
  | |- preserves _ (let (_, _) := ?x in _) => destruct x eqn:?
  end.

Ltac pres := repeat pres_step.

(** A read followed by a continuation that may use what the invariant says
    about the value read. *)
Lemma preserves_gets_bind {A B} (I : World -> Prop) (f : World -> A) (k : A -> St B) :
  (forall w, I w -> preserves I (k (f w))) -> preserves I (bind (gets f) k).
Proof. intros H w HI. rewrite exec_bind. exact (H w HI w HI). Qed.

(** ** Reading fields *)

Lemma get_insert_eq (o : obj) k v : get (<[k := v]> o) k = v.
Proof. unfold get. now rewrite lookup_insert_eq. Qed.

Lemma get_insert_ne (o : obj) k k' v : k <> k' -> get (<[k := v]> o) k' = get o k'.
Proof. intros H. unfold get. now rewrite lookup_insert_ne. Qed.

Lemma get_union_l (u c : obj) k v : u !! k = Some v -> get (u ∪ c) k = v.
Proof. intros H. unfold get. now rewrite (lookup_union_Some_l u c k v H). Qed.

Lemma get_union_r (u c : obj) k : u !! k = None -> get (u ∪ c) k = get c k.
Proof. intros H. unfold get. now rewrite lookup_union_r. Qed.

Ltac simpl_get :=
  repeat first
    [ rewrite get_insert_eq
    | rewrite get_insert_ne by (intros ?; discriminate) ].

(** ** Frame lemmas *)

Create HintDb frames.

(** Finishing tactic for [modify] steps whose invariant only reads fields
    the step leaves alone. *)
Ltac frame_tac U := unfold U in *; simpl in *; assumption.

Ltac pres_frame U :=
  repeat first
    [ pres_step
    | apply preserves_modify; intros ? ?; solve [frame_tac U]
    | solve [eauto with frames] ].

Lemma emitToListeners_callObject callId e id x :
  preserves (fun w => callObject w id = x) (emitToListeners callId e).
Proof. unfold emitToListeners. pres_frame callObject. Qed.
#[export] Hint Resolve emitToListeners_callObject : frames.

Lemma handleAudioStreamRetry_callObject now callId url n reason id x :
  preserves (fun w => callObject w id = x) (handleAudioStreamRetry now callId url n reason).
Proof. unfold handleAudioStreamRetry, setTimeout. pres_frame callObject. Qed.
#[export] Hint Resolve handleAudioStreamRetry_callObject : frames.

Lemma setupAudioStreamWithRetry_callObject env now callId url n id x :
  preserves (fun w => callObject w id = x) (setupAudioStreamWithRetry env now callId url n).
Proof. unfold setupAudioStreamWithRetry, setTimeout. pres_frame callObject. Qed.
#[export] Hint Resolve setupAudioStreamWithRetry_callObject : frames.

(** ** Listener calls never reach the counters (C10) *)

Lemma runListenerCall_callObject c id x :
  preserves (fun w => callObject w id = x) (runListenerCall c).
Proof.
  destruct c; unfold runListenerCall, addListenerRoute, removeListenerRoute,
    addListener, removeListener, getCall, read_obj; pres_frame callObject.
Qed.

Lemma runListenerCalls_callObject cs id w :
  callObject (exec (runListenerCalls cs) w) id = callObject w id.
Proof.
  revert w. induction cs as [|c cs IH]; intros w; simpl; [reflexivity|].
  rewrite exec_bind, IH. now apply runListenerCall_callObject.
Qed.

Arguments setupAudioStreamWithRetry : simpl never.
Arguments handleAudioStreamRetry : simpl never.
Arguments emitToListeners : simpl never.

Lemma addCall_callObject env now callData w :
  exists a1 a2 a3,
    callObject (exec (addCall env now callData) w) (key_of (get callData "id")) =
       Some (<["listenerCount" := VNum 0]>
            (<["hasActiveListeners" := VBool false]>
            (<["debugMode" := js_or (get callData "debugMode") (VBool false)]>
            (<["extendedMonitoring" := js_or (get callData "extendedMonitoring") (VBool false)]>
            (<["statusHistory" := VArr a3]>
            (<["events" := VArr a2]>
            (<["transcript" := VArr a1]>
            (<["addedAt" := VDate now]> callData)))))))).
Proof.
  unfold addCall.
  set (id := key_of (get callData "id")).
  do 3 eexists.
  repeat rewrite exec_bind.
  match goal with
  | |- callObject (exec (if ?b then ?m else ret tt) ?w0) _ = _ =>
      transitivity (callObject w0 id)
  end.
  { destruct (truthy _); [|reflexivity].
    now apply setupAudioStreamWithRetry_callObject. }
  unfold callObject, alloc_arr, alloc_obj, bind, ret, gets, modify, exec, eval. simpl.
  now rewrite !lookup_insert_eq.
Qed.

(** C10.  The class body of [CallMonitor] defines [addListener] and
    [removeListener] twice; the later, id-based definitions are the ones in
    force.  So no sequence of listener calls, made on the monitor or through
    the routes of the call controller, changes any field of any registered
    call, and a call entered by [addCall] keeps [listenerCount = 0] and
    [hasActiveListeners = false] through all of them. *)
Theorem listener_calls_never_count (env : Env) (now : Z) (callData : obj)
    (calls : list ListenerCall) (w : World) (callId : string) :
  callObject (exec (runListenerCalls calls) w) callId = callObject w callId
  /\ callField (exec (runListenerCalls calls) (exec (addCall env now callData) w))
       (key_of (get callData "id")) "listenerCount" = Some (VNum 0)
  /\ callField (exec (runListenerCalls calls) (exec (addCall env now callData) w))
       (key_of (get callData "id")) "hasActiveListeners" = Some (VBool false).
Proof.
  split; [apply runListenerCalls_callObject|].
  unfold callField. rewrite runListenerCalls_callObject.
  destruct (addCall_callObject env now callData w) as (a1 & a2 & a3 & ->).
  simpl. now simpl_get.
Qed.

(** ** A late no-answer event (C3) *)

(** C3.  If the registry entry of a call carries answer evidence (a truthy
    [answeredAt] or a transcript with at least one entry), a 'call-no-answer'
    event for it changes nothing at all: [handleCallNoAnswer] returns before
    its first write, so the status is not set to 'no-answer', no [endedAt] is
    written, no campaign failure is counted, no phone entry is cleared and no
    removal timer is set; the same holds when the event comes in through the
    webhook entry point. *)
Theorem late_no_answer_is_ignored (env : Env) (now : Z) (call : val) (w : World)
    (c : obj) :
  callObject w (call_key call) = Some c ->
  answer_evidence w c = true ->
  exec (handleCallNoAnswer env now call) w = w
  /\ forall reqBody,
       validateWebhookSignature env reqBody = true ->
       js_or (field reqBody "message") reqBody
         = VLit [("type", VStr "call-no-answer"); ("call", call)] ->
       truthy call = true ->
       exec (handleVapiWebhook env now reqBody) w = w.
Proof.
  intros Hc Hev.
  assert (H1 : exec (handleCallNoAnswer env now call) w = w).
  { unfold handleCallNoAnswer. destruct (no_call call); [reflexivity|].
    unfold callObject in Hc.
    unfold getCall, read_obj, bind, gets, ret, exec. simpl.
    destruct (activeCalls (mon w) !! call_key call) as [l|]; [|discriminate].
    simpl. rewrite Hc. simpl. rewrite Hev. reflexivity. }
  split; [exact H1|].
  intros reqBody Hsig Hdata Hcall.
  unfold handleVapiWebhook. rewrite Hsig, Hdata. simpl.
  unfold js_or. rewrite Hcall.
  rewrite exec_bind. unfold exec at 1. simpl. exact H1.
Qed.

Lemma late_no_answer_is_ignored_witness :
  exec (handleCallNoAnswer env0 4000 (call_c1 "no-answer")) w_spoken = w_spoken.
Proof.
  refine (proj1 (late_no_answer_is_ignored env0 4000 (call_c1 "no-answer") w_spoken
                   (default ∅ (callObject w_spoken "c1")) _ _)).
  - vm_compute. reflexivity.
  - vm_compute. reflexivity.
Defined.

(** ** Removal from the registry (C2) *)

Lemma closeAudioStream_activeCalls callId x :
  preserves (fun w => activeCalls (mon w) = x) (closeAudioStream callId).
Proof.
  unfold closeAudioStream, socket, setSocket.
  repeat first [ pres_step
               | apply preserves_modify; intros ? ?; simpl in *; assumption ].
Qed.

Arguments closeAudioStream : simpl never.

(** What [removeCall] computes, in one equation. *)
Lemma removeCall_run callId force w :
  removeCall callId force w =
    let blocked :=
      match activeCalls (mon w) !! callId with
      | Some l =>
          let c := default ∅ (objs (mon w) !! l) in
          negb force
          && ((strict_eq (get c "status") (VStr "ringing")
               || strict_eq (get c "status") (VStr "in-progress")
               || strict_eq (get c "status") (VStr "answered"))
              || (truthy (get c "transcript") && nonempty w (get c "transcript")))
      | None => false
      end in
    if blocked then (false, w)
    else (true,
          with_mon (with_callStateHistory (delete callId))
            (with_mon (with_retryAttempts (delete callId))
              (with_mon (with_callListeners (delete callId))
                (with_mon (with_activeCalls (delete callId))
                  (exec (closeAudioStream callId) w))))).
Proof.
  unfold removeCall, getCall, read_obj, bind, gets, ret, modify. simpl.
  destruct (activeCalls (mon w) !! callId) as [l|]; simpl.
  - destruct force; simpl.
    + rewrite (run_eq (closeAudioStream callId)). reflexivity.
    + destruct (strict_eq _ (VStr "ringing") || _ || _); simpl; [reflexivity|].
      destruct (truthy _ && nonempty w _); simpl; [reflexivity|].
      rewrite (run_eq (closeAudioStream callId)). reflexivity.
  - rewrite (run_eq (closeAudioStream callId)). reflexivity.
Qed.

(** C2 as the code has it.  For a registered call, a non-forced
    [removeCall] removes it, returning [true], exactly when its status is
    none of 'ringing', 'in-progress', 'answered' and its transcript is
    empty; in every other non-forced case it returns [false] and leaves the
    whole state unchanged.  The listener count is not consulted.  With
    [force = true] the call is always removed and [true] returned. *)
Theorem removeCall_guards (w : World) (callId : string) (l : positive) :
  activeCalls (mon w) !! callId = Some l ->
  let c := default ∅ (objs (mon w) !! l) in
  let active := strict_eq (get c "status") (VStr "ringing")
                || strict_eq (get c "status") (VStr "in-progress")
                || strict_eq (get c "status") (VStr "answered") in
  let hasTranscript := truthy (get c "transcript") && nonempty w (get c "transcript") in
  eval (removeCall callId false) w = negb active && negb hasTranscript
  /\ (eval (removeCall callId false) w = false -> exec (removeCall callId false) w = w)
  /\ (eval (removeCall callId false) w = true ->
      activeCalls (mon (exec (removeCall callId false) w)) !! callId = None)
  /\ eval (removeCall callId true) w = true
  /\ activeCalls (mon (exec (removeCall callId true) w)) !! callId = None.
Proof.
  intros Hl c active hasTranscript.
  unfold eval, exec. rewrite !removeCall_run. rewrite Hl. simpl.
  fold c. fold active. fold hasTranscript.
  destruct active, hasTranscript; simpl;
    repeat split; try discriminate; try reflexivity; intros; apply lookup_delete_eq.
Qed.

Lemma removeCall_guards_witness :
  eval (removeCall "c1" false) w_spoken = false
  /\ exec (removeCall "c1" false) w_spoken = w_spoken
  /\ eval (removeCall "c1" true) w_spoken = true.
Proof.
  assert (Hl : activeCalls (mon w_spoken) !! "c1"
               = Some (default 1%positive (activeCalls (mon w_spoken) !! "c1")))
    by (vm_compute; reflexivity).
  pose proof (removeCall_guards w_spoken "c1" _ Hl) as (H1 & H2 & _ & H4 & _).
  assert (E : eval (removeCall "c1" false) w_spoken = false) by (vm_compute; reflexivity).
  split; [exact E|]. split; [exact (H2 E)|exact H4].
Defined.

(** The claim as the specification words it fails: the listener count plays
    no part.  Call [c1] has ended, has an empty transcript and a listener
    count of 1, and a non-forced [removeCall] removes it. *)
Lemma removeCall_ignores_listenerCount :
  ~ (eval (removeCall "c1" false) w_listening = true ->
     callField w_listening "c1" "listenerCount" = Some (VNum 0)
     /\ transcriptOf w_listening "c1" = Some []).
Proof.
  intros H.
  assert (E : eval (removeCall "c1" false) w_listening = true) by (vm_compute; reflexivity).
  destruct (H E) as [H1 _]. vm_compute in H1. discriminate.
Qed.

(** ** Status updates (C1) *)

Arguments updateCall : simpl never.
Arguments addCall : simpl never.
Arguments recordStatusChange : simpl never.
Arguments storeUpdatedCall : simpl never.

Lemma storeUpdatedCall_callObject env now callId updates w l :
  callObject (exec (storeUpdatedCall env now callId l updates) w) callId
    = Some (<["updatedAt" := VDate now]> (updates ∪ default ∅ (objs (mon w) !! l))).
Proof.
  unfold storeUpdatedCall.
  repeat rewrite exec_bind.
  match goal with
  | |- callObject (exec (if ?b then ?m else ret tt) ?w0) _ = _ =>
      transitivity (callObject w0 callId)
  end.
  { destruct (_ && _); [|reflexivity].
    now apply setupAudioStreamWithRetry_callObject. }
  unfold callObject, alloc_obj, read_obj, bind, ret, gets, modify, exec, eval. simpl.
  now rewrite !lookup_insert_eq.
Qed.

Lemma updateCall_registered env now callId updates w l :
  activeCalls (mon w) !! callId = Some l ->
  exec (updateCall env now callId updates) w
    = exec (storeUpdatedCall env now callId l updates)
        (exec (recordStatusChange now callId l updates) w).
Proof.
  intros Hl. unfold updateCall, getCall.
  rewrite exec_bind. unfold gets at 1. unfold eval at 1, exec at 2. simpl. rewrite Hl.
  now rewrite exec_bind.
Qed.

Lemma updateCall_unregistered env now callId updates w :
  activeCalls (mon w) !! callId = None ->
  exec (updateCall env now callId updates) w = w.
Proof.
  intros Hl. unfold updateCall, getCall.
  rewrite exec_bind. unfold gets at 1. unfold eval at 1, exec at 2. simpl. now rewrite Hl.
Qed.

(** After [updateCall] on a registered call the registry holds
    [{...call, ...updates, updatedAt}]. *)
Lemma updateCall_callObject env now callId updates w l :
  activeCalls (mon w) !! callId = Some l ->
  exists c2,
    callObject (exec (updateCall env now callId updates) w) callId
      = Some (<["updatedAt" := VDate now]> (updates ∪ c2)).
Proof.
  intros Hl. rewrite (updateCall_registered _ _ _ _ _ _ Hl).
  eexists. apply storeUpdatedCall_callObject.
Qed.

(** [updateCall] writes the reported status whatever the stored one is. *)
Lemma updateCall_status env now callId updates w l s :
  activeCalls (mon w) !! callId = Some l ->
  updates !! "status" = Some s ->
  callField (exec (updateCall env now callId updates) w) callId "status" = Some s.
Proof.
  intros Hl Hs.
  destruct (updateCall_callObject env now callId updates w l Hl) as [c2 E].
  unfold callField. rewrite E. simpl.
  rewrite get_insert_ne by discriminate.
  now rewrite (get_union_l _ _ _ _ Hs).
Qed.

Ltac pres_tac fin :=
  repeat first
    [ pres_step
    | apply preserves_modify; intros ? ?; solve [fin]
    | solve [eauto with frames] ].

Ltac mon_fin := simpl in *; assumption.

(** Handlers that leave the monitor alone. *)
Lemma broadcastToClients_mon e x : preserves (fun w => mon w = x) (broadcastToClients e).
Proof. unfold broadcastToClients. pres_tac mon_fin. Qed.
Lemma sendRealtimeUpdate_mon e x : preserves (fun w => mon w = x) (sendRealtimeUpdate e).
Proof. unfold sendRealtimeUpdate. pres_tac mon_fin. Qed.
Lemma setTimeout_mon t d x : preserves (fun w => mon w = x) (setTimeout t d).
Proof. unfold setTimeout. pres_tac mon_fin. Qed.
#[export] Hint Resolve broadcastToClients_mon sendRealtimeUpdate_mon setTimeout_mon : frames.

Lemma universalBroadcast_mon e x : preserves (fun w => mon w = x) (universalBroadcast e).
Proof. unfold universalBroadcast. pres_tac mon_fin. Qed.
Lemma cleanupPhoneTracking_mon callId phone x :
  preserves (fun w => mon w = x) (cleanupPhoneTracking callId phone).
Proof. unfold cleanupPhoneTracking. pres_tac mon_fin. Qed.
Lemma saveCampaign_mon cid c x : preserves (fun w => mon w = x) (saveCampaign cid c).
Proof. unfold saveCampaign. pres_tac mon_fin. Qed.
#[export] Hint Resolve universalBroadcast_mon cleanupPhoneTracking_mon saveCampaign_mon : frames.

Lemma updateCampaign_mon cid u x : preserves (fun w => mon w = x) (updateCampaign cid u).
Proof. unfold updateCampaign, getCampaign. pres_tac mon_fin. Qed.
Lemma addCallToCampaign_mon cid callId c x :
  preserves (fun w => mon w = x) (addCallToCampaign cid callId c).
Proof. unfold addCallToCampaign. pres_tac mon_fin. Qed.
#[export] Hint Resolve updateCampaign_mon addCallToCampaign_mon : frames.

Lemma updateCallStatus_loop_mon now callId st details cs x :
  preserves (fun w => mon w = x) (updateCallStatus_loop now callId st details cs).
Proof.
  induction cs as [|c cs IH]; simpl; [apply preserves_ret|].
  unfold getCampaignCalls, getCampaign. pres_tac mon_fin.
Qed.
#[export] Hint Resolve updateCallStatus_loop_mon : frames.

Lemma updateCallStatus_mon now callId st details x :
  preserves (fun w => mon w = x) (updateCallStatus now callId st details).
Proof. unfold updateCallStatus, getAllCampaigns. pres_tac mon_fin. Qed.
#[export] Hint Resolve updateCallStatus_mon : frames.

(** From a frame on the monitor to any invariant of the monitor. *)
Lemma mon_frame {A} (m : St A) (P : Monitor -> Prop) :
  (forall x, preserves (fun w => mon w = x) m) ->
  preserves (fun w => P (mon w)) m.
Proof. intros H w HP. now rewrite (H (mon w) w eq_refl). Qed.

(** *** Registration is kept by the status handlers *)

Ltac reg_fin :=
  unfold registered in *; simpl in *;
  first [ assumption | apply lookup_insert_is_Some'; auto ].

Lemma emitToListeners_registered callId e id :
  preserves (registered id) (emitToListeners callId e).
Proof. unfold emitToListeners. pres_tac reg_fin. Qed.
#[export] Hint Resolve emitToListeners_registered : frames.

Lemma handleAudioStreamRetry_registered now callId url n reason id :
  preserves (registered id) (handleAudioStreamRetry now callId url n reason).
Proof. unfold handleAudioStreamRetry, setTimeout. pres_tac reg_fin. Qed.
#[export] Hint Resolve handleAudioStreamRetry_registered : frames.

Lemma setupAudioStreamWithRetry_registered env now callId url n id :
  preserves (registered id) (setupAudioStreamWithRetry env now callId url n).
Proof. unfold setupAudioStreamWithRetry, setTimeout. pres_tac reg_fin. Qed.
#[export] Hint Resolve setupAudioStreamWithRetry_registered : frames.

Lemma updateCall_registered_kept env now callId updates id :
  preserves (registered id) (updateCall env now callId updates).
Proof.
  unfold updateCall, recordStatusChange, storeUpdatedCall, getCall, read_obj,
    alloc_arr, alloc_obj, set_field, push.
  pres_tac reg_fin.
Qed.
#[export] Hint Resolve updateCall_registered_kept : frames.

Lemma addCall_registered_kept env now callData id :
  preserves (registered id) (addCall env now callData).
Proof.
  unfold addCall, alloc_arr, alloc_obj. pres_tac reg_fin.
Qed.
#[export] Hint Resolve addCall_registered_kept : frames.

Lemma registered_mon_frame {A} (m : St A) id :
  (forall x, preserves (fun w => mon w = x) m) -> preserves (registered id) m.
Proof. intros H. exact (mon_frame m (fun mo => is_Some (activeCalls mo !! id)) H). Qed.

Lemma broadcastToClients_registered e id : preserves (registered id) (broadcastToClients e).
Proof. apply registered_mon_frame. eauto with frames. Qed.
Lemma universalBroadcast_registered e id : preserves (registered id) (universalBroadcast e).
Proof. apply registered_mon_frame. eauto with frames. Qed.
Lemma setTimeout_registered t d id : preserves (registered id) (setTimeout t d).
Proof. apply registered_mon_frame. eauto with frames. Qed.
Lemma cleanupPhoneTracking_registered callId phone id :
  preserves (registered id) (cleanupPhoneTracking callId phone).
Proof. apply registered_mon_frame. eauto with frames. Qed.
Lemma updateCallStatus_registered now callId st details id :
  preserves (registered id) (updateCallStatus now callId st details).
Proof. apply registered_mon_frame. eauto with frames. Qed.
#[export] Hint Resolve broadcastToClients_registered universalBroadcast_registered
  setTimeout_registered cleanupPhoneTracking_registered updateCallStatus_registered : frames.

Arguments updateCallStatus : simpl never.
Arguments cleanupPhoneTracking : simpl never.

Lemma handleCallAnswered_registered env now call id :
  preserves (registered id) (handleCallAnswered env now call).
Proof. unfold handleCallAnswered. pres_tac reg_fin. Qed.
Lemma handleCallRinging_registered env now call id :
  preserves (registered id) (handleCallRinging env now call).
Proof. unfold handleCallRinging. pres_tac reg_fin. Qed.
Lemma handleCallFailed_registered env now call id :
  preserves (registered id) (handleCallFailed env now call).
Proof. unfold handleCallFailed. pres_tac reg_fin. Qed.
Lemma handleCallEnded_registered env now call id :
  preserves (registered id) (handleCallEnded env now call).
Proof. unfold handleCallEnded, getCall, read_obj. pres_tac reg_fin. Qed.
#[export] Hint Resolve handleCallAnswered_registered handleCallRinging_registered
  handleCallFailed_registered handleCallEnded_registered : frames.

Lemma get_obj_of (v : val) k : get (obj_of v) k = field v k.
Proof.
  unfold obj_of, field, spread, get. destruct v; try reflexivity.
  induction fs as [|[k' x] fs IH]; simpl; [reflexivity|].
  destruct (String.eqb_spec k' k) as [->|Hne].
  - now rewrite lookup_insert_eq.
  - now rewrite lookup_insert_ne.
Qed.

Lemma addCall_registers env now callData w :
  registered (key_of (get callData "id")) (exec (addCall env now callData) w).
Proof.
  destruct (addCall_callObject env now callData w) as (a1 & a2 & a3 & E).
  unfold registered. unfold callObject in E.
  destruct (activeCalls _ !! _); [eauto|discriminate].
Qed.

Lemma callField_mon w w' callId k :
  mon w' = mon w -> callField w' callId k = callField w callId k.
Proof. intros E. unfold callField, callObject. now rewrite E. Qed.

(** The webhook status handler ends with [updateCall(call.id, updates)],
    where [updates.status] is the reported status. *)
Lemma handleStatusUpdate_status env now call w :
  no_call call = false ->
  callField (exec (handleStatusUpdate env now call) w) (call_key call) "status"
    = Some (field call "status").
Proof.
  intros Hcall. unfold handleStatusUpdate. rewrite Hcall.
  set (st := field call "status").
  set (updates0 := ({[ "status" := st; "updatedAt" := VDate now ]} : obj)).
  rewrite exec_bind. rewrite exec_bind. rewrite exec_bind. rewrite exec_bind.
  rewrite exec_bind.
  match goal with
  | |- callField (exec (broadcastToClients ?e) (exec ?m ?w3)) _ _ = _ =>
      transitivity (callField w3 (call_key call) "status")
  end.
  { apply callField_mon.
    rewrite (broadcastToClients_mon _ _ _ eq_refl).
    destruct (eval (getCall _) _); reflexivity. }
  (* the state and the updates before the final [updateCall] *)
  match goal with
  | |- callField (exec (updateCall env now _ (eval ?chain ?w2)) (exec ?chain ?w2)) _ _ = _ =>
      assert (Hreg : registered (call_key call) (exec chain w2));
      [| assert (Hst : eval chain w2 !! "status" = Some st) ]
  end.
  - (* registration *)
    match goal with
    | |- registered _ (exec ?chain (exec ?first ?w1)) =>
        assert (Hreg1 : registered (call_key call) (exec first w1))
    end.
    { unfold getCall at 1. unfold gets at 1, eval at 1, exec at 2. simpl.
      destruct (activeCalls (mon w) !! call_key call) as [l|] eqn:Hl.
      - assert (Hw : registered (call_key call) w) by (unfold registered; rewrite Hl; eauto).
        revert Hw. generalize w.
        change (preserves (registered (call_key call))
          (let* c := read_obj l in
           (when negb (truthy (get c "statusHistory")) then
              (let* a := alloc_arr [] in set_field l "statusHistory" (VArr a))) >>
           let* c1 := read_obj l in
           push (get c1 "statusHistory")
             (VLit [("from", get c "status"); ("to", st); ("timestamp", VDate now)]) >>
           ret (<["statusHistory" := get c1 "statusHistory"]> updates0))).
        unfold read_obj, alloc_arr, set_field, push. pres_tac reg_fin.
      - rewrite exec_bind.
        unfold ret at 1, exec at 1. simpl.
        pose proof (addCall_registers env now
          (<["extendedMonitoring" := VBool true]> (<["addedAt" := VDate now]> (obj_of call))) w)
          as Hr.
        rewrite !get_insert_ne in Hr by discriminate.
        rewrite get_obj_of in Hr. exact Hr. }
    revert Hreg1.
    match goal with
    | |- registered _ ?w2 -> registered _ (exec ?chain ?w2) =>
        generalize w2; change (preserves (registered (call_key call)) chain)
    end.
    pres_tac reg_fin.
  - (* the updates carry the reported status *)
    assert (H1 : forall (u : obj) {A} (m : St A) w', u !! "status" = Some st ->
               eval (m >> ret u) w' !! "status" = Some st).
    { intros u A m w' Hu. rewrite eval_bind. exact Hu. }
    assert (H2 : forall (u : obj) {A} (m : St A) w', u !! "status" = Some st ->
               eval (m >> ret (<["answeredAt" := VDate now]> u)) w' !! "status" = Some st).
    { intros u A m w' Hu. rewrite eval_bind. unfold ret, eval. simpl.
      now rewrite lookup_insert_ne by discriminate. }
    assert (Hu1 : forall w', eval
      match eval (getCall (call_key call)) w with
      | Some l =>
          let* c := read_obj l in
          (when negb (truthy (get c "statusHistory")) then
             (let* a := alloc_arr [] in set_field l "statusHistory" (VArr a))) >>
          let* c1 := read_obj l in
          push (get c1 "statusHistory")
            (VLit [("from", get c "status"); ("to", st); ("timestamp", VDate now)]) >>
          ret (<["statusHistory" := get c1 "statusHistory"]> updates0)
      | None =>
          addCall env now (<["extendedMonitoring" := VBool true]>
                           (<["addedAt" := VDate now]> (obj_of call))) >>
          ret updates0
      end w' !! "status" = Some st).
    { intros w'. destruct (eval (getCall _) w).
      - repeat rewrite eval_bind. unfold ret at 1, eval at 1. simpl.
        now rewrite lookup_insert_ne by discriminate.
      - rewrite eval_bind. reflexivity. }
    repeat match goal with
           | |- context [if ?b then _ else _] => destruct b
           end;
      first [ apply H1, Hu1 | apply H2, Hu1
            | unfold ret, eval; simpl; apply Hu1 ].
  - destruct Hreg as [l3 Hl3].
    exact (updateCall_status env now _ _ _ l3 st Hl3 Hst).
Qed.

(** C1 as the code has it.  A status update is applied unconditionally.
    On a call whose stored status history is unset or an array (so that the
    push of the transition does not throw), after [updateCall] on a
    registered call with an update that carries a status, and after the
    webhook status handler for any call payload with an id, the registry
    holds exactly the reported status, whatever the status held before and
    whatever the ranks of the two.  No rank is compared anywhere, so a
    reported status of lower rank is applied too. *)
Theorem status_updates_are_unconditional (env : Env) (now : Z) (w : World) :
  (forall callId updates l s,
      activeCalls (mon w) !! callId = Some l ->
      history_ok w callId = true ->
      updates !! "status" = Some s ->
      callField (exec (updateCall env now callId updates) w) callId "status" = Some s)
  /\ (forall call,
      no_call call = false ->
      history_ok w (call_key call) = true ->
      callField (exec (handleStatusUpdate env now call) w) (call_key call) "status"
        = Some (field call "status")).
Proof.
  split.
  - intros callId updates l s Hl _ Hs.
    exact (updateCall_status env now callId updates w l s Hl Hs).
  - intros call Hcall _. now apply handleStatusUpdate_status.
Qed.

Lemma status_updates_are_unconditional_witness :
  callField (exec (updateCall env0 3000 "c1" {[ "status" := VStr "ringing" ]}) w_in_progress)
    "c1" "status" = Some (VStr "ringing")
  /\ callField (exec (handleStatusUpdate env0 3000 (call_c1 "queued")) w_in_progress)
       "c1" "status" = Some (VStr "queued").
Proof.
  assert (Hl : activeCalls (mon w_in_progress) !! "c1"
               = Some (default 1%positive (activeCalls (mon w_in_progress) !! "c1")))
    by (vm_compute; reflexivity).
  split.
  - apply (proj1 (status_updates_are_unconditional env0 3000 w_in_progress)
             "c1" {[ "status" := VStr "ringing" ]} _ (VStr "ringing") Hl).
    + vm_compute. reflexivity.
    + reflexivity.
  - apply (proj2 (status_updates_are_unconditional env0 3000 w_in_progress)
             (call_c1 "queued")).
    + reflexivity.
    + vm_compute. reflexivity.
Defined.

(** The claim as the specification words it fails.  Call [c1] is
    'in-progress' (rank 2); a 'status-update' webhook reporting 'queued'
    (rank 0) is applied, and the result is not a promotion to
    'in-progress'. *)
Lemma status_regression_is_applied :
  ~ (forall before after r r',
       callField w_in_progress "c1" "status" = Some before ->
       callField (exec (handleStatusUpdate env0 3000 (call_c1 "queued")) w_in_progress)
         "c1" "status" = Some after ->
       rank before = Some r -> rank after = Some r' ->
       r <= r' \/ after = VStr "in-progress").
Proof.
  intros H.
  destruct (H (VStr "in-progress") (VStr "queued") 2 0) as [Hle|Heq];
    try (vm_compute; reflexivity).
  - lia.
  - discriminate.
Qed.

(** ** Audio stream retries (C9) *)

Create HintDb retries.

Lemma retries_bounded_mon_other (f : Monitor -> Monitor) w :
  retryAttempts (f (mon w)) = retryAttempts (mon w) ->
  sockets (f (mon w)) = sockets (mon w) ->
  retries_bounded w -> retries_bounded (with_mon f w).
Proof. unfold retries_bounded. simpl. intros -> ->. tauto. Qed.

Lemma retries_bounded_setTimeout t d w :
  task_ok (d, t) -> retries_bounded w ->
  retries_bounded (with_timers (fun l => l ++ [(d, t)]) w).
Proof.
  unfold retries_bounded. simpl. intros Ht (H1 & H2 & H3).
  repeat split; auto. apply Forall_app. split; auto.
Qed.

Lemma retries_bounded_filter_timers (P : Z * Task -> Prop) `{forall x, Decision (P x)} w :
  retries_bounded w -> retries_bounded (with_timers (filter P) w).
Proof.
  unfold retries_bounded. simpl. intros (H1 & H2 & H3).
  repeat split; auto. apply Forall_forall. intros x Hx.
  apply list_elem_of_filter in Hx as [_ Hx].
  exact (proj1 (Forall_forall _ _) H3 x Hx).
Qed.

Lemma retries_bounded_delete_timer i w :
  retries_bounded w -> retries_bounded (with_timers (delete i) w).
Proof.
  unfold retries_bounded. simpl. intros (H1 & H2 & H3).
  repeat split; auto. now apply Forall_delete.
Qed.

Lemma retries_bounded_insert_retry callId r w :
  ri_count r <= maxRetries -> retries_bounded w ->
  retries_bounded (with_mon (with_retryAttempts (insert callId r)) w).
Proof.
  unfold retries_bounded. simpl. intros Hr (H1 & H2 & H3).
  repeat split; auto. intros id r'. rewrite lookup_insert.
  case_decide; [intros [= <-]; exact Hr | apply H1].
Qed.

Lemma retries_bounded_delete_retry callId w :
  retries_bounded w -> retries_bounded (with_mon (with_retryAttempts (delete callId)) w).
Proof.
  unfold retries_bounded. simpl. intros (H1 & H2 & H3).
  repeat split; auto. intros id r'. rewrite lookup_delete.
  case_decide; [discriminate | apply H1].
Qed.

Lemma retries_bounded_new_socket s w :
  ws_retryCount s <= maxRetries -> retries_bounded w ->
  retries_bounded (with_mon (with_sockets (fun l => l ++ [s])) w).
Proof.
  unfold retries_bounded. simpl. intros Hs (H1 & H2 & H3).
  repeat split; auto. apply Forall_app. split; auto.
Qed.

Lemma retries_bounded_set_socket ws (f : Socket -> Socket) w :
  (forall s, ws_retryCount (f s) = ws_retryCount s) ->
  retries_bounded w ->
  retries_bounded (with_mon (with_sockets (fun l =>
    match l !! ws with Some s => <[ws := f s]> l | None => l end)) w).
Proof.
  unfold retries_bounded. simpl. intros Hf (H1 & H2 & H3).
  repeat split; auto.
  destruct (sockets (mon w) !! ws) as [s|] eqn:Hs; [|exact H2].
  apply Forall_insert; [exact H2|].
  rewrite Hf. exact (Forall_lookup_1 _ _ _ _ H2 Hs).
Qed.

Lemma retries_bounded_other (f : World -> World) w :
  mon (f w) = mon w -> timers (f w) = timers w ->
  retries_bounded w -> retries_bounded (f w).
Proof. unfold retries_bounded. intros -> ->. tauto. Qed.

(** Closing tactic of a [modify] step for this invariant. *)
Ltac rb_fin :=
  first
    [ assumption
    | apply retries_bounded_setTimeout; [exact I | assumption]
    | apply retries_bounded_setTimeout; [unfold task_ok, maxRetries in *; simpl; lia | assumption]
    | apply retries_bounded_filter_timers; assumption
    | apply retries_bounded_delete_timer; assumption
    | apply retries_bounded_delete_retry; assumption
    | apply retries_bounded_insert_retry;
        [unfold maxRetries in *; simpl; lia | assumption]
    | apply retries_bounded_new_socket;
        [unfold maxRetries in *; simpl; lia | assumption]
    | apply retries_bounded_set_socket; [intros []; reflexivity | assumption]
    | apply retries_bounded_mon_other; [reflexivity | reflexivity | assumption]
    | apply retries_bounded_other; [reflexivity | reflexivity | assumption] ].

Ltac pres_rb :=
  repeat first
    [ pres_step
    | apply preserves_modify; intros ? ?; solve [rb_fin]
    | solve [eauto with retries] ].


Lemma emitToListeners_rb callId e : preserves retries_bounded (emitToListeners callId e).
Proof. unfold emitToListeners. pres_rb. Qed.
#[export] Hint Resolve emitToListeners_rb : retries.

Lemma handleAudioStreamRetry_rb now callId url n reason :
  preserves retries_bounded (handleAudioStreamRetry now callId url n reason).
Proof.
  unfold handleAudioStreamRetry, setTimeout.
  destruct (n <? maxRetries) eqn:Hn.
  - apply Nat.ltb_lt in Hn. pres_rb.
  - pres_rb.
Qed.
#[export] Hint Resolve handleAudioStreamRetry_rb : retries.

Lemma setupAudioStreamWithRetry_rb env now callId url n :
  n <= maxRetries ->
  preserves retries_bounded (setupAudioStreamWithRetry env now callId url n).
Proof. intros Hn. unfold setupAudioStreamWithRetry, setTimeout. pres_rb. Qed.

Lemma setupAudioStreamWithRetry_rb0 env now callId url :
  preserves retries_bounded (setupAudioStreamWithRetry env now callId url 0).
Proof. apply setupAudioStreamWithRetry_rb. unfold maxRetries. lia. Qed.
#[export] Hint Resolve setupAudioStreamWithRetry_rb0 : retries.

Lemma socket_retry_bounded w ws s :
  retries_bounded w -> sockets (mon w) !! ws = Some s -> ws_retryCount s <= maxRetries.
Proof. intros (_ & H & _) Hs. exact (Forall_lookup_1 _ _ _ _ H Hs). Qed.

Lemma onConnectionTimeout_rb now ws : preserves retries_bounded (onConnectionTimeout now ws).
Proof. unfold onConnectionTimeout, socket, setSocket. pres_rb. Qed.

Lemma onOpen_rb ws : preserves retries_bounded (onOpen ws).
Proof. unfold onOpen, socket, setSocket, clearConnectionTimeout. pres_rb. Qed.

Lemma push_rb v x : preserves retries_bounded (push v x).
Proof. unfold push. pres_rb. Qed.
#[export] Hint Resolve push_rb : retries.

Lemma handleStreamMessage_rb now callId message :
  preserves retries_bounded (handleStreamMessage now callId message).
Proof. unfold handleStreamMessage, read_obj. pres_rb. Qed.
#[export] Hint Resolve handleStreamMessage_rb : retries.

Lemma onMessage_rb now ws isBinary size message :
  preserves retries_bounded (onMessage now ws isBinary size message).
Proof. unfold onMessage, socket, setSocket. pres_rb. Qed.

Lemma onClose_rb now ws code reason : preserves retries_bounded (onClose now ws code reason).
Proof. unfold onClose, socket, setSocket, clearConnectionTimeout. pres_rb. Qed.

Lemma onError_rb now ws message : preserves retries_bounded (onError now ws message).
Proof. unfold onError, socket, clearConnectionTimeout. pres_rb. Qed.

Lemma onAudioRetry_rb env now callId url n :
  n <= maxRetries -> preserves retries_bounded (onAudioRetry env now callId url n).
Proof.
  intros Hn. pose proof (setupAudioStreamWithRetry_rb env now callId url n Hn).
  unfold onAudioRetry. pres_rb.
Qed.

Lemma closeAudioStream_rb callId : preserves retries_bounded (closeAudioStream callId).
Proof. unfold closeAudioStream, socket, setSocket. pres_rb. Qed.
#[export] Hint Resolve onConnectionTimeout_rb onOpen_rb onMessage_rb onClose_rb onError_rb
  closeAudioStream_rb : retries.

(** *** Every other handler keeps the bound *)

Lemma alloc_arr_rb xs : preserves retries_bounded (alloc_arr xs).
Proof. unfold alloc_arr. pres_rb. Qed.
Lemma alloc_obj_rb o : preserves retries_bounded (alloc_obj o).
Proof. unfold alloc_obj. pres_rb. Qed.
Lemma set_field_rb l k v : preserves retries_bounded (set_field l k v).
Proof. unfold set_field. pres_rb. Qed.
Lemma read_obj_rb l : preserves retries_bounded (read_obj l).
Proof. unfold read_obj. pres_rb. Qed.
Lemma getCall_rb callId : preserves retries_bounded (getCall callId).
Proof. unfold getCall. pres_rb. Qed.
Lemma broadcastToClients_rb e : preserves retries_bounded (broadcastToClients e).
Proof. unfold broadcastToClients. pres_rb. Qed.
Lemma universalBroadcast_rb e : preserves retries_bounded (universalBroadcast e).
Proof. unfold universalBroadcast, broadcastToClients, sendRealtimeUpdate. pres_rb. Qed.
#[export] Hint Resolve alloc_arr_rb alloc_obj_rb set_field_rb read_obj_rb getCall_rb
  broadcastToClients_rb universalBroadcast_rb : retries.

Arguments alloc_arr : simpl never.
Arguments alloc_obj : simpl never.
Arguments set_field : simpl never.
Arguments read_obj : simpl never.
Arguments push : simpl never.
Arguments broadcastToClients : simpl never.
Arguments universalBroadcast : simpl never.

Lemma addCall_rb env now callData : preserves retries_bounded (addCall env now callData).
Proof. unfold addCall. pres_rb. Qed.
Lemma updateCall_rb env now callId updates :
  preserves retries_bounded (updateCall env now callId updates).
Proof. unfold updateCall, recordStatusChange, storeUpdatedCall. pres_rb. Qed.
Lemma removeCall_rb callId force : preserves retries_bounded (removeCall callId force).
Proof. unfold removeCall. pres_rb. Qed.
#[export] Hint Resolve addCall_rb updateCall_rb removeCall_rb : retries.

Lemma removeCalls_rb ids : preserves retries_bounded (removeCalls ids).
Proof. induction ids; simpl; pres_rb. Qed.
Lemma cleanup_rb now maxAge : preserves retries_bounded (cleanup now maxAge).
Proof. pose proof removeCalls_rb. unfold cleanup. pres_rb. Qed.
Lemma runListenerCall_rb c : preserves retries_bounded (runListenerCall c).
Proof.
  destruct c; unfold runListenerCall, addListenerRoute, removeListenerRoute,
    addListener, removeListener; pres_rb.
Qed.
#[export] Hint Resolve cleanup_rb runListenerCall_rb : retries.

Lemma saveCampaign_rb cid c : preserves retries_bounded (saveCampaign cid c).
Proof. unfold saveCampaign. pres_rb. Qed.
#[export] Hint Resolve saveCampaign_rb : retries.
Lemma updateCampaign_rb cid u : preserves retries_bounded (updateCampaign cid u).
Proof. unfold updateCampaign, getCampaign. pres_rb. Qed.
Lemma addCallToCampaign_rb cid callId c :
  preserves retries_bounded (addCallToCampaign cid callId c).
Proof. unfold addCallToCampaign. pres_rb. Qed.
Lemma getNextContact_rb cid : preserves retries_bounded (getNextContact cid).
Proof. unfold getNextContact. pres_rb. Qed.
Lemma saveCampaignQueue_rb cid q : preserves retries_bounded (saveCampaignQueue cid q).
Proof. unfold saveCampaignQueue. pres_rb. Qed.
#[export] Hint Resolve updateCampaign_rb addCallToCampaign_rb getNextContact_rb
  saveCampaignQueue_rb : retries.

Arguments saveCampaign : simpl never.
Arguments updateCampaign : simpl never.
Arguments addCallToCampaign : simpl never.
Arguments getNextContact : simpl never.
Arguments saveCampaignQueue : simpl never.

Lemma updateCallStatus_rb now callId st details :
  preserves retries_bounded (updateCallStatus now callId st details).
Proof.
  assert (H : forall cs, preserves retries_bounded (updateCallStatus_loop now callId st details cs)).
  { induction cs; simpl; unfold getCampaignCalls, getCampaign; pres_rb. }
  unfold updateCallStatus, getAllCampaigns. pres_rb.
Qed.
Lemma cleanupPhoneTracking_rb callId phone :
  preserves retries_bounded (cleanupPhoneTracking callId phone).
Proof. unfold cleanupPhoneTracking. pres_rb. Qed.
#[export] Hint Resolve updateCallStatus_rb cleanupPhoneTracking_rb : retries.

Lemma makeCall_rb env now cid contact : preserves retries_bounded (makeCall env now cid contact).
Proof. unfold makeCall, getCampaign. pres_rb. Qed.
#[export] Hint Resolve makeCall_rb : retries.
Arguments makeCall : simpl never.

Lemma makeCalls_rb env now cid batch : preserves retries_bounded (makeCalls env now cid batch).
Proof. induction batch; simpl; pres_rb. Qed.
Lemma nextBatch_rb n cid : preserves retries_bounded (nextBatch n cid).
Proof. induction n; simpl; pres_rb. Qed.
Lemma completeCampaign_rb now cid : preserves retries_bounded (completeCampaign now cid).
Proof. unfold completeCampaign, getCampaign. pres_rb. Qed.
#[export] Hint Resolve makeCalls_rb nextBatch_rb completeCampaign_rb : retries.

Lemma processBatch_rb env now cid m d : preserves retries_bounded (processBatch env now cid m d).
Proof. unfold processBatch, getCampaign, getQueueLength, setTimeout. pres_rb. Qed.
#[export] Hint Resolve processBatch_rb : retries.
Arguments processBatch : simpl never.

Lemma executeCampaign_rb env now cid : preserves retries_bounded (executeCampaign env now cid).
Proof. unfold executeCampaign, getCampaign. pres_rb. Qed.
#[export] Hint Resolve executeCampaign_rb : retries.
Arguments executeCampaign : simpl never.

Lemma startCampaign_rb env now req : preserves retries_bounded (startCampaign env now req).
Proof. unfold startCampaign, getAllCampaigns, setTimeout. pres_rb. Qed.
Lemma createCall_rb env now body : preserves retries_bounded (createCall env now body).
Proof. unfold createCall. pres_rb. Qed.
Lemma putCallStatus_rb env now callId st metadata :
  preserves retries_bounded (putCallStatus env now callId st metadata).
Proof. unfold putCallStatus. pres_rb. Qed.
#[export] Hint Resolve startCampaign_rb createCall_rb putCallStatus_rb : retries.

Arguments handleCallAnswered : simpl never.
Arguments handleCallRinging : simpl never.
Arguments handleCallFailed : simpl never.
Arguments handleCallEnded : simpl never.
Arguments handleStatusUpdate : simpl never.
Arguments handleTranscriptEvent : simpl never.
Arguments handleCallNoAnswer : simpl never.
Arguments capAndStore : simpl never.

Lemma handleCallAnswered_rb env now call : preserves retries_bounded (handleCallAnswered env now call).
Proof. unfold handleCallAnswered. pres_rb. Qed.
Lemma handleCallRinging_rb env now call : preserves retries_bounded (handleCallRinging env now call).
Proof. unfold handleCallRinging. pres_rb. Qed.
Lemma handleCallStarted_rb env now call : preserves retries_bounded (handleCallStarted env now call).
Proof. unfold handleCallStarted. pres_rb. Qed.
Lemma handleCallConnected_rb env now call : preserves retries_bounded (handleCallConnected env now call).
Proof. unfold handleCallConnected. pres_rb. Qed.
Lemma handleCallFailed_rb env now call : preserves retries_bounded (handleCallFailed env now call).
Proof. unfold handleCallFailed, setTimeout. pres_rb. Qed.
Lemma handleCallEnded_rb env now call : preserves retries_bounded (handleCallEnded env now call).
Proof. unfold handleCallEnded, setTimeout. pres_rb. Qed.
Lemma handleCallNoAnswer_rb env now call : preserves retries_bounded (handleCallNoAnswer env now call).
Proof. unfold handleCallNoAnswer, setTimeout. pres_rb. Qed.
Lemma handleFunctionCall_rb call f : preserves retries_bounded (handleFunctionCall call f).
Proof. unfold handleFunctionCall. pres_rb. Qed.
#[export] Hint Resolve handleCallAnswered_rb handleCallRinging_rb handleCallStarted_rb
  handleCallConnected_rb handleCallFailed_rb handleCallEnded_rb handleCallNoAnswer_rb
  handleFunctionCall_rb : retries.

Lemma capAndStore_rb env now callId l : preserves retries_bounded (capAndStore env now callId l).
Proof. unfold capAndStore. pres_rb. Qed.
#[export] Hint Resolve capAndStore_rb : retries.

Lemma handleTranscriptEvent_rb env now wd :
  preserves retries_bounded (handleTranscriptEvent env now wd).
Proof. unfold handleTranscriptEvent. pres_rb. Qed.
Lemma handleSpeechUpdate_rb env now call message :
  preserves retries_bounded (handleSpeechUpdate env now call message).
Proof. unfold handleSpeechUpdate. pres_rb. Qed.
Lemma handleStatusUpdate_rb env now call :
  preserves retries_bounded (handleStatusUpdate env now call).
Proof. unfold handleStatusUpdate. pres_rb. Qed.
Lemma handleConversationUpdate_rb env now data :
  preserves retries_bounded (handleConversationUpdate env now data).
Proof.
  assert (H : forall callId l ms, preserves retries_bounded (appendMessages now callId l ms)).
  { intros callId l ms. induction ms; simpl; pres_rb. }
  unfold handleConversationUpdate. pres_rb.
Qed.
#[export] Hint Resolve handleTranscriptEvent_rb handleSpeechUpdate_rb handleStatusUpdate_rb
  handleConversationUpdate_rb : retries.

Lemma handleVapiWebhook_rb env now reqBody :
  preserves retries_bounded (handleVapiWebhook env now reqBody).
Proof. unfold handleVapiWebhook. pres_rb. Qed.
#[export] Hint Resolve handleVapiWebhook_rb : retries.

Lemma fire_rb env now d t :
  task_ok (d, t) -> preserves retries_bounded (fire env now t).
Proof.
  intros Ht. destruct t; simpl.
  - apply onConnectionTimeout_rb.
  - apply onAudioRetry_rb. exact Ht.
  - pres_rb.
  - pres_rb.
  - unfold onEndedCleanup, setTimeout. pres_rb.
  - unfold onEndedRemoval, setTimeout. pres_rb.
  - unfold onEndedRecheck. pres_rb.
  - unfold onFailedRemoval. pres_rb.
  - unfold onNoAnswerRemoval. pres_rb.
Qed.

Lemma fireTimer_rb env now i : preserves retries_bounded (fireTimer env now i).
Proof.
  unfold fireTimer. apply preserves_gets_bind. intros w Hw.
  destruct (timers w !! i) as [[d t]|] eqn:Ht; [|apply preserves_ret].
  assert (Hok : task_ok (d, t)).
  { destruct Hw as (_ & _ & H). exact (Forall_lookup_1 _ _ _ _ H Ht). }
  pose proof (fire_rb env now d t Hok).
  pres_rb.
Qed.

Lemma step_rb env i : preserves retries_bounded (step env i).
Proof.
  pose proof fireTimer_rb.
  destruct i; simpl; pres_rb.
Qed.

Lemma run_rb env inputs : preserves retries_bounded (run env inputs).
Proof.
  induction inputs; simpl; [apply preserves_ret|].
  apply preserves_bind; [apply step_rb | intros; assumption].
Qed.

Lemma retries_bounded_empty : retries_bounded emptyWorld.
Proof.
  unfold retries_bounded, emptyWorld, emptyMonitor. simpl.
  repeat split; [|constructor|constructor].
  intros id r. rewrite lookup_empty. discriminate.
Qed.

(** *** What one retry decision does *)

Lemma emitToListeners_run callId e w :
  exec (emitToListeners callId e) w =
    match callListeners (mon w) !! callId with
    | Some ls =>
        with_delivered (fun d => d ++
          omap (fun '(lid, cb) =>
                  match cb : option nat with
                  | Some _ => Some (callId, lid, e)
                  | None => None
                  end) (map_to_list ls)) w
    | None => w
    end.
Proof.
  unfold emitToListeners, bind, gets, modify, ret, exec. simpl.
  destruct (callListeners (mon w) !! callId); reflexivity.
Qed.

Lemma emitToListeners_mon callId e w : mon (exec (emitToListeners callId e) w) = mon w.
Proof. rewrite emitToListeners_run. destruct (_ !! _); reflexivity. Qed.

Lemma emitToListeners_timers callId e w : timers (exec (emitToListeners callId e) w) = timers w.
Proof. rewrite emitToListeners_run. destruct (_ !! _); reflexivity. Qed.

Lemma emitToListeners_delivers callId e w ls lid cb :
  callListeners (mon w) !! callId = Some ls ->
  ls !! lid = Some (Some cb) ->
  (callId, lid, e) ∈ delivered (exec (emitToListeners callId e) w).
Proof.
  intros Hls Hlid. rewrite emitToListeners_run, Hls. simpl.
  apply elem_of_app. right. apply list_elem_of_omap.
  exists (lid, Some cb). split; [|reflexivity].
  now apply elem_of_map_to_list.
Qed.

Lemma retryDelay_mono n m : n <= m -> (retryDelay n <= retryDelay m)%Z.
Proof.
  intros H. unfold retryDelay.
  apply Z.mul_le_mono_nonneg_r; [lia|].
  apply Z.pow_le_mono_r; lia.
Qed.

Lemma setSocket_run ws f w s :
  sockets (mon w) !! ws = Some s ->
  exec (setSocket ws f) w = with_mon (with_sockets (fun l => <[ws := f s]> l)) w.
Proof.
  intros H. unfold setSocket. rewrite exec_modify.
  unfold with_mon, with_sockets. now rewrite H.
Qed.




(** ** Phone de-duplication (C8) *)

Arguments createCall : simpl never.
Arguments includes : simpl never.
Arguments formatToE164 : simpl never.

Ltac phones_fin := simpl in *; assumption.

Lemma emitToListeners_phones callId e x :
  preserves (fun w => activeCallsByPhone w = x) (emitToListeners callId e).
Proof. unfold emitToListeners. pres_tac phones_fin. Qed.
#[export] Hint Resolve emitToListeners_phones : frames.
Lemma handleAudioStreamRetry_phones now callId url n reason x :
  preserves (fun w => activeCallsByPhone w = x) (handleAudioStreamRetry now callId url n reason).
Proof. unfold handleAudioStreamRetry, setTimeout. pres_tac phones_fin. Qed.
#[export] Hint Resolve handleAudioStreamRetry_phones : frames.
Lemma setupAudioStreamWithRetry_phones env now callId url n x :
  preserves (fun w => activeCallsByPhone w = x) (setupAudioStreamWithRetry env now callId url n).
Proof. unfold setupAudioStreamWithRetry, setTimeout. pres_tac phones_fin. Qed.
#[export] Hint Resolve setupAudioStreamWithRetry_phones : frames.
Lemma updateCall_phones env now callId updates x :
  preserves (fun w => activeCallsByPhone w = x) (updateCall env now callId updates).
Proof.
  unfold updateCall, recordStatusChange, storeUpdatedCall, getCall, read_obj,
    alloc_arr, alloc_obj, set_field, push.
  pres_tac phones_fin.
Qed.
#[export] Hint Resolve updateCall_phones : frames.
Lemma addCall_phones env now callData x :
  preserves (fun w => activeCallsByPhone w = x) (addCall env now callData).
Proof. unfold addCall, alloc_arr, alloc_obj. pres_tac phones_fin. Qed.
#[export] Hint Resolve addCall_phones : frames.
Lemma broadcastToClients_phones e x :
  preserves (fun w => activeCallsByPhone w = x) (broadcastToClients e).
Proof. unfold broadcastToClients. pres_tac phones_fin. Qed.
Lemma universalBroadcast_phones e x :
  preserves (fun w => activeCallsByPhone w = x) (universalBroadcast e).
Proof. unfold universalBroadcast, broadcastToClients, sendRealtimeUpdate. pres_tac phones_fin. Qed.
Lemma setTimeout_phones t d x :
  preserves (fun w => activeCallsByPhone w = x) (setTimeout t d).
Proof. unfold setTimeout. pres_tac phones_fin. Qed.
Lemma updateCallStatus_phones now callId st details x :
  preserves (fun w => activeCallsByPhone w = x) (updateCallStatus now callId st details).
Proof.
  assert (H : forall cs, preserves (fun w => activeCallsByPhone w = x)
                (updateCallStatus_loop now callId st details cs)).
  { induction cs; simpl;
      unfold getCampaignCalls, getCampaign, addCallToCampaign, updateCampaign, saveCampaign,
        broadcastToClients;
      pres_tac phones_fin. }
  unfold updateCallStatus, getAllCampaigns. pres_tac phones_fin.
Qed.
#[export] Hint Resolve broadcastToClients_phones universalBroadcast_phones setTimeout_phones
  updateCallStatus_phones : frames.

Lemma cleanupPhoneTracking_clears callId phone w e :
  truthy phone = true ->
  activeCallsByPhone w !! key_of phone = Some e ->
  strict_eq (get e "callId") callId = true ->
  activeCallsByPhone (exec (cleanupPhoneTracking callId phone) w) !! key_of phone = None.
Proof.
  intros Hp He Hid.
  unfold cleanupPhoneTracking, bind, gets, modify, ret, exec. simpl.
  rewrite He, Hp, Hid. simpl. apply lookup_delete_eq.
Qed.

Lemma includes_active_not_terminal s :
  includes ["ended"; "failed"; "no-answer"] s = true ->
  includes ["queued"; "ringing"; "in-progress"] s = false.
Proof.
  destruct s; try discriminate. unfold includes. cbn [existsb strict_eq].
  rewrite !orb_true_iff. rewrite !String.eqb_eq.
  intros [<-|[<-|[<-|H]]]; [reflexivity..|discriminate].
Qed.

(** What [createCall] does once the request is valid and the number is free
    or its entry is stale. *)
Lemma createCall_proceeds env now body w p callData :
  truthy (field (get body "metadata") "assistantType") = true ->
  formatToE164 (get body "phone_number") = Some p ->
  (forall e, activeCallsByPhone w !! p = Some e ->
     forall l, activeCalls (mon w) !! key_of (get e "callId") = Some l ->
       includes ["queued"; "ringing"; "in-progress"]
         (get (default ∅ (objs (mon w) !! l)) "status") = false) ->
  (forall n request, vapi_createCall env n request = Some callData) ->
  let r := eval (createCall env now body) w in
  let w' := exec (createCall env now body) w in
  status <$> r = Some 200
  /\ (fun e : obj => get e "callId") <$> activeCallsByPhone w' !! p = Some (get callData "id")
  /\ (forall p', p' <> p -> activeCallsByPhone w' !! p' = activeCallsByPhone w !! p')
  /\ registered (key_of (get callData "id")) w'
  /\ callField w' (key_of (get callData "id")) "status" = Some (get callData "status").
Proof.
  intros Hassist Hphone Hstale Hvapi r w'. subst r w'.
  unfold createCall. rewrite Hassist, Hphone. simpl negb. cbv iota.
  rewrite eval_bind, exec_bind, eval_gets, exec_gets.
  rewrite eval_bind, exec_bind.
  (* the duplicate check lets the request through *)
  set (check := match activeCallsByPhone w !! p with Some _ => _ | None => ret None end).
  assert (Hcheck : eval check w = None
                   /\ (exec check w = w \/ exec check w = with_phones (delete p) w)).
  { subst check. destruct (activeCallsByPhone w !! p) as [e|] eqn:He; [|split; [reflexivity|now left]].
    unfold getCall, read_obj. st_simp.
    destruct (activeCalls (mon w) !! key_of (get e "callId")) as [l|] eqn:Hl; st_simp.
    - rewrite (Hstale e eq_refl l Hl). st_simp. split; [reflexivity|now right].
    - split; [reflexivity|now right]. }
  destruct Hcheck as [Hev Hex]. rewrite Hev.
  set (w1 := exec check w) in *.
  assert (Hother : forall p', p' <> p -> activeCallsByPhone w1 !! p' = activeCallsByPhone w !! p').
  { intros p' Hne. destruct Hex as [-> | ->]; [reflexivity|]. simpl.
    now rewrite lookup_delete_ne. }
  clearbody w1. clear Hex Hev check.
  rewrite eval_bind, exec_bind, eval_gets, exec_gets.
  rewrite eval_bind, exec_bind, exec_modify. rewrite Hvapi.
  rewrite eval_bind, exec_bind, exec_modify.
  rewrite eval_bind, exec_bind.
  match goal with
  | |- context [exec (addCall env now ?cd) (with_phones (insert p ?entry) ?w2)] =>
      set (cdata := cd); set (entry0 := entry)
  end.
  match goal with
  | |- context [exec (addCall env now cdata) ?w2] => set (w3 := w2)
  end.
  assert (Hid : get cdata "id" = get callData "id").
  { subst cdata. now rewrite !get_insert_ne by discriminate. }
  assert (Hph : activeCallsByPhone (exec (addCall env now cdata) w3)
                = <[p := entry0]> (activeCallsByPhone w1)).
  { now apply (addCall_phones env now cdata _ w3). }
  assert (Hreg : registered (key_of (get callData "id")) (exec (addCall env now cdata) w3)).
  { rewrite <- Hid. apply addCall_registers. }
  assert (Hcf : callField (exec (addCall env now cdata) w3) (key_of (get callData "id")) "status"
                = Some (get callData "status")).
  { rewrite <- Hid. destruct (addCall_callObject env now cdata w3) as (a1 & a2 & a3 & E).
    unfold callField. rewrite E. cbn [fmap option_fmap option_map]. f_equal.
    rewrite !get_insert_ne by discriminate. subst cdata.
    now rewrite !get_insert_ne by discriminate. }
  set (w4 := exec (addCall env now cdata) w3) in *. clearbody w4.
  st_simp.
  split; [reflexivity|].
  assert (Hfinal : forall e, activeCallsByPhone (exec (broadcastToClients e) w4)
                             = <[p := entry0]> (activeCallsByPhone w1)).
  { intros e. now apply (broadcastToClients_phones e _ w4). }
  assert (Hregf : forall e, registered (key_of (get callData "id")) (exec (broadcastToClients e) w4)).
  { intros e. now apply broadcastToClients_registered. }
  rewrite !Hfinal.
  split; [rewrite lookup_insert_eq; subst entry0; simpl; now simpl_get|].
  split; [intros p' Hne; rewrite lookup_insert_ne by congruence; now apply Hother|].
  split; [apply Hregf|].
  rewrite <- Hcf. apply callField_mon. now apply broadcastToClients_mon.
Qed.

Lemma createCall_duplicate env now reqBody w p e l :
  truthy (field (get reqBody "metadata") "assistantType") = true ->
  formatToE164 (get reqBody "phone_number") = Some p ->
  activeCallsByPhone w !! p = Some e ->
  activeCalls (mon w) !! key_of (get e "callId") = Some l ->
  includes ["queued"; "ringing"; "in-progress"]
    (get (default ∅ (objs (mon w) !! l)) "status") = true ->
  exists r,
    createCall env now reqBody w = (Some r, w)
    /\ status r = 409
    /\ lit_get (body r) "existingCallId" = get e "callId".
Proof.
  intros Hassist Hphone He Hl Hst.
  eexists. split.
  - rewrite run_eq. unfold createCall. rewrite Hassist, Hphone. simpl negb. cbv iota.
    unfold getCall, read_obj. st_simp.
    rewrite He. st_simp. rewrite Hl. st_simp. rewrite Hst.
    st_simp. reflexivity.
  - split; reflexivity.
Qed.

Lemma handleCallFailed_clears env now call w e p :
  no_call call = false ->
  field (field call "customer") "number" = VStr p -> p <> "" ->
  activeCallsByPhone w !! p = Some e ->
  strict_eq (get e "callId") (field call "id") = true ->
  activeCallsByPhone (exec (handleCallFailed env now call) w) !! p = None.
Proof.
  intros Hcall Hnum Hp He Hid.
  assert (Htr : truthy (VStr p) = true).
  { simpl. destruct (String.eqb_spec p ""); [contradiction|reflexivity]. }
  unfold handleCallFailed. rewrite Hcall, Hnum, Htr.
  rewrite !exec_bind.
  rewrite (setTimeout_phones _ _ _ _ eq_refl).
  apply (cleanupPhoneTracking_clears (field call "id") (VStr p) _ e Htr); [|exact Hid].
  simpl key_of.
  rewrite (broadcastToClients_phones _ _ _ eq_refl).
  match goal with
  | |- activeCallsByPhone (exec (if ?b then ?m else ret tt) ?w0) !! _ = _ =>
      assert (Hb : activeCallsByPhone (exec (if b then m else ret tt) w0)
                   = activeCallsByPhone w0)
        by (destruct b; [now apply updateCallStatus_phones | reflexivity]);
      rewrite Hb
  end.
  now rewrite (updateCall_phones _ _ _ _ _ _ eq_refl).
Qed.

Lemma handleCallNoAnswer_clears env now call w e p :
  no_call call = false ->
  (forall l, activeCalls (mon w) !! call_key call = Some l ->
     answer_evidence w (default ∅ (objs (mon w) !! l)) = false) ->
  field (field call "customer") "number" = VStr p -> p <> "" ->
  activeCallsByPhone w !! p = Some e ->
  strict_eq (get e "callId") (field call "id") = true ->
  activeCallsByPhone (exec (handleCallNoAnswer env now call) w) !! p = None.
Proof.
  intros Hcall Hev Hnum Hp He Hid.
  assert (Htr : truthy (VStr p) = true).
  { simpl. destruct (String.eqb_spec p ""); [contradiction|reflexivity]. }
  unfold handleCallNoAnswer. rewrite Hcall, Hnum, Htr.
  rewrite exec_bind. unfold getCall. rewrite eval_gets, exec_gets.
  rewrite exec_bind.
  assert (Hans : forall w0,
    eval match activeCalls (mon w) !! call_key call with
         | Some l => let* c := read_obj l in gets (fun w1 => answer_evidence w1 c)
         | None => ret false
         end w = false
    /\ exec match activeCalls (mon w) !! call_key call with
            | Some l => let* c := read_obj l in gets (fun w1 => answer_evidence w1 c)
            | None => ret false
            end w0 = w0).
  { intros w0. destruct (activeCalls (mon w) !! call_key call) as [l|] eqn:Hl.
    - unfold read_obj. st_simp. split; [now apply Hev|reflexivity].
    - split; reflexivity. }
  rewrite (proj1 (Hans w)), (proj2 (Hans w)).
  rewrite !exec_bind.
  rewrite (setTimeout_phones _ _ _ _ eq_refl).
  apply (cleanupPhoneTracking_clears (field call "id") (VStr p) _ e Htr); [|exact Hid].
  simpl key_of.
  rewrite (broadcastToClients_phones _ _ _ eq_refl).
  match goal with
  | |- activeCallsByPhone (exec (if ?b then ?m else ret tt) ?w0) !! _ = _ =>
      assert (Hb : activeCallsByPhone (exec (if b then m else ret tt) w0)
                   = activeCallsByPhone w0)
        by (destruct b; [now apply updateCallStatus_phones | reflexivity]);
      rewrite Hb
  end.
  now rewrite (updateCall_phones _ _ _ _ _ _ eq_refl).
Qed.

Lemma onEndedCleanup_clears env call duration endedAt w e p :
  field (field call "customer") "number" = VStr p -> p <> "" ->
  activeCallsByPhone w !! p = Some e ->
  strict_eq (get e "callId") (field call "id") = true ->
  activeCallsByPhone (exec (onEndedCleanup env call duration endedAt) w) !! p = None.
Proof.
  intros Hnum Hp He Hid.
  assert (Htr : truthy (VStr p) = true).
  { simpl. destruct (String.eqb_spec p ""); [contradiction|reflexivity]. }
  unfold onEndedCleanup. rewrite Hnum, Htr.
  rewrite !exec_bind.
  rewrite (setTimeout_phones _ _ _ _ eq_refl).
  apply (cleanupPhoneTracking_clears (field call "id") (VStr p) _ e Htr); [|exact Hid].
  simpl key_of.
  now rewrite (universalBroadcast_phones _ _ _ eq_refl).
Qed.

(** *** The end of a call and its clean-up timer *)

Lemma updateCallStatus_timers now callId st details x :
  preserves (fun w => timers w = x) (updateCallStatus now callId st details).
Proof.
  assert (H : forall cs, preserves (fun w => timers w = x)
                (updateCallStatus_loop now callId st details cs)).
  { induction cs; simpl;
      unfold getCampaignCalls, getCampaign, addCallToCampaign, updateCampaign, saveCampaign,
        broadcastToClients;
      pres_tac phones_fin. }
  unfold updateCallStatus, getAllCampaigns. pres_tac phones_fin.
Qed.

(** An update without a listen URL sets no timer. *)
Lemma updateCall_timers env now callId updates x :
  truthy (field (get updates "monitor") "listenUrl") = false ->
  preserves (fun w => timers w = x) (updateCall env now callId updates).
Proof.
  intros Hu.
  unfold updateCall, recordStatusChange, storeUpdatedCall, getCall, read_obj,
    alloc_arr, alloc_obj, set_field, push.
  rewrite Hu. cbn [andb].
  pres_tac phones_fin.
Qed.

(** [handleCallEnded] on a call that is not being listened to: the entry
    of the number stays, and the clean-up timer is set. *)
Lemma handleCallEnded_schedules env now call w :
  no_call call = false ->
  (forall l, activeCalls (mon w) !! call_key call = Some l ->
     truthy (get (default ∅ (objs (mon w) !! l)) "hasActiveListeners") = false) ->
  activeCallsByPhone (exec (handleCallEnded env now call) w) = activeCallsByPhone w
  /\ exists duration,
       timers (exec (handleCallEnded env now call) w)
       = timers w ++ [((if development env then 600000 else 300000)%Z,
                       TEndedCleanup call duration now)].
Proof.
  intros Hcall Hls.
  unfold handleCallEnded. rewrite Hcall. unfold getCall. st_simp.
  assert (Hc : exists oc : option obj,
            (forall w0, eval match activeCalls (mon w) !! call_key call with
                             | Some l => let* c := read_obj l in ret (Some c)
                             | None => ret None
                             end w0 = (fun l => default ∅ (objs (mon w0) !! l))
                                        <$> activeCalls (mon w) !! call_key call)
            /\ (forall w0, exec match activeCalls (mon w) !! call_key call with
                                | Some l => let* c := read_obj l in ret (Some c)
                                | None => ret None
                                end w0 = w0)
            /\ oc = (fun l => default ∅ (objs (mon w) !! l))
                      <$> activeCalls (mon w) !! call_key call).
  { eexists. split; [|split; [|reflexivity]].
    - intros w0. destruct (activeCalls (mon w) !! call_key call); reflexivity.
    - intros w0. destruct (activeCalls (mon w) !! call_key call); reflexivity. }
  destruct Hc as (oc & He & Hx & Hoc). rewrite He, Hx. rewrite <- Hoc.
  assert (Hnl : truthy (default VUndef ((fun c : obj => get c "hasActiveListeners") <$> oc))
                = false).
  { subst oc. destruct (activeCalls (mon w) !! call_key call) as [l|] eqn:Hl; [|reflexivity].
    simpl. now apply Hls. }
  rewrite Hnl. rewrite !exec_bind.
  match goal with
  | |- context [exec (setTimeout ?t ?d) (exec ?m (exec (updateCall env now ?i ?u) w))] =>
      set (w1 := exec (updateCall env now i u) w);
      assert (Ht1 : timers w1 = timers w)
        by (apply (updateCall_timers env now i u); reflexivity);
      assert (Hp1 : activeCallsByPhone w1 = activeCallsByPhone w)
        by (now apply (updateCall_phones env now i u));
      assert (Ht2 : timers (exec m w1) = timers w)
        by (destruct (truthy (field _ "campaignId"));
            [now apply updateCallStatus_timers | exact Ht1]);
      assert (Hp2 : activeCallsByPhone (exec m w1) = activeCallsByPhone w)
        by (destruct (truthy (field _ "campaignId"));
            [now apply updateCallStatus_phones | exact Hp1])
  end.
  split.
  - now apply setTimeout_phones.
  - eexists. unfold setTimeout. rewrite exec_modify. simpl. rewrite Ht2. reflexivity.
Qed.

(** C8.  Phone de-duplication in [createCall], for a request that passes
    validation (an assistant is selected, the number formats to [p]).
    - If [p] is tracked and the tracked call is registered with status
      'queued', 'ringing' or 'in-progress', the request is answered 409 with
      the existing call id and nothing changes: no call is created.
    - If the tracked call has reached 'ended', 'failed' or 'no-answer' and
      the provider accepts the call, the request succeeds: the entry of [p]
      now names the new call, which is registered, and the entries of all
      other numbers are untouched.
    - At most one call is tracked for a number: once a request for [p] has
      succeeded and its call is 'queued', 'ringing' or 'in-progress', every
      further request whose number formats to [p] is answered 409 with the
      id of that call and changes nothing.
    - The terminal webhooks clear the entry of the call they end, on a call
      whose stored status history is unset or an array: 'failed' and
      'no-answer' at once; 'ended', for a call that is not being listened
      to, leaves the entry in place and sets the clean-up timer, and the
      entry is cleared when that timer fires. *)
Theorem phone_dedup (env : Env) (now : Z) (w : World) :
  (forall reqBody p e l,
      truthy (field (get reqBody "metadata") "assistantType") = true ->
      formatToE164 (get reqBody "phone_number") = Some p ->
      activeCallsByPhone w !! p = Some e ->
      activeCalls (mon w) !! key_of (get e "callId") = Some l ->
      includes ["queued"; "ringing"; "in-progress"]
        (get (default ∅ (objs (mon w) !! l)) "status") = true ->
      exists r,
        createCall env now reqBody w = (Some r, w)
        /\ status r = 409
        /\ lit_get (body r) "existingCallId" = get e "callId")
  /\ (forall reqBody p e l callData,
      truthy (field (get reqBody "metadata") "assistantType") = true ->
      formatToE164 (get reqBody "phone_number") = Some p ->
      activeCallsByPhone w !! p = Some e ->
      activeCalls (mon w) !! key_of (get e "callId") = Some l ->
      includes ["ended"; "failed"; "no-answer"]
        (get (default ∅ (objs (mon w) !! l)) "status") = true ->
      (forall n request, vapi_createCall env n request = Some callData) ->
      let r := eval (createCall env now reqBody) w in
      let w' := exec (createCall env now reqBody) w in
      status <$> r = Some 200
      /\ (fun e : obj => get e "callId") <$> activeCallsByPhone w' !! p
           = Some (get callData "id")
      /\ (forall p', p' <> p -> activeCallsByPhone w' !! p' = activeCallsByPhone w !! p')
      /\ registered (key_of (get callData "id")) w')
  /\ (forall reqBody reqBody' now' p callData,
      truthy (field (get reqBody "metadata") "assistantType") = true ->
      formatToE164 (get reqBody "phone_number") = Some p ->
      truthy (field (get reqBody' "metadata") "assistantType") = true ->
      formatToE164 (get reqBody' "phone_number") = Some p ->
      (forall e, activeCallsByPhone w !! p = Some e ->
         forall l, activeCalls (mon w) !! key_of (get e "callId") = Some l ->
           includes ["queued"; "ringing"; "in-progress"]
             (get (default ∅ (objs (mon w) !! l)) "status") = false) ->
      (forall n request, vapi_createCall env n request = Some callData) ->
      includes ["queued"; "ringing"; "in-progress"] (get callData "status") = true ->
      let w' := exec (createCall env now reqBody) w in
      exists r,
        createCall env now' reqBody' w' = (Some r, w')
        /\ status r = 409
        /\ lit_get (body r) "existingCallId" = get callData "id")
  /\ (forall call e p,
      no_call call = false ->
      history_ok w (call_key call) = true ->
      field (field call "customer") "number" = VStr p -> p <> "" ->
      activeCallsByPhone w !! p = Some e ->
      strict_eq (get e "callId") (field call "id") = true ->
      activeCallsByPhone (exec (handleCallFailed env now call) w) !! p = None
      /\ ((forall l, activeCalls (mon w) !! call_key call = Some l ->
             answer_evidence w (default ∅ (objs (mon w) !! l)) = false) ->
          activeCallsByPhone (exec (handleCallNoAnswer env now call) w) !! p = None)
      /\ ((forall l, activeCalls (mon w) !! call_key call = Some l ->
             truthy (get (default ∅ (objs (mon w) !! l)) "hasActiveListeners") = false) ->
          let w1 := exec (handleCallEnded env now call) w in
          let i := length (timers w) in
          activeCallsByPhone w1 !! p = Some e
          /\ (exists duration,
                timers w1 !! i
                = Some ((if development env then 600000 else 300000)%Z,
                        TEndedCleanup call duration now))
          /\ (forall now', activeCallsByPhone (exec (fireTimer env now' i) w1) !! p = None))).
Proof.
  split; [|split; [|split]].
  - intros reqBody p e l. apply createCall_duplicate.
  - intros reqBody p e l callData Hassist Hphone He Hl Hterm Hvapi.
    destruct (createCall_proceeds env now reqBody w p callData Hassist Hphone)
      as (H1 & H2 & H3 & H4 & _); auto.
    intros e' He' l' Hl'.
    rewrite He in He'. injection He' as <-.
    rewrite Hl in Hl'. injection Hl' as <-.
    now apply includes_active_not_terminal.
  - intros reqBody reqBody' now' p callData Hassist Hphone Hassist' Hphone' Hfree Hvapi Hact w'.
    destruct (createCall_proceeds env now reqBody w p callData Hassist Hphone Hfree Hvapi)
      as (_ & H2 & _ & [l Hl] & H5).
    fold w' in H2, Hl, H5.
    destruct (activeCallsByPhone w' !! p) as [e'|] eqn:He'; [|discriminate].
    cbn in H2. injection H2 as Hid.
    destruct (createCall_duplicate env now' reqBody' w' p e' l Hassist' Hphone' He')
      as (r & Hr & Hs & Hb).
    + now rewrite Hid.
    + unfold callField, callObject in H5. rewrite Hl in H5.
      destruct (objs (mon w') !! l) as [c|]; [|discriminate].
      cbn in H5. injection H5 as H5. unfold default, id. now rewrite H5.
    + exists r. rewrite Hb, Hid. auto.
  - intros call e p Hcall _ Hnum Hp He Hid.
    split; [now apply (handleCallFailed_clears env now call w e)|].
    split.
    + intros Hev. now apply (handleCallNoAnswer_clears env now call w e).
    + intros Hls w1 i.
      destruct (handleCallEnded_schedules env now call w Hcall Hls) as (Hph & duration & Ht).
      fold w1 in Hph, Ht.
      assert (Hi : timers w1 !! i
                   = Some ((if development env then 600000 else 300000)%Z,
                           TEndedCleanup call duration now)).
      { rewrite Ht. subst i. rewrite lookup_app_r by lia. now rewrite Nat.sub_diag. }
      split; [now rewrite Hph|]. split; [eauto|].
      intros now'. unfold fireTimer. rewrite exec_bind, eval_gets, exec_gets, Hi.
      rewrite exec_bind, exec_modify.
      apply (onEndedCleanup_clears env call duration now _ e); auto.
      simpl. now rewrite Hph.
Qed.

Lemma phone_dedup_witness :
  (exists r,
     createCall env_ok 2000 dial_request w_dialed = (Some r, w_dialed)
     /\ status r = 409
     /\ lit_get (body r) "existingCallId" = VStr "c2")
  /\ activeCallsByPhone
       (exec (handleCallFailed env_ok 3000
                (VLit [("id", VStr "c2");
                       ("customer", VLit [("number", VStr "+15551234567")])])) w_dialed)
     !! "+15551234567" = None.
Proof.
  split.
  - refine (proj1 (phone_dedup env_ok 2000 w_dialed) dial_request "+15551234567"
              (default ∅ (activeCallsByPhone w_dialed !! "+15551234567"))
              (default 1%positive (activeCalls (mon w_dialed) !! "c2")) _ _ _ _ _);
      vm_compute; reflexivity.
  - refine (proj1 (proj2 (proj2 (proj2 (phone_dedup env_ok 3000 w_dialed)))
              (VLit [("id", VStr "c2");
                     ("customer", VLit [("number", VStr "+15551234567")])])
              (default ∅ (activeCallsByPhone w_dialed !! "+15551234567"))
              "+15551234567" _ _ _ _ _ _)).
    + reflexivity.
    + vm_compute. reflexivity.
    + reflexivity.
    + discriminate.
    + vm_compute. reflexivity.
    + vm_compute. reflexivity.
Defined.

(** ** Campaign batches (C6, C7) *)

Lemma json_lookup (o : obj) k :
  json o !! k =
    match o !! k with
    | Some v => if is_undef v then None else Some (json_val v)
    | None => None
    end.
Proof.
  unfold json. rewrite lookup_fmap, map_lookup_filter.
  destruct (o !! k) as [v|]; simpl; [|reflexivity].
  case_guard as Hg; simpl in *; rewrite Hg || (destruct (is_undef v); [|congruence]);
    reflexivity.
Qed.

Lemma get_json_str (o : obj) k s : get o k = VStr s -> get (json o) k = VStr s.
Proof.
  unfold get. rewrite json_lookup. destruct (o !! k) as [v|]; simpl; [|discriminate].
  intros ->. reflexivity.
Qed.

Lemma get_json_num (o : obj) k n : get o k = VNum n -> get (json o) k = VNum n.
Proof.
  unfold get. rewrite json_lookup. destruct (o !! k) as [v|]; simpl; [|discriminate].
  intros ->. reflexivity.
Qed.

Lemma get_json (o : obj) k : get (json o) k = json_val (get o k).
Proof.
  unfold get. rewrite json_lookup. destruct (o !! k) as [v|]; simpl; [|reflexivity].
  destruct v; reflexivity.
Qed.

Lemma lit_get_json_num (fs : list (string * val)) k n :
  lit_get fs k = VNum n -> field (json_val (VLit fs)) k = VNum n.
Proof.
  simpl. induction fs as [|[k' v] fs IH]; simpl; [discriminate|].
  destruct (String.eqb k' k) eqn:E.
  - intros ->. simpl. now rewrite E.
  - intros H. destruct v; simpl; rewrite ?E; auto.
Qed.

(** The statistics of a campaign survive the JSON copy of the store. *)
Lemma stats_json (o : obj) k n :
  field (get o "stats") k = VNum n -> field (get (json o) "stats") k = VNum n.
Proof.
  intros H. rewrite get_json. destruct (get o "stats"); try discriminate.
  now apply lit_get_json_num.
Qed.

Lemma stats_not_nullish (c : obj) k n :
  field (get c "stats") k = VNum n -> nullish (get c "stats") = false.
Proof. destruct (get c "stats"); try discriminate; reflexivity. Qed.

Lemma campaign_ready_active cid w : campaign_ready cid w -> campaign_active cid w.
Proof. intros (c & Hc & Hst & _). exists c. auto. Qed.

(** *** What a dispatch leaves alone *)

Lemma saveCampaign_run cid c w :
  exec (saveCampaign cid c) w =
    with_store (with_activeCampaigns (fun s =>
      if bool_decide (cid ∈ s) then s else s ++ [cid]))
      (with_store (with_campaigns (insert cid (json c))) w).
Proof. reflexivity. Qed.

Lemma updateCampaign_ready cid cid' (u : obj) :
  u !! "status" = None \/ u !! "status" = Some (VStr "active") ->
  u !! "stats" = None ->
  preserves (campaign_ready cid) (updateCampaign cid' u).
Proof.
  intros Hu Hs w (c & Hc & Hst & n & Hn).
  unfold updateCampaign, getCampaign. st_simp.
  destruct (campaigns (store w) !! cid') as [c'|] eqn:Hc'; st_simp; [|exists c; eauto].
  rewrite saveCampaign_run. unfold campaign_ready. simpl.
  destruct (decide (cid' = cid)) as [->|Hne].
  - rewrite lookup_insert_eq. eexists. split; [reflexivity|].
    rewrite Hc in Hc'. injection Hc' as <-. split.
    + apply get_json_str. destruct Hu as [Hu|Hu].
      * now rewrite get_union_r by exact Hu.
      * now apply get_union_l.
    + exists n. apply stats_json. now rewrite get_union_r by exact Hs.
  - rewrite lookup_insert_ne by exact Hne. exists c. eauto.
Qed.

Ltac store_fin U := unfold U in *; simpl in *; assumption.

Lemma not_batch_timer_filter cid (l : list (Z * Task)) d t :
  is_process_batch cid (d, t) = false ->
  filter (fun t => is_process_batch cid t = true) (l ++ [(d, t)])
    = filter (fun t => is_process_batch cid t = true) l.
Proof.
  intros H. rewrite filter_app. rewrite filter_cons_False; [|now rewrite H].
  rewrite filter_nil. apply app_nil_r.
Qed.

Lemma campaign_frame_mon cid q ts (f : Monitor -> Monitor) w :
  campaign_frame cid q ts w -> campaign_frame cid q ts (with_mon f w).
Proof. exact id. Qed.

Lemma campaign_frame_timer cid q ts d t w :
  is_process_batch cid (d, t) = false ->
  campaign_frame cid q ts w ->
  campaign_frame cid q ts (with_timers (fun l => l ++ [(d, t)]) w).
Proof.
  intros Ht (H1 & H2 & H3). repeat split; auto.
  unfold batchTimers in *. simpl. now rewrite not_batch_timer_filter.
Qed.

Lemma campaign_frame_other cid q ts (f : World -> World) w :
  store (f w) = store w -> timers (f w) = timers w ->
  campaign_frame cid q ts w -> campaign_frame cid q ts (f w).
Proof.
  unfold campaign_frame, campaign_ready, queueOf, batchTimers.
  intros -> ->. tauto.
Qed.

Ltac cf_fin :=
  first
    [ assumption
    | apply campaign_frame_timer; [reflexivity | assumption]
    | apply campaign_frame_other; [reflexivity | reflexivity | assumption] ].

Create HintDb campaign.

Ltac pres_cf :=
  repeat first
    [ pres_step
    | apply preserves_modify; intros ? ?; solve [cf_fin]
    | solve [eauto with campaign] ].

Lemma emitToListeners_cf cid q ts callId e :
  preserves (campaign_frame cid q ts) (emitToListeners callId e).
Proof. unfold emitToListeners. pres_cf. Qed.
#[export] Hint Resolve emitToListeners_cf : campaign.
Lemma handleAudioStreamRetry_cf cid q ts now callId url n reason :
  preserves (campaign_frame cid q ts) (handleAudioStreamRetry now callId url n reason).
Proof. unfold handleAudioStreamRetry, setTimeout. pres_cf. Qed.
#[export] Hint Resolve handleAudioStreamRetry_cf : campaign.
Lemma setupAudioStreamWithRetry_cf cid q ts env now callId url n :
  preserves (campaign_frame cid q ts) (setupAudioStreamWithRetry env now callId url n).
Proof. unfold setupAudioStreamWithRetry, setTimeout. pres_cf. Qed.
#[export] Hint Resolve setupAudioStreamWithRetry_cf : campaign.
Lemma addCall_cf cid q ts env now callData :
  preserves (campaign_frame cid q ts) (addCall env now callData).
Proof. unfold addCall, alloc_arr, alloc_obj. pres_cf. Qed.
#[export] Hint Resolve addCall_cf : campaign.
Lemma broadcastToClients_cf cid q ts e :
  preserves (campaign_frame cid q ts) (broadcastToClients e).
Proof. unfold broadcastToClients. pres_cf. Qed.
#[export] Hint Resolve broadcastToClients_cf : campaign.

Lemma updateCampaign_cf cid q ts cid' (u : obj) :
  u !! "status" = None -> u !! "stats" = None ->
  preserves (campaign_frame cid q ts) (updateCampaign cid' u).
Proof.
  intros Hu Hs w (H1 & H2 & H3). split; [apply updateCampaign_ready; auto|].
  unfold updateCampaign, getCampaign. st_simp.
  destruct (campaigns (store w) !! cid'); st_simp; [|auto].
  rewrite saveCampaign_run. auto.
Qed.

Lemma addCallToCampaign_cf cid q ts cid' callId c :
  preserves (campaign_frame cid q ts) (addCallToCampaign cid' callId c).
Proof.
  unfold addCallToCampaign. apply preserves_modify. intros w (H1 & H2 & H3).
  repeat split; assumption.
Qed.
#[export] Hint Resolve addCallToCampaign_cf : campaign.

Lemma makeCall_cf cid q ts env now cid' contact :
  preserves (campaign_frame cid q ts) (makeCall env now cid' contact).
Proof.
  assert (Hu : forall a b : val, preserves (campaign_frame cid q ts)
            (updateCampaign cid' {[ "stats.failed" := a; "stats.inProgress" := b ]})).
  { intros a b. apply updateCampaign_cf; reflexivity. }
  unfold makeCall, getCampaign. cbv zeta. pres_cf.
Qed.
#[export] Hint Resolve makeCall_cf : campaign.

Lemma makeCalls_cf cid q ts env now cid' batch :
  preserves (campaign_frame cid q ts) (makeCalls env now cid' batch).
Proof. induction batch; simpl; pres_cf. Qed.

Lemma makeCalls_fst env now cid batch w :
  (eval (makeCalls env now cid batch) w).*1 = batch.
Proof.
  revert w. induction batch as [|c batch IH]; intros w; simpl; [reflexivity|].
  st_simp. simpl. now rewrite IH.
Qed.

(** *** The requests a dispatch sends *)

Ltac vapi_fin := simpl in *; assumption.

Lemma emitToListeners_vapi callId e x :
  preserves (fun w => vapiRequests w = x) (emitToListeners callId e).
Proof. unfold emitToListeners. pres_tac vapi_fin. Qed.
#[export] Hint Resolve emitToListeners_vapi : frames.
Lemma handleAudioStreamRetry_vapi now callId url n reason x :
  preserves (fun w => vapiRequests w = x) (handleAudioStreamRetry now callId url n reason).
Proof. unfold handleAudioStreamRetry, setTimeout. pres_tac vapi_fin. Qed.
#[export] Hint Resolve handleAudioStreamRetry_vapi : frames.
Lemma setupAudioStreamWithRetry_vapi env now callId url n x :
  preserves (fun w => vapiRequests w = x) (setupAudioStreamWithRetry env now callId url n).
Proof. unfold setupAudioStreamWithRetry, setTimeout. pres_tac vapi_fin. Qed.
#[export] Hint Resolve setupAudioStreamWithRetry_vapi : frames.
Lemma addCall_vapi env now callData x :
  preserves (fun w => vapiRequests w = x) (addCall env now callData).
Proof. unfold addCall, alloc_arr, alloc_obj. pres_tac vapi_fin. Qed.
Lemma broadcastToClients_vapi e x :
  preserves (fun w => vapiRequests w = x) (broadcastToClients e).
Proof. unfold broadcastToClients. pres_tac vapi_fin. Qed.
Lemma setTimeout_vapi t d x : preserves (fun w => vapiRequests w = x) (setTimeout t d).
Proof. unfold setTimeout. pres_tac vapi_fin. Qed.
Lemma updateCampaign_vapi cid u x :
  preserves (fun w => vapiRequests w = x) (updateCampaign cid u).
Proof. unfold updateCampaign, getCampaign, saveCampaign. pres_tac vapi_fin. Qed.
Lemma addCallToCampaign_vapi cid callId c x :
  preserves (fun w => vapiRequests w = x) (addCallToCampaign cid callId c).
Proof. unfold addCallToCampaign. pres_tac vapi_fin. Qed.
#[export] Hint Resolve addCall_vapi broadcastToClients_vapi setTimeout_vapi updateCampaign_vapi
  addCallToCampaign_vapi : frames.
Lemma completeCampaign_vapi now cid x :
  preserves (fun w => vapiRequests w = x) (completeCampaign now cid).
Proof. unfold completeCampaign, getCampaign. pres_tac vapi_fin. Qed.
Lemma getNextContact_vapi cid x :
  preserves (fun w => vapiRequests w = x) (getNextContact cid).
Proof. unfold getNextContact. pres_tac vapi_fin. Qed.
#[export] Hint Resolve completeCampaign_vapi getNextContact_vapi : frames.
Lemma nextBatch_vapi n cid x :
  preserves (fun w => vapiRequests w = x) (nextBatch n cid).
Proof. induction n; simpl; pres_tac vapi_fin. Qed.

(** [makeCall] on a stored campaign sends the provider the request of the
    contact, and sends nothing when the contact's number is refused;
    whatever the provider answers, nothing else is sent. *)
Lemma makeCall_requests env now cid contact w :
  is_Some (campaigns (store w) !! cid) ->
  vapiRequests (exec (makeCall env now cid contact) w)
  = vapiRequests w ++ option_list (dispatchRequest cid contact).
Proof.
  intros [c Hc]. unfold makeCall, dispatchRequest, getCampaign. cbv zeta.
  rewrite exec_bind, eval_gets, exec_gets, Hc.
  destruct (formatToE164 (get contact "phone_number")) as [p|];
    cbn [fmap option_fmap option_map option_list].
  - rewrite exec_bind, eval_gets, exec_gets. rewrite exec_bind, exec_modify.
    match goal with
    | |- vapiRequests (exec ?m ?w1) = _ =>
        assert (P : preserves (fun w0 => vapiRequests w0 = vapiRequests w1) m)
    end.
    { pres_tac vapi_fin. }
    rewrite (P _ eq_refl). reflexivity.
  - rewrite app_nil_r.
    match goal with
    | |- vapiRequests (exec ?m w) = _ =>
        assert (P : preserves (fun w0 => vapiRequests w0 = vapiRequests w) m)
    end.
    { pres_tac vapi_fin. }
    exact (P _ eq_refl).
Qed.

Lemma makeCalls_requests env now cid batch :
  forall q ts w,
    campaign_frame cid q ts w ->
    vapiRequests (exec (makeCalls env now cid batch) w)
    = vapiRequests w ++ dispatchRequests cid batch.
Proof.
  induction batch as [|contact batch IH]; intros q ts w Hf; simpl.
  - now rewrite app_nil_r.
  - rewrite !exec_bind, exec_ret.
    rewrite (IH q ts) by (now apply makeCall_cf).
    rewrite makeCall_requests.
    + unfold dispatchRequests. cbn [omap list_omap].
      destruct (dispatchRequest cid contact); cbn [option_list]; now rewrite <- app_assoc.
    + destruct Hf as ((c & Hc & _) & _). rewrite Hc. eauto.
Qed.

Lemma dispatchRequests_take_drop cid m (q : list obj) :
  dispatchRequests cid (take m q) ++ dispatchRequests cid (drop m q) = dispatchRequests cid q.
Proof. unfold dispatchRequests. now rewrite <- omap_app, take_drop. Qed.

(** *** One batch *)

Lemma getNextContact_run cid w :
  getNextContact cid w =
    match queueOf cid w with
    | [] => (None, w)
    | contact :: rest =>
        (Some contact,
         with_store (with_queues (fun m =>
           if bool_decide (rest = []) then delete cid m else <[cid := rest]> m)) w)
    end.
Proof.
  unfold getNextContact, queueOf, bind, gets, modify, ret.
  destruct (default [] (queues (store w) !! cid)); reflexivity.
Qed.

Lemma getNextContact_spec cid w :
  eval (getNextContact cid) w = head (queueOf cid w)
  /\ queueOf cid (exec (getNextContact cid) w) = tail (queueOf cid w)
  /\ campaigns (store (exec (getNextContact cid) w)) = campaigns (store w)
  /\ timers (exec (getNextContact cid) w) = timers w.
Proof.
  unfold eval, exec. rewrite getNextContact_run.
  destruct (queueOf cid w) as [|c rest] eqn:Hq; cbn [fst snd head tail].
  - auto.
  - repeat split; try reflexivity.
    unfold queueOf. simpl. case_bool_decide as Hr.
    + rewrite lookup_delete_eq. now subst.
    + now rewrite lookup_insert_eq.
Qed.

Lemma nextBatch_spec cid k w :
  eval (nextBatch k cid) w = take k (queueOf cid w)
  /\ queueOf cid (exec (nextBatch k cid) w) = drop k (queueOf cid w)
  /\ campaigns (store (exec (nextBatch k cid) w)) = campaigns (store w)
  /\ timers (exec (nextBatch k cid) w) = timers w.
Proof.
  revert w. induction k as [|k IH]; intros w; simpl.
  - st_simp. rewrite drop_0. auto.
  - st_simp.
    destruct (getNextContact_spec cid w) as (G1 & G2 & G3 & G4).
    destruct (IH (exec (getNextContact cid) w)) as (E1 & E2 & E3 & E4).
    rewrite G1, E1, E2, E3, E4, G2, G3, G4.
    destruct (queueOf cid w) as [|c rest]; simpl.
    + rewrite take_nil, drop_nil. auto.
    + auto.
Qed.

Arguments nextBatch : simpl never.
Arguments makeCalls : simpl never.
Arguments completeCampaign : simpl never.
Arguments strict_eq : simpl nomatch.

Lemma processBatch_halted env now cid m d w :
  (forall c, campaigns (store w) !! cid = Some c ->
     strict_eq (get c "status") (VStr "active") = false) ->
  processBatch env now cid m d w = (Halted, w).
Proof.
  intros H. rewrite run_eq. unfold processBatch, getCampaign. st_simp.
  destruct (campaigns (store w) !! cid) as [c|] eqn:Hc; [|reflexivity].
  rewrite (H c eq_refl). reflexivity.
Qed.

Lemma getQueueLength_eval cid w : eval (getQueueLength cid) w = length (queueOf cid w).
Proof. reflexivity. Qed.
Lemma getQueueLength_exec cid w : exec (getQueueLength cid) w = w.
Proof. reflexivity. Qed.
Arguments getQueueLength : simpl never.

Lemma completeCampaign_timers now cid x :
  preserves (fun w => timers w = x) (completeCampaign now cid).
Proof.
  unfold completeCampaign, getCampaign, updateCampaign, saveCampaign, broadcastToClients.
  repeat first [ pres_step | apply preserves_modify; intros ? ?; simpl in *; assumption ].
Qed.

Lemma processBatch_completed env now cid m d ts w :
  campaign_frame cid [] ts w ->
  eval (processBatch env now cid m d) w = Completed
  /\ batchTimers cid (exec (processBatch env now cid m d) w) = ts
  /\ vapiRequests (exec (processBatch env now cid m d) w) = vapiRequests w.
Proof.
  intros ((c & Hc & Hst & _) & Hq & Hts).
  unfold processBatch, getCampaign. st_simp. rewrite Hc, Hst. cbn [strict_eq negb].
  rewrite String.eqb_refl. cbn [negb]. st_simp.
  rewrite getQueueLength_eval, getQueueLength_exec, Hq. cbn [length Nat.eqb]. st_simp.
  split; [reflexivity|]. split.
  - unfold batchTimers in *. now rewrite (completeCampaign_timers now cid _ w eq_refl).
  - now apply completeCampaign_vapi.
Qed.

Lemma processBatch_dispatched env now cid (m : nat) d q ts w :
  campaign_frame cid q ts w -> q <> [] -> 0 < m ->
  exists calls,
    eval (processBatch env now cid (VNum (Z.of_nat m)) d) w = Dispatched calls
    /\ calls.*1 = take m q
    /\ campaign_frame cid (drop m q)
         (ts ++ [(to_Z d, TProcessBatch cid (VNum (Z.of_nat m)) d)])
         (exec (processBatch env now cid (VNum (Z.of_nat m)) d) w)
    /\ vapiRequests (exec (processBatch env now cid (VNum (Z.of_nat m)) d) w)
       = vapiRequests w ++ dispatchRequests cid (take m q).
Proof.
  intros Hf Hq Hm. pose proof Hf as ((c & Hc & Hst & n & Hn) & Hqw & Hts).
  unfold processBatch, getCampaign. st_simp. rewrite Hc, Hst. cbn [strict_eq negb].
  rewrite String.eqb_refl. cbn [negb]. st_simp.
  rewrite getQueueLength_eval, getQueueLength_exec, Hqw.
  destruct q as [|c0 q0]; [contradiction|]. cbn [length Nat.eqb]. st_simp.
  cbn [to_Z]. rewrite Nat2Z.id.
  set (k := Nat.min m (S (length q0))).
  destruct (nextBatch_spec cid k w) as (E1 & E2 & E3 & E4). rewrite Hqw in E1, E2.
  assert (Htk : take k (c0 :: q0) = take m (c0 :: q0)).
  { subst k. destruct (Nat.min_spec m (S (length q0))) as [[_ ->]|[Hle ->]]; [reflexivity|].
    rewrite !take_ge; simpl; [reflexivity|lia|lia]. }
  assert (Hdk : drop k (c0 :: q0) = drop m (c0 :: q0)).
  { subst k. destruct (Nat.min_spec m (S (length q0))) as [[_ ->]|[Hle ->]]; [reflexivity|].
    rewrite !drop_ge; simpl; [reflexivity|lia|lia]. }
  rewrite E1. rewrite Htk.
  destruct m as [|m']; [lia|]. cbn [take length Nat.eqb]. st_simp.
  rewrite getQueueLength_eval, getQueueLength_exec.
  rewrite (stats_not_nullish c _ _ Hn). st_simp.
  pose proof (nextBatch_vapi k cid _ w eq_refl) as Hv1.
  set (w1 := exec (nextBatch k cid) w) in *.
  assert (Hf1 : campaign_frame cid (drop (S m') (c0 :: q0)) ts w1).
  { split; [|split].
    - exists c. rewrite E3. eauto.
    - rewrite E2. exact Hdk.
    - unfold batchTimers. rewrite E4. exact Hts. }
  clearbody w1.
  match goal with
  | |- context [updateCampaign cid ?u] => set (u0 := u)
  end.
  assert (Hu0 : (u0 : obj) !! "status" = None) by reflexivity.
  assert (Hu1 : (u0 : obj) !! "stats" = None) by reflexivity.
  pose proof (updateCampaign_cf cid _ ts cid u0 Hu0 Hu1 w1 Hf1) as Hf2.
  pose proof (updateCampaign_vapi cid u0 _ w1 Hv1) as Hv2.
  assert (Hsome : exists u, eval (updateCampaign cid u0) w1 = Some u).
  { destruct Hf1 as ((c1 & Hc1 & _) & _). unfold updateCampaign, getCampaign. st_simp.
    rewrite Hc1. st_simp. eauto. }
  destruct Hsome as [u Hu]. rewrite Hu. st_simp.
  set (w2 := exec (updateCampaign cid u0) w1) in *. clearbody w2.
  eexists. split; [reflexivity|]. split; [apply makeCalls_fst|].
  unfold setTimeout. rewrite exec_modify.
  match goal with
  | |- campaign_frame _ _ _ (with_timers _ ?w3) /\ _ =>
      assert (Hf3 : campaign_frame cid (drop (S m') (c0 :: q0)) ts w3);
      [|assert (Hv3 : vapiRequests w3
                      = vapiRequests w ++ dispatchRequests cid (take (S m') (c0 :: q0)))]
  end.
  { apply makeCalls_cf. apply broadcastToClients_cf. exact Hf2. }
  { rewrite (makeCalls_requests env now cid _ _ ts) by (apply broadcastToClients_cf; exact Hf2).
    now rewrite (broadcastToClients_vapi _ _ _ Hv2). }
  split; [|exact Hv3].
  destruct Hf3 as (H1 & H2 & H3). split; [exact H1|]. split; [exact H2|].
  unfold batchTimers in *. simpl. rewrite filter_app, H3.
  rewrite filter_cons_True; [reflexivity|].
  simpl. apply String.eqb_refl.
Qed.

(** *** The batch loop *)

Lemma list_find_filter_nil {A} (P : A -> Prop) `{forall x, Decision (P x)} (l : list A) :
  filter P l = [] -> list_find P l = None.
Proof.
  intros Hf. apply list_find_None. apply Forall_forall. intros x Hx Hp.
  assert (Hin : x ∈ filter P l) by (apply list_elem_of_filter; auto).
  rewrite Hf in Hin. inversion Hin.
Qed.

Lemma list_find_filter_singleton {A} (P : A -> Prop) `{forall x, Decision (P x)}
    (l : list A) (x : A) :
  filter P l = [x] ->
  exists i, list_find P l = Some (i, x) /\ filter P (delete i l) = [].
Proof.
  induction l as [|y l IH]; intros Hf; [discriminate|].
  destruct (decide (P y)) as [Hy|Hy].
  - rewrite filter_cons_True in Hf by exact Hy. injection Hf as -> Hf.
    exists 0. split; [|exact Hf].
    cbn. rewrite decide_True by exact Hy. reflexivity.
  - rewrite filter_cons_False in Hf by exact Hy.
    destruct (IH Hf) as (i & Hi & Hd). exists (S i). split.
    + cbn. rewrite decide_False by exact Hy. rewrite Hi. reflexivity.
    + change (delete (S i) (y :: l)) with (y :: delete i l).
      rewrite filter_cons_False by exact Hy. exact Hd.
Qed.

Lemma drain_idle env fuel now cid w :
  batchTimers cid w = [] -> drain env fuel now cid w = ([], w).
Proof.
  intros Hts. destruct fuel; [reflexivity|]. simpl.
  unfold bind at 1, gets at 1.
  unfold batchTimers in Hts. now rewrite (list_find_filter_nil _ _ Hts).
Qed.

Lemma chunks_nil fuel m : chunks fuel m [] = [].
Proof. destruct fuel; reflexivity. Qed.

Lemma drain_idle_eval env fuel now cid w :
  batchTimers cid w = [] -> eval (drain env fuel now cid) w = [].
Proof. intros H. unfold eval. now rewrite drain_idle. Qed.

Lemma drain_idle_exec env fuel now cid w :
  batchTimers cid w = [] -> exec (drain env fuel now cid) w = w.
Proof. intros H. unfold exec. now rewrite drain_idle. Qed.

Lemma drain_spec env now cid (m : nat) d :
  0 < m ->
  forall fuel q w dd,
    campaign_frame cid q [(dd, TProcessBatch cid (VNum (Z.of_nat m)) d)] w ->
    length q <= fuel * m ->
    exists css,
      eval (drain env (S fuel) now cid) w = (Dispatched <$> css) ++ [Completed]
      /\ (fun calls : list (obj * bool) => calls.*1) <$> css = chunks fuel m q
      /\ vapiRequests (exec (drain env (S fuel) now cid) w)
         = vapiRequests w ++ dispatchRequests cid q.
Proof.
  intros Hm. induction fuel as [|fuel IH]; intros q w dd Hf Hlen.
  - (* the queue is empty: this round completes the campaign *)
    destruct q; [|simpl in Hlen; lia].
    pose proof Hf as (Ha & Hq & Hts). unfold batchTimers in Hts.
    destruct (list_find_filter_singleton _ _ _ Hts) as (i & Hi & Hd).
    simpl. st_simp. rewrite Hi. st_simp.
    assert (Hf1 : campaign_frame cid [] [] (with_timers (delete i) w)).
    { repeat split; auto. }
    destruct (processBatch_completed env now cid (VNum (Z.of_nat m)) d [] _ Hf1)
      as (E & _ & Ev).
    rewrite E, Ev. exists []. split; [reflexivity|]. split; [reflexivity|].
    simpl. now rewrite app_nil_r.
  - pose proof Hf as (Ha & Hq & Hts). unfold batchTimers in Hts.
    destruct (list_find_filter_singleton _ _ _ Hts) as (i & Hi & Hd).
    change (drain env (S (S fuel)) now cid)
      with (let* pending := gets (fun w => list_find (fun t => is_process_batch cid t = true) (timers w)) in
            match pending with
            | Some (i, (_, TProcessBatch c m d)) =>
                modify (with_timers (delete i)) >>
                let* r := processBatch env now c m d in
                let* rs := drain env (S fuel) now cid in
                ret (r :: rs)
            | _ => ret []
            end).
    st_simp. rewrite Hi. st_simp.
    assert (Hf1 : campaign_frame cid q [] (with_timers (delete i) w)).
    { repeat split; auto. }
    destruct q as [|c0 q0].
    + destruct (processBatch_completed env now cid (VNum (Z.of_nat m)) d [] _ Hf1)
        as (E & Ets & Ev).
      rewrite E. rewrite (drain_idle_eval env (S fuel) now cid _ Ets).
      rewrite (drain_idle_exec env (S fuel) now cid _ Ets). rewrite Ev.
      exists []. split; [reflexivity|]. split; [reflexivity|].
      simpl. now rewrite app_nil_r.
    + destruct (processBatch_dispatched env now cid m d (c0 :: q0) [] _ Hf1)
        as (calls & E & Efst & Hf2 & Ev); [discriminate|exact Hm|].
      rewrite E.
      destruct (IH (drop m (c0 :: q0)) _ _ Hf2) as (css & Ed & Ech & Evd).
      { rewrite length_drop. simpl in *. lia. }
      rewrite Ed, Evd, Ev. exists (calls :: css). split; [reflexivity|]. split.
      * change (chunks (S fuel) m (c0 :: q0))
          with (take m (c0 :: q0) :: chunks fuel m (drop m (c0 :: q0))).
        rewrite fmap_cons, Efst, Ech. reflexivity.
      * rewrite <- app_assoc, dispatchRequests_take_drop. reflexivity.
Qed.

Lemma updateCampaign_keeps_active cid q ts w :
  campaign_frame cid q ts w ->
  campaign_frame cid q ts (exec (updateCampaign cid {[ "status" := VStr "active" ]}) w)
  /\ vapiRequests (exec (updateCampaign cid {[ "status" := VStr "active" ]}) w)
     = vapiRequests w.
Proof.
  intros (Hr & Hq & Hts). split; [|now apply updateCampaign_vapi].
  split; [apply updateCampaign_ready; auto|].
  pose proof Hr as (c & Hc & _).
  unfold updateCampaign, getCampaign. st_simp. rewrite Hc. st_simp.
  rewrite saveCampaign_run. auto.
Qed.

(** A whole run: the batches are the queue cut into pieces of [m], and the
    provider is sent the request of every contact of the queue, in order. *)
Lemma runCampaign_spec env now cid (m : nat) c n q w fuel :
  campaigns (store w) !! cid = Some c ->
  get c "status" = VStr "active" ->
  get c "maxConcurrent" = VNum (Z.of_nat m) ->
  field (get c "stats") "inProgress" = VNum n ->
  queueOf cid w = q -> batchTimers cid w = [] ->
  0 < m -> q <> [] -> length q <= S fuel * m ->
  exists css,
    eval (runCampaign env (S fuel) now cid) w = (Dispatched <$> css) ++ [Completed]
    /\ (fun calls : list (obj * bool) => calls.*1) <$> css = chunks (S fuel) m q
    /\ vapiRequests (exec (runCampaign env (S fuel) now cid) w)
       = vapiRequests w ++ dispatchRequests cid q.
Proof.
  intros Hc Hst Hmax Hn Hq Hts Hm Hne Hlen.
  assert (Hf : campaign_frame cid q [] w).
  { split; [|split]; auto. exists c. eauto. }
  unfold runCampaign, executeCampaign, getCampaign. st_simp.
  rewrite Hc, Hst. cbn [strict_eq negb]. rewrite String.eqb_refl. cbn [negb]. st_simp.
  rewrite Hmax.
  destruct (updateCampaign_keeps_active cid q [] w Hf) as [Hf1 Hv1].
  destruct (processBatch_dispatched env now cid m (get c "callDelay") q [] _ Hf1 Hne Hm)
    as (calls & E & Efst & Hf2 & Ev).
  rewrite E. st_simp.
  destruct q as [|c0 q0]; [contradiction|].
  destruct (drain_spec env now cid m (get c "callDelay") Hm fuel _ _ _ Hf2)
    as (css & Ed & Ech & Evd).
  { rewrite length_drop. simpl in *. lia. }
  rewrite Ed, Evd, Ev, Hv1. exists (calls :: css). split; [reflexivity|]. split.
  - change (chunks (S fuel) m (c0 :: q0))
      with (take m (c0 :: q0) :: chunks fuel m (drop m (c0 :: q0))).
    rewrite fmap_cons, Efst, Ech. reflexivity.
  - rewrite <- app_assoc, dispatchRequests_take_drop. reflexivity.
Qed.

Lemma dispatchRequests_length cid (q : list obj) :
  Forall (fun contact : obj => is_Some (formatToE164 (get contact "phone_number"))) q ->
  length (dispatchRequests cid q) = length q.
Proof.
  induction 1 as [|contact q [p Hp] _ IH]; [reflexivity|].
  unfold dispatchRequests in *. cbn [omap list_omap]. unfold dispatchRequest at 1.
  rewrite Hp. simpl. now rewrite IH.
Qed.

(** C7.  A campaign that is stored as active with [maxConcurrent = 3], a
    number of calls in progress in its statistics and ten queued contacts
    runs, with any fuel from 4 on, exactly four batches and then completes;
    the batches hold the queue in order, in sizes 3, 3, 3 and 1.  The run
    sends the voice provider the request of every contact of the queue, in
    the order of the queue, and nothing else: ten requests when every
    number is one [formatToE164] accepts, whatever the provider answers to
    each of them.  In any batch, on a campaign that is ready, every contact
    gets its [makeCall] and its request, whether earlier ones failed or not.
    A [processBatch] that finds the campaign missing or in any status but
    'active' halts and changes nothing. *)
Theorem ten_contacts_four_batches (env : Env) (now : Z) (cid : string) (w : World)
    (c : obj) (n : Z) (fuel : nat) :
  campaigns (store w) !! cid = Some c ->
  get c "status" = VStr "active" ->
  get c "maxConcurrent" = VNum 3 ->
  field (get c "stats") "inProgress" = VNum n ->
  length (queueOf cid w) = 10 ->
  batchTimers cid w = [] ->
  4 <= fuel ->
  let w' := exec (runCampaign env fuel now cid) w in
  (exists b1 b2 b3 b4,
      eval (runCampaign env fuel now cid) w
        = [Dispatched b1; Dispatched b2; Dispatched b3; Dispatched b4; Completed]
      /\ b1.*1 ++ b2.*1 ++ b3.*1 ++ b4.*1 = queueOf cid w
      /\ length b1 = 3 /\ length b2 = 3 /\ length b3 = 3 /\ length b4 = 1
      /\ length b1 + length b2 + length b3 + length b4 = 10)
  /\ vapiRequests w' = vapiRequests w ++ dispatchRequests cid (queueOf cid w)
  /\ (Forall (fun contact : obj => is_Some (formatToE164 (get contact "phone_number")))
        (queueOf cid w) ->
      length (vapiRequests w') = length (vapiRequests w) + 10)
  /\ (forall batch w0,
        (eval (makeCalls env now cid batch) w0).*1 = batch
        /\ (campaign_ready cid w0 ->
            vapiRequests (exec (makeCalls env now cid batch) w0)
            = vapiRequests w0 ++ dispatchRequests cid batch))
  /\ (forall w0 m0 d0,
        (forall c0, campaigns (store w0) !! cid = Some c0 ->
           strict_eq (get c0 "status") (VStr "active") = false) ->
        processBatch env now cid m0 d0 w0 = (Halted, w0)).
Proof.
  intros Hc Hst Hmax Hn Hlen Hts Hfuel w'. subst w'.
  assert (Hrun : exists css,
            eval (runCampaign env fuel now cid) w = (Dispatched <$> css) ++ [Completed]
            /\ (fun calls : list (obj * bool) => calls.*1) <$> css
               = chunks fuel 3 (queueOf cid w)
            /\ vapiRequests (exec (runCampaign env fuel now cid) w)
               = vapiRequests w ++ dispatchRequests cid (queueOf cid w)).
  { destruct fuel as [|fuel]; [lia|].
    apply (runCampaign_spec env now cid 3 c n); auto; try lia.
    intros Hq. rewrite Hq in Hlen. discriminate. }
  destruct Hrun as (css & E & Ech & Ev).
  split; [|split; [exact Ev|split; [|split]]].
  - destruct fuel as [|[|[|[|fuel]]]]; try lia.
    rewrite E. clear E Ev.
    destruct (queueOf cid w)
      as [|x1 [|x2 [|x3 [|x4 [|x5 [|x6 [|x7 [|x8 [|x9 [|x10 [|]]]]]]]]]]];
      try discriminate.
    cbn [chunks take drop] in Ech. rewrite chunks_nil in Ech.
    destruct css as [|b1 [|b2 [|b3 [|b4 [|]]]]]; try discriminate.
    cbn [fmap list_fmap] in Ech. injection Ech as E1 E2 E3 E4.
    exists b1, b2, b3, b4.
    split; [reflexivity|]. rewrite E1, E2, E3, E4.
    split; [reflexivity|].
    assert (L : forall (b : list (obj * bool)) l, b.*1 = l -> length b = length l).
    { intros b l <-. now rewrite length_fmap. }
    rewrite (L _ _ E1), (L _ _ E2), (L _ _ E3), (L _ _ E4). auto.
  - intros Hvalid. rewrite Ev, length_app, (dispatchRequests_length _ _ Hvalid), Hlen.
    reflexivity.
  - intros batch w0. split; [apply makeCalls_fst|].
    intros Hr.
    apply (makeCalls_requests env now cid batch (queueOf cid w0) (batchTimers cid w0)).
    split; [exact Hr|]. split; reflexivity.
  - intros. now apply processBatch_halted.
Qed.

Lemma ten_contacts_four_batches_witness :
  (exists b1 b2 b3 b4,
     eval (runCampaign env0 4 0 "k1") w_campaign
       = [Dispatched b1; Dispatched b2; Dispatched b3; Dispatched b4; Completed]
     /\ b1.*1 ++ b2.*1 ++ b3.*1 ++ b4.*1 = queueOf "k1" w_campaign
     /\ length b1 = 3 /\ length b2 = 3 /\ length b3 = 3 /\ length b4 = 1
     /\ length b1 + length b2 + length b3 + length b4 = 10)
  /\ vapiRequests (exec (runCampaign env0 4 0 "k1") w_campaign)
     = vapiRequests w_campaign ++ dispatchRequests "k1" (queueOf "k1" w_campaign).
Proof.
  assert (H := ten_contacts_four_batches env0 0 "k1" w_campaign
                 (default ∅ (campaigns (store w_campaign) !! "k1")) 0 4).
  destruct H as (H1 & H2 & _).
  - vm_compute. reflexivity.
  - vm_compute. reflexivity.
  - vm_compute. reflexivity.
  - vm_compute. reflexivity.
  - vm_compute. reflexivity.
  - vm_compute. reflexivity.
  - exact (le_n 4).
  - split; [exact H1|exact H2].
Defined.

(** *** Starting a campaign (C6) *)

Arguments startCampaign : simpl never.

Lemma saveCampaignQueue_run cid contacts w :
  queueOf cid (exec (saveCampaignQueue cid contacts) w) = json <$> contacts
  /\ campaigns (store (exec (saveCampaignQueue cid contacts) w)) = campaigns (store w)
  /\ timers (exec (saveCampaignQueue cid contacts) w) = timers w.
Proof.
  unfold saveCampaignQueue, queueOf. st_simp.
  destruct contacts as [|c cs]; simpl.
  - rewrite lookup_delete_eq. auto.
  - rewrite lookup_insert_eq. auto.
Qed.

Lemma saveCampaign_vapi cid c x :
  preserves (fun w => vapiRequests w = x) (saveCampaign cid c).
Proof. unfold saveCampaign. pres_tac vapi_fin. Qed.
Lemma saveCampaignQueue_vapi cid q x :
  preserves (fun w => vapiRequests w = x) (saveCampaignQueue cid q).
Proof. unfold saveCampaignQueue. pres_tac vapi_fin. Qed.
#[export] Hint Resolve saveCampaign_vapi saveCampaignQueue_vapi : frames.

(** When the timer of a deferred start fires, [executeCampaign] returns at
    its first test as long as the stored status is not 'active': a record
    left 'scheduled' is not drained by it. *)
Lemma executeCampaign_not_active env now id c w :
  campaigns (store w) !! id = Some c ->
  strict_eq (get c "status") (VStr "active") = false ->
  fire env now (TExecuteCampaign id) w = (tt, w).
Proof.
  intros Hc Hs. unfold fire, executeCampaign, getCampaign.
  unfold bind, gets. simpl. rewrite Hc, Hs. reflexivity.
Qed.



(** ** Transcript events (C4) *)

Ltac heap_fin := unfold heap in *; simpl in *; assumption.

Lemma emitToListeners_heap callId e x :
  preserves (fun w => heap w = x) (emitToListeners callId e).
Proof. unfold emitToListeners. pres_tac heap_fin. Qed.
Lemma handleAudioStreamRetry_heap now callId url n reason x :
  preserves (fun w => heap w = x) (handleAudioStreamRetry now callId url n reason).
Proof.
  pose proof emitToListeners_heap.
  unfold handleAudioStreamRetry, setTimeout. pres_tac heap_fin.
Qed.
Lemma setupAudioStreamWithRetry_heap env now callId url n x :
  preserves (fun w => heap w = x) (setupAudioStreamWithRetry env now callId url n).
Proof.
  pose proof emitToListeners_heap. pose proof handleAudioStreamRetry_heap.
  unfold setupAudioStreamWithRetry, setTimeout. pres_tac heap_fin.
Qed.
Lemma recordStatusChange_heap now callId lc updates w cc h :
  objs (mon w) !! lc = Some cc ->
  get cc "statusHistory" = VArr h ->
  let w' := exec (recordStatusChange now callId lc updates) w in
  objs (mon w') = objs (mon w)
  /\ activeCalls (mon w') = activeCalls (mon w)
  /\ (forall a0, a0 <> h -> arrs (mon w') !! a0 = arrs (mon w) !! a0)
  /\ (is_Some (arrs (mon w) !! h) -> is_Some (arrs (mon w') !! h)).
Proof.
  intros Hc Hh w'. subst w'.
  unfold recordStatusChange, read_obj. st_simp. rewrite Hc. simpl.
  destruct (_ && _).
  - rewrite Hh. simpl. st_simp. rewrite Hc. simpl. rewrite Hh.
    unfold push. st_simp. simpl.
    repeat split; try reflexivity.
    + intros a0 Ha. now rewrite lookup_alter_ne.
    + intros [T HT]. rewrite lookup_alter_eq, HT. simpl. eauto.
  - st_simp. repeat split; auto.
Qed.

Lemma storeUpdatedCall_heap env now callId l updates w :
  let w' := exec (storeUpdatedCall env now callId l updates) w in
  let l' := fresh (dom (objs (mon w))) in
  objs (mon w') = <[l' := <["updatedAt" := VDate now]> (updates ∪ default ∅ (objs (mon w) !! l))]> (objs (mon w))
  /\ activeCalls (mon w') = <[callId := l']> (activeCalls (mon w))
  /\ arrs (mon w') = arrs (mon w).
Proof.
  intros w' l'. subst w'.
  unfold storeUpdatedCall.
  repeat rewrite exec_bind.
  match goal with
  | |- context [exec (if ?b then ?m else ret tt) ?w0] =>
      assert (E : heap (exec (if b then m else ret tt) w0) = heap w0)
  end.
  { destruct (_ && _); [|reflexivity].
    now apply setupAudioStreamWithRetry_heap. }
  unfold heap in E. injection E as E1 E2 E3. rewrite E1, E2, E3. clear E1 E2 E3.
  unfold alloc_obj, read_obj. st_simp. simpl. auto.
Qed.
Lemma updateCall_heap env now callId updates w lc cc h :
  activeCalls (mon w) !! callId = Some lc ->
  objs (mon w) !! lc = Some cc ->
  get cc "statusHistory" = VArr h ->
  let w' := exec (updateCall env now callId updates) w in
  let l' := fresh (dom (objs (mon w))) in
  objs (mon w') = <[l' := <["updatedAt" := VDate now]> (updates ∪ cc)]> (objs (mon w))
  /\ activeCalls (mon w') = <[callId := l']> (activeCalls (mon w))
  /\ (forall a0, a0 <> h -> arrs (mon w') !! a0 = arrs (mon w) !! a0)
  /\ (is_Some (arrs (mon w) !! h) -> is_Some (arrs (mon w') !! h)).
Proof.
  intros Hl Hc Hh w' l'. subst w' l'.
  rewrite (updateCall_registered _ _ _ _ _ _ Hl).
  destruct (recordStatusChange_heap now callId lc updates w cc h Hc Hh) as (R1 & R2 & R3 & R4).
  destruct (storeUpdatedCall_heap env now callId lc updates
              (exec (recordStatusChange now callId lc updates) w)) as (S1 & S2 & S3).
  rewrite S1, S2, S3, R1, R2, Hc. simpl. auto.
Qed.

Lemma fresh_objs_ne (w : World) l c :
  objs (mon w) !! l = Some c -> fresh (dom (objs (mon w))) <> l.
Proof.
  intros H E. apply (is_fresh (dom (objs (mon w)))). rewrite E.
  apply elem_of_dom. eauto.
Qed.

Lemma fresh_arrs_ne (w : World) a :
  is_Some (arrs (mon w) !! a) -> fresh (dom (arrs (mon w))) <> a.
Proof.
  intros H E. apply (is_fresh (dom (arrs (mon w)))). rewrite E.
  now apply elem_of_dom.
Qed.

(** After [updateCall] the handler still holds what it held. *)
Lemma updateCall_holds env now callId updates l c a T h w :
  updates !! "statusHistory" = None ->
  h <> a ->
  holds_call callId l c a T h w ->
  holds_call callId l c a T h (exec (updateCall env now callId updates) w).
Proof.
  intros Hu Hne (Hc & HT & Hh & lc & cc & Hl & Hcc & Hsh).
  destruct (updateCall_heap env now callId updates w lc cc h Hl Hcc Hsh) as (U1 & U2 & U3 & U4).
  unfold holds_call. rewrite U1, U2.
  split; [|split; [|split]].
  - rewrite lookup_insert_ne; [exact Hc|]. eapply fresh_objs_ne; eauto.
  - rewrite U3; auto.
  - auto.
  - eexists _, _. rewrite !lookup_insert_eq. split; [reflexivity|]. split; [reflexivity|].
    rewrite get_insert_ne by discriminate.
    now rewrite (get_union_r _ _ _ Hu).
Qed.

Lemma holds_call_mon callId l c a T h w w' :
  mon w' = mon w -> holds_call callId l c a T h w -> holds_call callId l c a T h w'.
Proof. unfold holds_call. now intros ->. Qed.

Lemma has_transcript_mon callId T w w' :
  mon w' = mon w -> has_transcript callId T w -> has_transcript callId T w'.
Proof. unfold has_transcript. now intros ->. Qed.

Lemma last100_short (xs : list val) : length xs <= 100 -> last100 xs = xs.
Proof. intros H. unfold last100. now replace (length xs - 100) with 0 by lia. Qed.

Lemma get_lookup (o : obj) k v : get o k = v -> v <> VUndef -> o !! k = Some v.
Proof.
  unfold get. destruct (o !! k); simpl; intros -> H; [reflexivity|contradiction].
Qed.

(** [updateCall(id, callData)] with a held object: the registry ends on an
    object with the transcript and status history of [callData]. *)
Lemma updateCall_has_transcript env now callId c a T h w lc cc :
  activeCalls (mon w) !! callId = Some lc ->
  objs (mon w) !! lc = Some cc ->
  get cc "statusHistory" = VArr h ->
  is_Some (arrs (mon w) !! h) ->
  get c "transcript" = VArr a ->
  get c "statusHistory" = VArr h ->
  h <> a ->
  arrs (mon w) !! a = Some T ->
  has_transcript callId T (exec (updateCall env now callId c) w).
Proof.
  intros Hl Hcc Hcch Hh Ha Hsh Hne HT.
  destruct (updateCall_heap env now callId c w lc cc h Hl Hcc Hcch) as (U1 & U2 & U3 & U4).
  exists (fresh (dom (objs (mon w)))), (<["updatedAt" := VDate now]> (c ∪ cc)), a, h.
  rewrite U1, U2, !lookup_insert_eq.
  rewrite !get_insert_ne by discriminate.
  rewrite (get_union_l _ _ _ _ (get_lookup _ _ _ Ha ltac:(discriminate))).
  rewrite (get_union_l _ _ _ _ (get_lookup _ _ _ Hsh ltac:(discriminate))).
  rewrite U3 by congruence.
  repeat split; auto.
Qed.

(** The tail of the transcript handlers: the registry ends on an object
    whose transcript is the held one, cut to 100 lines. *)
Lemma capAndStore_has_transcript env now callId l c a T h w :
  get c "transcript" = VArr a ->
  get c "statusHistory" = VArr h ->
  h <> a ->
  holds_call callId l c a T h w ->
  has_transcript callId (last100 T) (exec (capAndStore env now callId l) w).
Proof.
  intros Ha Hsh Hne (Hc & HT & Hh & lc & cc & Hl & Hcc & Hcch).
  unfold capAndStore, read_obj. st_simp. rewrite Hc. simpl.
  unfold arr_of. rewrite Ha, HT.
  destruct (100 <? length T) eqn:E.
  - apply Nat.ltb_lt in E.
    unfold alloc_arr, set_field. st_simp. simpl.
    set (a2 := fresh (dom (arrs (mon w)))).
    assert (Ha2 : a2 <> h) by (now apply fresh_arrs_ne).
    rewrite lookup_alter_eq, Hc. simpl.
    destruct (decide (lc = l)) as [->|Hlc].
    + eapply (updateCall_has_transcript _ _ _ _ a2 _ h _ l).
      * exact Hl.
      * simpl. rewrite lookup_alter_eq, Hc. reflexivity.
      * rewrite get_insert_ne by discriminate. exact Hsh.
      * simpl. rewrite lookup_insert_ne by exact Ha2. exact Hh.
      * apply get_insert_eq.
      * rewrite get_insert_ne by discriminate. exact Hsh.
      * congruence.
      * simpl. apply lookup_insert_eq.
    + eapply (updateCall_has_transcript _ _ _ _ a2 _ h _ lc cc).
      * exact Hl.
      * simpl. rewrite lookup_alter_ne by congruence. exact Hcc.
      * exact Hcch.
      * simpl. rewrite lookup_insert_ne by exact Ha2. exact Hh.
      * apply get_insert_eq.
      * rewrite get_insert_ne by discriminate. exact Hsh.
      * congruence.
      * simpl. apply lookup_insert_eq.
  - apply Nat.ltb_ge in E. st_simp. rewrite Hc. simpl.
    rewrite last100_short by exact E.
    eapply updateCall_has_transcript; eauto.
Qed.
Arguments transcriptEntry : simpl never.

Lemma holds_call_arr callId l c a T h w f :
  h <> a ->
  holds_call callId l c a T h w ->
  holds_call callId l c a (f T) h (with_mon (with_arrs (alter f a)) w).
Proof.
  intros Hne (Hc & HT & Hh & Hreg). unfold holds_call. simpl.
  rewrite lookup_alter_eq, HT, lookup_alter_ne by congruence. auto.
Qed.

Lemma has_transcript_holds callId T w :
  has_transcript callId T w ->
  exists l c a h,
    activeCalls (mon w) !! callId = Some l
    /\ get c "transcript" = VArr a /\ get c "statusHistory" = VArr h /\ h <> a
    /\ holds_call callId l c a T h w.
Proof.
  intros (l & c & a & h & Hl & Hc & Ha & HT & Hsh & Hne & Hh).
  exists l, c, a, h. unfold holds_call. eauto 12.
Qed.

Lemma field_entry_speaker now ev :
  field (transcriptEntry now ev) "speaker" = speakerOf (field ev "role").
Proof. reflexivity. Qed.

Lemma field_entry_type now ev :
  field (transcriptEntry now ev) "transcriptType" = field ev "transcriptType".
Proof. reflexivity. Qed.

Lemma handleTranscriptEvent_has_transcript env now ev w T :
  no_call (field ev "call") = false ->
  has_transcript (call_key (field ev "call")) T w ->
  has_transcript (call_key (field ev "call")) (withEntry T (transcriptEntry now ev))
    (exec (handleTranscriptEvent env now ev) w).
Proof.
  intros Hcall H.
  destruct (has_transcript_holds _ _ _ H) as (l & c & a & h & Hl & Ha & Hsh & Hne & Hold).
  unfold handleTranscriptEvent. rewrite Hcall.
  unfold getCall. st_simp. rewrite Hl.
  set (callId := call_key (field ev "call")) in *.
  unfold read_obj. st_simp.
  pose proof Hold as (Hc & _).
  rewrite Hc. change (default ∅ (Some c)) with c.
  match goal with
  | |- context [exec (if ?b then ?m else ret tt) w] =>
      set (w1 := exec (if b then m else ret tt) w)
  end.
  assert (H1 : holds_call callId l c a T h w1).
  { subst w1. destruct (_ && _); [|exact Hold].
    rewrite exec_bind.
    eapply holds_call_mon; [now apply universalBroadcast_mon|].
    apply updateCall_holds; [reflexivity|exact Hne|exact Hold]. }
  pose proof H1 as (Hc1 & HT1 & _).
  rewrite !Hc1.
  change (default ∅ (Some c)) with c.
  rewrite Ha.
  change (truthy (VArr a)) with true.
  cbn [negb].
  st_simp.
  rewrite ?Hc1.
  change (default ∅ (Some c)) with c.
  unfold arr_of. 
  rewrite Ha, HT1.
  change (default [] (Some T)) with T.
  eapply has_transcript_mon; [now apply broadcastToClients_mon|].
  unfold withEntry.
  apply (capAndStore_has_transcript env now callId l c a _ h); auto.
  unfold replacesLast, isPartial.
  rewrite field_entry_type, field_entry_speaker.
  destruct (strict_eq (field ev "transcriptType") (VStr "partial")); cbn [andb].
  - destruct (last T) as [x|].
    + destruct (strict_eq (field x "speaker") _ && _).
      * rewrite exec_modify.
        now apply (holds_call_arr _ _ _ _ _ _ _ (fun ys => <[length ys - 1 := transcriptEntry now ev]> ys)).
      * unfold push. st_simp.
        now apply (holds_call_arr _ _ _ _ _ _ _ (fun ys => ys ++ [transcriptEntry now ev])).
    + unfold push. st_simp.
      now apply (holds_call_arr _ _ _ _ _ _ _ (fun ys => ys ++ [transcriptEntry now ev])).
  - unfold push. st_simp.
    now apply (holds_call_arr _ _ _ _ _ _ _ (fun ys => ys ++ [transcriptEntry now ev])).
Qed.
Lemma has_transcript_transcriptOf callId T w :
  has_transcript callId T w -> transcriptOf w callId = Some T.
Proof.
  intros (l & c & a & h & Hl & Hc & Ha & HT & _).
  unfold transcriptOf, callObject. rewrite Hl, Hc. unfold arr_of. now rewrite Ha.
Qed.

(** *** Transcript events leave the campaign store alone *)

Ltac store_kept := simpl in *; assumption.

Lemma emitToListeners_store callId e x :
  preserves (fun w => store w = x) (emitToListeners callId e).
Proof. unfold emitToListeners. pres_tac store_kept. Qed.
Lemma handleAudioStreamRetry_store now callId url n reason x :
  preserves (fun w => store w = x) (handleAudioStreamRetry now callId url n reason).
Proof.
  pose proof emitToListeners_store.
  unfold handleAudioStreamRetry, setTimeout. pres_tac store_kept.
Qed.
Lemma setupAudioStreamWithRetry_store env now callId url n x :
  preserves (fun w => store w = x) (setupAudioStreamWithRetry env now callId url n).
Proof.
  pose proof emitToListeners_store. pose proof handleAudioStreamRetry_store.
  unfold setupAudioStreamWithRetry, setTimeout. pres_tac store_kept.
Qed.
Lemma updateCall_store env now callId updates x :
  preserves (fun w => store w = x) (updateCall env now callId updates).
Proof.
  pose proof setupAudioStreamWithRetry_store.
  unfold updateCall, recordStatusChange, storeUpdatedCall, getCall, read_obj,
    alloc_arr, alloc_obj, set_field, push.
  pres_tac store_kept.
Qed.
Lemma handleTranscriptEvent_store env now ev x :
  preserves (fun w => store w = x) (handleTranscriptEvent env now ev).
Proof.
  pose proof updateCall_store.
  unfold handleTranscriptEvent, capAndStore, universalBroadcast, broadcastToClients,
    sendRealtimeUpdate, getCall, read_obj, alloc_arr, set_field, push.
  pres_tac store_kept.
Qed.

(** *** Lists of transcript lines *)

Lemma last100_snoc (P : list val) e :
  last100 (P ++ [e]) = drop (length P + 1 - 100) P ++ [e].
Proof.
  unfold last100. rewrite length_app. simpl. now rewrite drop_app_le by lia.
Qed.

Lemma replace_last_snoc (P : list val) e e' :
  <[length (P ++ [e]) - 1 := e']> (P ++ [e]) = P ++ [e'].
Proof.
  rewrite length_app. simpl.
  replace (length P + 1 - 1) with (length P + 0) by lia.
  now rewrite insert_app_r.
Qed.

(** Both ways of adding an entry leave it last, on the same lines before. *)
Lemma entry_is_last (T : list val) e1 e2 :
  replacesLast T e1 = replacesLast T e2 ->
  exists P,
    (if replacesLast T e1 then <[length T - 1 := e1]> T else T ++ [e1]) = P ++ [e1]
    /\ (if replacesLast T e2 then <[length T - 1 := e2]> T else T ++ [e2]) = P ++ [e2].
Proof.
  intros E. rewrite E.
  destruct (replacesLast T e2) eqn:R.
  - unfold replacesLast in R. apply andb_true_iff in R as [_ R].
    destruct (last T) as [x|] eqn:L; [|discriminate].
    apply last_Some in L as [P ->].
    exists P. now rewrite !replace_last_snoc.
  - now exists T.
Qed.

Lemma speakerOf_refl role : strict_eq (speakerOf role) (speakerOf role) = true.
Proof. unfold speakerOf. now destruct (strict_eq role (VStr "assistant")). Qed.

(** A partial entry delivered after a partial of the same speaker leaves the
    transcript as if it alone had been delivered. *)
Lemma withEntry_partial_again (T : list val) e1 e2 :
  isPartial e1 = true -> isPartial e2 = true ->
  field e1 "speaker" = field e2 "speaker" ->
  strict_eq (field e2 "speaker") (field e2 "speaker") = true ->
  withEntry (withEntry T e1) e2 = withEntry T e2.
Proof.
  intros P1 P2 S Srefl.
  assert (R : replacesLast T e1 = replacesLast T e2).
  { unfold replacesLast. now rewrite P1, P2, S. }
  destruct (entry_is_last T e1 e2 R) as (P & E1 & E2).
  unfold withEntry at 2 3. rewrite E1, E2, !last100_snoc.
  set (D := drop (length P + 1 - 100) P).
  assert (HD : length D <= 99) by (subst D; rewrite length_drop; lia).
  unfold withEntry, replacesLast.
  rewrite last_snoc, P1, P2, S, Srefl. simpl.
  rewrite replace_last_snoc.
  apply last100_short. rewrite length_app. simpl. lia.
Qed.
(** C4 as the code has it.  For a registered call whose transcript holds
    [T], a transcript event leaves the transcript at [withEntry T e], where
    [e] is the entry built from the event: a partial entry takes the place
    of a last line that is a partial of the same speaker, any other entry is
    appended, and the last 100 lines are kept.  Hence
    - a partial event delivered a second time replaces the line of its
      first delivery: the transcript is the one a single delivery at the
      second instant gives;
    - a final event is appended at every delivery: delivered twice, its
      line is there twice;
    - transcript events leave the campaign store, and so the campaign
      statistics, as they were. *)
Theorem transcript_delivery (env : Env) (now now' : Z) (ev : val) (w : World)
    (T : list val) :
  no_call (field ev "call") = false ->
  has_transcript (call_key (field ev "call")) T w ->
  let callId := call_key (field ev "call") in
  let once := exec (handleTranscriptEvent env now ev) w in
  let twice := exec (handleTranscriptEvent env now' ev) once in
  transcriptOf once callId = Some (withEntry T (transcriptEntry now ev))
  /\ (isPartial ev = true ->
      transcriptOf twice callId = Some (withEntry T (transcriptEntry now' ev)))
  /\ (isPartial ev = false ->
      transcriptOf once callId = Some (last100 (T ++ [transcriptEntry now ev]))
      /\ transcriptOf twice callId
         = Some (last100 (last100 (T ++ [transcriptEntry now ev])
                          ++ [transcriptEntry now' ev])))
  /\ store twice = store w.
Proof.
  intros Hcall H callId once twice.
  pose proof (handleTranscriptEvent_has_transcript env now ev w T Hcall H) as H1.
  pose proof (handleTranscriptEvent_has_transcript env now' ev _ _ Hcall H1) as H2.
  apply has_transcript_transcriptOf in H1, H2.
  fold callId once in H1. fold callId once twice in H2.
  split; [exact H1|]. split; [|split].
  - intros P. rewrite H2. f_equal.
    apply withEntry_partial_again; try exact P.
    + reflexivity.
    + apply speakerOf_refl.
  - intros P. rewrite H1, H2.
    unfold withEntry, replacesLast.
    change (isPartial (transcriptEntry now ev)) with (isPartial ev).
    change (isPartial (transcriptEntry now' ev)) with (isPartial ev).
    rewrite P. simpl. auto.
  - subst twice once.
    rewrite (handleTranscriptEvent_store env now' ev (store w)); [reflexivity|].
    now apply handleTranscriptEvent_store.
Qed.

Lemma transcript_delivery_witness :
  transcriptOf (exec (handleTranscriptEvent env0 3000 hello_partial) w_in_progress) "c1"
    = Some (withEntry [] (transcriptEntry 3000 hello_partial))
  /\ transcriptOf (exec (handleTranscriptEvent env0 4000 hello_partial)
                     (exec (handleTranscriptEvent env0 3000 hello_partial) w_in_progress)) "c1"
     = Some (withEntry [] (transcriptEntry 4000 hello_partial)).
Proof.
  assert (Hcall : no_call (field hello_partial "call") = false) by reflexivity.
  assert (H : has_transcript (call_key (field hello_partial "call")) [] w_in_progress).
  { exists 3%positive, (default ∅ (objs (mon w_in_progress) !! 3%positive)), 1%positive, 3%positive.
    repeat split; try (vm_compute; reflexivity).
    - discriminate.
    - exists (default [] (arrs (mon w_in_progress) !! 3%positive)).
      vm_compute. reflexivity. }
  pose proof (transcript_delivery env0 3000 4000 hello_partial w_in_progress [] Hcall H)
    as (H1 & H2 & _).
  split; [exact H1|]. apply H2. reflexivity.
Defined.

(** The claim as the specification words it fails: the same final
    transcript event processed twice leaves two lines where one delivery
    leaves one. *)
Lemma final_transcript_is_appended_again :
  ~ (transcriptOf (exec (handleTranscriptEvent env0 3000 hello_final)
                     (exec (handleTranscriptEvent env0 3000 hello_final) w_in_progress)) "c1"
     = transcriptOf (exec (handleTranscriptEvent env0 3000 hello_final) w_in_progress) "c1").
Proof. vm_compute. discriminate. Qed.

(** Campaign statistics are counted at every delivery too: the same
    'call-ended' webhook processed twice counts the call as completed
    twice. *)
Lemma call_ended_counts_at_every_delivery :
  completedOf "k1" w_tracked = Some (VNum 0)
  /\ completedOf "k1" (exec (handleVapiWebhook env0 5000 ended_c1) w_tracked) = Some (VNum 1)
  /\ completedOf "k1" (exec (handleVapiWebhook env0 5000 ended_c1)
                         (exec (handleVapiWebhook env0 5000 ended_c1) w_tracked))
     = Some (VNum 2).
Proof. repeat split; vm_compute; reflexivity. Qed.
(** ** Conference transfers (C5) *)

Lemma try_bind_inr {A B} (m : Try A) (k : A -> Try B) w r w' :
  try_bind m k w = (inr r, w') ->
  exists a w1, m w = (inr a, w1) /\ k a w1 = (inr r, w').
Proof.
  unfold try_bind, bind. destruct (m w) as [[e|a] w1]; [discriminate|]. eauto.
Qed.

Lemma read_inr v k w a w1 :
  read v k w = (inr a, w1) -> nullish v = false /\ a = field v k /\ w1 = w.
Proof.
  unfold read, throw, ret. destruct (nullish v); [discriminate|].
  intros [= <- <-]. auto.
Qed.

Lemma pure_step_inr {A} (r : Thrown + A) w a w1 :
  pure_step r w = (inr a, w1) -> r = inr a /\ w1 = w.
Proof. unfold pure_step, ret. intros [= -> <-]. auto. Qed.

Lemma effect_inr (m : St unit) w a w1 :
  effect m w = (inr a, w1) -> w1 = exec m w.
Proof.
  unfold effect, bind, ret, exec. destruct (m w) as [u w2]. now intros [= _ <-].
Qed.

Lemma of_client_inr {A} (r : JsError + A) w a w1 :
  of_client r w = (inr a, w1) -> r = inr a /\ w1 = w.
Proof. unfold of_client, ret. destruct r; intros [= <- <-]; auto. Qed.

Lemma formatPhoneToE164_string raw v :
  formatPhoneToE164 raw = inr v -> truthy v = true -> exists s, v = VStr s.
Proof.
  unfold formatPhoneToE164. destruct (truthy raw) eqn:Hr; simpl.
  - destruct raw; try discriminate.
    repeat match goal with |- context [if ?b then _ else _] => destruct b end;
      intros [= <-] _; eauto.
  - intros [= <-]. discriminate.
Qed.

Lemma get_json_missing (o : obj) k : o !! k = None -> get (json o) k = VUndef.
Proof. intros H. unfold get. now rewrite json_lookup, H. Qed.

Lemma setConference_lookup cid c w :
  conferences (store (exec (setConference cid c) w)) !! cid = Some (json c).
Proof. unfold setConference. rewrite exec_modify. simpl. apply lookup_insert_eq. Qed.

Lemma broadcastToClients_store e w : store (exec (broadcastToClients e) w) = store w.
Proof. reflexivity. Qed.

Arguments json : simpl never.
Arguments setConference : simpl never.
Arguments findActiveCallByPhone : simpl never.
Arguments js_template : simpl never.
Arguments lit_spread : simpl never.
Arguments trim : simpl never.
Arguments pretty : simpl never.

Lemma conferenceRecord_stored r e cid c w :
  key_of (field (toolResult r) "conferenceId") = cid ->
  conferenceRecord r (exec (broadcastToClients e) (exec (setConference cid c) w))
    = Some (json c).
Proof. intros <-. unfold conferenceRecord. apply setConference_lookup. Qed.

Lemma ret_inr_inv {A} (x : A) w (r : A) w' :
  ret (inr x) w = (@inr Thrown A r, w') -> r = x /\ w' = w.
Proof. unfold ret. intros [= -> ->]. auto. Qed.

Ltac try_step H :=
  let a := fresh "a" in
  let w1 := fresh "w" in
  let Hm := fresh "Hm" in
  apply try_bind_inr in H as (a & w1 & Hm & H);
  lazymatch type of Hm with
  | read _ _ _ = _ => apply read_inr in Hm as (_ & -> & ->)
  | pure_step _ _ = _ => apply pure_step_inr in Hm as (Hm & ->)
  | effect _ _ = _ => apply effect_inr in Hm as ->
  | of_client _ _ = _ => apply of_client_inr in Hm as (Hm & ->)
  end.

(** C5 as the code has it.  A transfer request that completes (its result
    says [success: true]) has stored a conference record under the
    conference id it answers with, and took exactly one of two ways.
    - An active call of the customer was found: the record's
      [transferMethod] is 'call_modification', the result names the method
      'call_modification' and carries no SIP destination.
    - None was found: the result carries the SIP destination and, in its
      details, [conferenceMethod: 'sip_transfer_fallback']; the stored
      record has no [transferMethod] at all and stays 'waiting_for_agent'. *)
Theorem transfer_method_by_branch (tel : Telephony) (now : Z) (reqBody : val)
    (w w' : World) (res : Response) :
  transferConference tel now reqBody w = (res, w') ->
  field (toolResult res) "success" = VBool true ->
  exists c,
    conferenceRecord res w' = Some c
    /\ (truthy (findActiveCallByPhone tel now (get c "customerPhone")) = true ->
        get c "transferMethod" = VStr "call_modification"
        /\ field (toolResult res) "method" = VStr "call_modification"
        /\ field (toolResult res) "transferDestination" = VUndef)
    /\ (truthy (findActiveCallByPhone tel now (get c "customerPhone")) = false ->
        get c "transferMethod" = VUndef
        /\ get c "status" = VStr "waiting_for_agent"
        /\ field (field (toolResult res) "transferDestination") "type" = VStr "sip"
        /\ field (field (toolResult res) "details") "conferenceMethod"
           = VStr "sip_transfer_fallback").
Proof.
  unfold transferConference. unfold bind at 1.
  destruct (transferConference_try tel now reqBody w) as [[error|r] w1] eqn:H; unfold ret.
  { intros [= <- <-].
    unfold conferenceError, toolResult.
    repeat match goal with |- context [if ?b then _ else _] => destruct b end;
      cbn; discriminate. }
  intros [= -> ->] _.
  unfold transferConference_try in H. cbv zeta in H.
  try_step H. try_step H.
  match type of H with
  | (if ?b then _ else _) _ = _ => destruct b eqn:Hchk; [discriminate|]
  end.
  apply orb_false_iff in Hchk as [_ Hcp]. apply negb_false_iff in Hcp.
  destruct (formatPhoneToE164_string _ _ Hm Hcp) as [phone ->]. clear Hm.
  set (cid := String.append "conf_" _) in H.
  do 9 try_step H.
  match type of H with
  | (if truthy ?ac then _ else _) _ = _ => set (activeCall := ac) in H
  end.
  destruct (truthy activeCall) eqn:Hfound.
  - do 3 try_step H.
    apply ret_inr_inv in H as [-> ->].
    eexists. split; [apply conferenceRecord_stored; reflexivity|].
    rewrite (get_json_str _ _ phone) by (simpl_get; reflexivity).
    fold activeCall. rewrite Hfound.
    split; [intros _|discriminate].
    split; [|split; reflexivity].
    apply get_json_str. now simpl_get.
  - apply ret_inr_inv in H as [-> ->].
    eexists. split; [apply conferenceRecord_stored; reflexivity|].
    rewrite (get_json_str _ _ phone) by (simpl_get; reflexivity).
    fold activeCall. rewrite Hfound.
    split; [discriminate|intros _].
    split; [|split; [|split; reflexivity]].
    + apply get_json_missing. reflexivity.
    + apply get_json_str. now simpl_get.
Qed.

Lemma transfer_method_by_branch_witness :
  exists c,
    conferenceRecord (fst (transferConference tel_found 5000 transfer_request emptyWorld))
      (snd (transferConference tel_found 5000 transfer_request emptyWorld)) = Some c
    /\ get c "transferMethod" = VStr "call_modification".
Proof.
  destruct (transfer_method_by_branch tel_found 5000 transfer_request emptyWorld
              (snd (transferConference tel_found 5000 transfer_request emptyWorld))
              (fst (transferConference tel_found 5000 transfer_request emptyWorld)))
    as (c & Hc & Hfound & _).
  - apply surjective_pairing.
  - vm_compute. reflexivity.
  - exists c. split; [exact Hc|].
    apply Hfound.
    assert (E : Some (get c "customerPhone") = Some (VStr "+15551234567")).
    { change (Some (get c "customerPhone"))
        with ((fun c0 : obj => get c0 "customerPhone") <$> Some c).
      rewrite <- Hc. vm_compute. reflexivity. }
    injection E as ->. vm_compute. reflexivity.
Defined.

(** The claim as the specification words it fails.  No call of the customer
    is in progress; the request completes with the SIP fallback, and the
    stored conference record carries neither transfer method. *)
Lemma fallback_record_has_no_transfer_method :
  ~ (forall c,
       conferenceRecord (fst (transferConference tel_none 5000 transfer_request emptyWorld))
         (snd (transferConference tel_none 5000 transfer_request emptyWorld)) = Some c ->
       get c "transferMethod" = VStr "call_modification"
       \/ get c "transferMethod" = VStr "sip_transfer_fallback").
Proof.
  intros H.
  destruct (H (default ∅ (conferences (store (snd (transferConference tel_none 5000
                 transfer_request emptyWorld))) !! "conf_5000_L7"))) as [E|E].
  - vm_compute. reflexivity.
  - vm_compute in E. discriminate.
  - vm_compute in E. discriminate.
Qed.

(** ** Phone numbers *)

Lemma digits_all_digits s : all_digits (digits s) = true.
Proof.
  induction s as [|c s IH]; simpl; [reflexivity|].
  destruct (is_digit c) eqn:E; simpl; [now rewrite E|exact IH].
Qed.

Lemma digits_of_digits s : all_digits s = true -> digits s = s.
Proof.
  induction s as [|c s IH]; simpl; [reflexivity|].
  intros H. apply andb_true_iff in H as [Hc Hs]. now rewrite Hc, IH.
Qed.

Lemma digits_idem s : digits (digits s) = digits s.
Proof. apply digits_of_digits, digits_all_digits. Qed.

Lemma digits_plus s : digits ("+" +:+ s) = digits s.
Proof. reflexivity. Qed.

Lemma digits_plus1 s : digits ("+1" +:+ s) = String "1" (digits s).
Proof. reflexivity. Qed.

Lemma length_append (a b : string) :
  String.length (a +:+ b) = String.length a + String.length b.
Proof. induction a; simpl; auto. Qed.

(** X1.  [formatToE164] on text.  It answers [null] exactly when the text
    holds fewer than ten digits.  Otherwise the answer is "+" followed by
    digits only, at least eleven of them, and formatting the answer again
    gives it back. *)
Theorem formatToE164_shape_and_idempotent (s : string) :
  (formatToE164 (VStr s) = None <-> String.length (digits s) < 10)
  /\ (forall p, formatToE164 (VStr s) = Some p ->
        (exists d, p = "+" +:+ d /\ all_digits d = true /\ 11 <= String.length d)
        /\ formatToE164 (VStr p) = Some p).
Proof.
  unfold formatToE164. cbn [js_String].
  set (c := digits s).
  assert (Hc : all_digits c = true) by apply digits_all_digits.
  destruct (String.length c =? 10) eqn:E10.
  { apply Nat.eqb_eq in E10. split; [split; [discriminate|lia]|].
    intros p [= <-]. split.
    - exists (String "1" c). repeat split; [exact Hc|simpl; lia].
    - rewrite digits_plus1. fold c. rewrite (digits_of_digits c Hc).
      cbn [String.length]. rewrite E10. reflexivity. }
  apply Nat.eqb_neq in E10.
  destruct ((String.length c =? 11) && starts_with_1 c) eqn:E11.
  { apply andb_true_iff in E11 as [E11 E1]. apply Nat.eqb_eq in E11.
    split; [split; [discriminate|lia]|].
    intros p [= <-]. split.
    - exists c. repeat split; [exact Hc|lia].
    - rewrite digits_plus. fold c. rewrite (digits_of_digits c Hc).
      rewrite E11, E1. reflexivity. }
  destruct (10 <? String.length c) eqn:Egt.
  { apply Nat.ltb_lt in Egt. split; [split; [discriminate|lia]|].
    intros p [= <-]. split.
    - exists c. repeat split; [exact Hc|lia].
    - rewrite digits_plus. fold c. rewrite (digits_of_digits c Hc).
      destruct (String.length c =? 10) eqn:E; [apply Nat.eqb_eq in E; lia|].
      rewrite E11. apply Nat.ltb_lt in Egt. now rewrite Egt. }
  apply Nat.ltb_ge in Egt.
  split; [split; [lia|reflexivity]|discriminate].
Qed.

Lemma formatToE164_shape_and_idempotent_witness :
  formatToE164 (VStr "+15551234567") = Some "+15551234567".
Proof.
  apply (proj2 (formatToE164_shape_and_idempotent "(555) 123-4567") "+15551234567").
  reflexivity.
Defined.

(** X2.  A number that [validatePhoneNumber] accepts (ten to fifteen
    digits) is never refused by [formatToE164]: ten digits get the country
    code 1 in front, any other accepted number its digits after "+". *)
Theorem valid_numbers_are_formatted (s cleaned : string) :
  validatePhoneNumber (VStr s) = inr cleaned ->
  cleaned = digits s
  /\ 10 <= String.length cleaned <= 15
  /\ formatToE164 (VStr s)
     = Some (if String.length cleaned =? 10 then "+1" +:+ cleaned else "+" +:+ cleaned).
Proof.
  unfold validatePhoneNumber, formatToE164. cbn [js_String].
  destruct (negb (truthy (VStr s))); [discriminate|].
  destruct (String.length (digits s) <? 10) eqn:E1; [discriminate|].
  destruct (15 <? String.length (digits s)) eqn:E2; [discriminate|].
  intros [= <-].
  apply Nat.ltb_ge in E1, E2.
  split; [reflexivity|]. split; [lia|].
  destruct (String.length (digits s) =? 10) eqn:E10; [reflexivity|].
  apply Nat.eqb_neq in E10.
  destruct (_ && _); [reflexivity|].
  destruct (10 <? String.length (digits s)) eqn:E; [reflexivity|].
  apply Nat.ltb_ge in E. lia.
Qed.

Lemma valid_numbers_are_formatted_witness :
  formatToE164 (VStr "555-123-4567") = Some "+15551234567".
Proof.
  apply (valid_numbers_are_formatted "555-123-4567" "5551234567"). reflexivity.
Defined.

(** X3.  [formatPhoneToE164] of the conference route is idempotent on every
    text: what it returns, it returns unchanged when given it again.  A
    missing number gives [null], and a number with fewer than ten digits is
    handed back as it came. *)
Theorem formatPhoneToE164_idempotent (s : string) :
  exists v,
    formatPhoneToE164 (VStr s) = inr v
    /\ formatPhoneToE164 v = inr v
    /\ (s = "" -> v = VNull)
    /\ (s <> "" -> String.length (digits s) < 10 -> v = VStr s).
Proof.
  unfold formatPhoneToE164 at 1.
  destruct (truthy (VStr s)) eqn:Ht; cbn [negb].
  2:{ exists VNull. simpl in Ht. apply negb_false_iff, String.eqb_eq in Ht.
      repeat split; auto. intros Hs. contradiction. }
  assert (Hs : s <> "").
  { simpl in Ht. apply negb_true_iff, String.eqb_neq in Ht. exact Ht. }
  set (c := digits s).
  assert (Hc : all_digits c = true) by apply digits_all_digits.
  assert (Hself : forall x, formatPhoneToE164 (VStr s) = inr (VStr s) ->
            x = VStr s -> formatPhoneToE164 x = inr x) by (intros x H ->; exact H).
  destruct (String.length c =? 10) eqn:E10.
  { apply Nat.eqb_eq in E10. eexists. split; [reflexivity|]. split; [|split].
    - unfold formatPhoneToE164. cbn [truthy String.eqb String.append negb Ascii.eqb Bool.eqb].
      rewrite digits_plus1. fold c. rewrite (digits_of_digits c Hc).
      cbn [String.length]. rewrite E10. reflexivity.
    - intros ->. contradiction.
    - fold c. lia. }
  apply Nat.eqb_neq in E10.
  destruct ((String.length c =? 11) && starts_with_1 c) eqn:E11.
  { pose proof E11 as E11'. apply andb_true_iff in E11' as [Ea Eb]. apply Nat.eqb_eq in Ea.
    eexists. split; [reflexivity|]. split; [|split].
    - unfold formatPhoneToE164. cbn [truthy String.eqb String.append negb Ascii.eqb Bool.eqb].
      rewrite digits_plus. fold c. rewrite (digits_of_digits c Hc).
      destruct (String.length c =? 10) eqn:E; [apply Nat.eqb_eq in E; lia|].
      rewrite E11. reflexivity.
    - intros ->. contradiction.
    - fold c. lia. }
  destruct (is_prefix "+" s && (10 <=? String.length c)) eqn:Ep.
  { apply andb_true_iff in Ep as [Ep1 Ep2]. apply Nat.leb_le in Ep2.
    exists (VStr s). split; [reflexivity|]. split; [|split].
    - unfold formatPhoneToE164. rewrite Ht. cbn [negb]. fold c.
      destruct (String.length c =? 10) eqn:E; [apply Nat.eqb_eq in E; lia|].
      rewrite E11, Ep1. apply Nat.leb_le in Ep2. rewrite Ep2. reflexivity.
    - intros ->. contradiction.
    - reflexivity. }
  destruct ((10 <=? String.length c) && (String.length c <=? 15)) eqn:Er.
  { apply andb_true_iff in Er as [Er1 Er2]. pose proof Er1 as Er1'. apply Nat.leb_le in Er1'.
    eexists. split; [reflexivity|]. split; [|split].
    - unfold formatPhoneToE164. cbn [truthy String.eqb String.append negb Ascii.eqb Bool.eqb].
      rewrite digits_plus. fold c. rewrite (digits_of_digits c Hc).
      destruct (String.length c =? 10) eqn:E; [apply Nat.eqb_eq in E; lia|].
      rewrite E11. cbn [is_prefix Ascii.eqb Bool.eqb andb]. rewrite Er1. reflexivity.
    - intros ->. contradiction.
    - fold c. lia. }
  exists (VStr s). split; [reflexivity|]. split; [|split].
  - unfold formatPhoneToE164. rewrite Ht. cbn [negb]. fold c.
    destruct (String.length c =? 10) eqn:E; [apply Nat.eqb_eq in E; lia|].
    rewrite E11, Ep, Er. reflexivity.
  - intros ->. contradiction.
  - reflexivity.
Qed.

Lemma formatPhoneToE164_idempotent_witness :
  exists v, formatPhoneToE164 (VStr "12345") = inr v /\ v = VStr "12345".
Proof.
  destruct (formatPhoneToE164_idempotent "12345") as (v & E & _ & _ & H).
  exists v. split; [exact E|]. apply H; [discriminate|vm_compute; lia].
Defined.

(** ** The shared store *)

Lemma json_lookup_undef (o : obj) k : get o k = VUndef -> json o !! k = None.
Proof.
  unfold get. rewrite json_lookup. destruct (o !! k) as [v|]; simpl; [|reflexivity].
  now intros ->.
Qed.

Lemma saveCampaign_twice cid c w :
  exec (saveCampaign cid c) (exec (saveCampaign cid c) w) = exec (saveCampaign cid c) w.
Proof.
  rewrite !saveCampaign_run. destruct w as [m [cs ac q cc cf] p t b s d v].
  unfold with_store, with_activeCampaigns, with_campaigns. simpl.
  rewrite insert_insert_eq.
  destruct (decide (cid ∈ ac)) as [Hin|Hnin].
  - now rewrite !(bool_decide_true _ Hin).
  - rewrite !(bool_decide_false _ Hnin).
    rewrite bool_decide_true; [reflexivity|]. apply elem_of_app. right. now left.
Qed.

(** X4.  A campaign saved is the campaign read back, as JSON renders it:
    [getCampaign] returns the JSON copy of what [saveCampaign] was given
    (keys holding [undefined] are gone, texts come back as they were), the
    copy is among [getAllCampaigns], other campaigns are as before, and
    saving the same data again changes nothing. *)
Theorem campaign_save_then_get (campaignId : string) (campaignData : obj) (w : World) :
  let w' := exec (saveCampaign campaignId campaignData) w in
  eval (getCampaign campaignId) w' = Some (json campaignData)
  /\ (forall other, other <> campaignId ->
        eval (getCampaign other) w' = eval (getCampaign other) w)
  /\ json campaignData ∈ eval getAllCampaigns w'
  /\ (forall k, get campaignData k = VUndef -> json campaignData !! k = None)
  /\ (forall k s, get campaignData k = VStr s -> get (json campaignData) k = VStr s)
  /\ exec (saveCampaign campaignId campaignData) w' = w'.
Proof.
  intros w'. subst w'. rewrite saveCampaign_run.
  unfold getCampaign, getAllCampaigns. rewrite !eval_gets. simpl.
  split; [apply lookup_insert_eq|]. split; [|split; [|split; [|split]]].
  - intros other Ho. now apply lookup_insert_ne.
  - apply list_elem_of_omap. exists campaignId. split; [|apply lookup_insert_eq].
    case_bool_decide as H; [exact H|]. apply elem_of_app. right. now left.
  - apply json_lookup_undef.
  - apply get_json_str.
  - rewrite <- saveCampaign_run. apply saveCampaign_twice.
Qed.

Lemma campaign_save_then_get_witness :
  get (json campaign_k1) "status" = VStr "active".
Proof.
  apply (proj1 (proj2 (proj2 (proj2 (proj2
           (campaign_save_then_get "k1" campaign_k1 emptyWorld))))) "status" "active").
  reflexivity.
Defined.

(** X5.  [updateCampaign] on a campaign that is not stored throws 'Campaign
    not found' and changes nothing.  On a stored campaign it returns
    [{...campaign, ...updates}] and stores its JSON copy, so that a key of
    the update reads back as updated and every other key as it was
    stored. *)
Theorem campaign_update_merges (campaignId : string) (updates : obj) (w : World) :
  (campaigns (store w) !! campaignId = None ->
     updateCampaign campaignId updates w = (None, w))
  /\ (forall c, campaigns (store w) !! campaignId = Some c ->
        eval (updateCampaign campaignId updates) w = Some (updates ∪ c)
        /\ eval (getCampaign campaignId) (exec (updateCampaign campaignId updates) w)
           = Some (json (updates ∪ c))
        /\ (forall k s, updates !! k = Some (VStr s) ->
              get (json (updates ∪ c)) k = VStr s)
        /\ (forall k s, updates !! k = None -> get c k = VStr s ->
              get (json (updates ∪ c)) k = VStr s)).
Proof.
  split.
  - intros H. unfold updateCampaign, getCampaign, bind, gets, ret. simpl. now rewrite H.
  - intros c H.
    assert (E : updateCampaign campaignId updates w
                = (Some (updates ∪ c), exec (saveCampaign campaignId (updates ∪ c)) w)).
    { unfold updateCampaign, getCampaign, bind, gets, ret. simpl. rewrite H.
      reflexivity. }
    unfold eval at 1, exec. rewrite E. cbn [fst snd].
    split; [reflexivity|]. split; [|split].
    + rewrite saveCampaign_run. unfold getCampaign. rewrite eval_gets. simpl.
      apply lookup_insert_eq.
    + intros k s Hk. apply get_json_str. now apply get_union_l.
    + intros k s Hk Hc. apply get_json_str. now rewrite get_union_r.
Qed.

Lemma campaign_update_merges_witness :
  updateCampaign "k9" {[ "status" := VStr "stopped" ]} w_campaign = (None, w_campaign)
  /\ get (json ({[ "status" := VStr "stopped" ]} ∪ campaign_k1)) "id" = VStr "k1".
Proof.
  split.
  - apply (proj1 (campaign_update_merges "k9" {[ "status" := VStr "stopped" ]} w_campaign)).
    vm_compute. reflexivity.
  - apply (proj2 (campaign_update_merges "k1" {[ "status" := VStr "stopped" ]} w_campaign)
             (json campaign_k1)).
    + vm_compute. reflexivity.
    + vm_compute. reflexivity.
    + vm_compute. reflexivity.
Defined.

(** X6.  The contact queue is first in, first out.  After
    [saveCampaignQueue] the queue length is the number of contacts, the
    batch loop of [processBatch] pops the first [n] of them in the order
    they were given, as JSON copies, and leaves the others queued; on an
    empty queue [getNextContact] returns [null] and changes nothing. *)
Theorem contact_queue_is_fifo (campaignId : string) (contacts : list obj) (n : nat)
    (w : World) :
  let w' := exec (saveCampaignQueue campaignId contacts) w in
  eval (getQueueLength campaignId) w' = length contacts
  /\ eval (nextBatch n campaignId) w' = take n (json <$> contacts)
  /\ queueOf campaignId (exec (nextBatch n campaignId) w') = drop n (json <$> contacts)
  /\ (queueOf campaignId w = [] -> getNextContact campaignId w = (None, w)).
Proof.
  intros w'.
  destruct (saveCampaignQueue_run campaignId contacts w) as (Q & _ & _).
  destruct (nextBatch_spec campaignId n w') as (B1 & B2 & _ & _).
  fold w' in Q. rewrite B1, B2, Q.
  split; [|split; [reflexivity|split; [reflexivity|]]].
  - unfold getQueueLength. rewrite eval_gets. fold (queueOf campaignId w').
    rewrite Q. apply length_fmap.
  - intros E. rewrite getNextContact_run, E. reflexivity.
Qed.

Lemma contact_queue_is_fifo_witness :
  getNextContact "k0" emptyWorld = (None, emptyWorld).
Proof.
  apply (proj2 (proj2 (proj2 (contact_queue_is_fifo "k0" [] 0 emptyWorld)))).
  reflexivity.
Defined.

(** X7.  [deleteCampaign] removes the campaign record, its place in the set
    of campaigns and its queue; the calls recorded for the campaign stay,
    and so does every other campaign. *)
Theorem deleteCampaign_clears (campaignId : string) (w : World) :
  let w' := exec (deleteCampaign campaignId) w in
  eval (getCampaign campaignId) w' = None
  /\ (campaignId ∉ activeCampaigns (store w'))
  /\ eval (getQueueLength campaignId) w' = 0
  /\ eval (getCampaignCalls campaignId) w' = eval (getCampaignCalls campaignId) w
  /\ (forall other, other <> campaignId ->
        eval (getCampaign other) w' = eval (getCampaign other) w
        /\ queueOf other w' = queueOf other w
        /\ (other ∈ activeCampaigns (store w') <-> other ∈ activeCampaigns (store w))).
Proof.
  intros w'. subst w'.
  unfold deleteCampaign, getCampaign, getQueueLength, getCampaignCalls, queueOf.
  st_simp. simpl.
  split; [apply lookup_delete_eq|]. split; [|split; [|split]].
  - intros H. apply list_elem_of_filter in H as [H _]. now apply H.
  - now rewrite lookup_delete_eq.
  - reflexivity.
  - intros other Ho. rewrite !eval_gets. simpl.
    rewrite !lookup_delete_ne by congruence.
    split; [reflexivity|]. split; [reflexivity|].
    rewrite list_elem_of_filter. tauto.
Qed.

Lemma deleteCampaign_clears_witness :
  eval (getCampaign "k1") (exec (deleteCampaign "k2") w_campaign)
    = eval (getCampaign "k1") w_campaign.
Proof.
  apply (proj2 (proj2 (proj2 (proj2 (deleteCampaign_clears "k2" w_campaign)))) "k1").
  discriminate.
Defined.

(** X8.  A call recorded for a campaign is read back by [getCampaignCalls]
    under its call id, as a JSON copy; the other calls of the campaign and
    the calls of other campaigns are as before. *)
Theorem campaign_call_round_trip (campaignId callId : string) (callData : obj)
    (w : World) :
  let w' := exec (addCallToCampaign campaignId callId callData) w in
  (eval (getCampaignCalls campaignId) w') !! callId = Some (json callData)
  /\ (forall other, other <> callId ->
        (eval (getCampaignCalls campaignId) w') !! other
        = (eval (getCampaignCalls campaignId) w) !! other)
  /\ (forall other, other <> campaignId ->
        eval (getCampaignCalls other) w' = eval (getCampaignCalls other) w).
Proof.
  intros w'. subst w'. unfold addCallToCampaign, getCampaignCalls. st_simp. simpl.
  rewrite lookup_insert_eq. simpl.
  split; [apply lookup_insert_eq|]. split.
  - intros other Ho. now rewrite lookup_insert_ne.
  - intros other Ho. rewrite !eval_gets. simpl. now rewrite lookup_insert_ne.
Qed.

Lemma campaign_call_round_trip_witness :
  eval (getCampaignCalls "k2") w_tracked = eval (getCampaignCalls "k2") w_campaign.
Proof.
  apply (proj2 (proj2 (campaign_call_round_trip "k1" "c1"
           {[ "id" := VStr "c1"; "status" := VStr "queued" ]} w_campaign)) "k2").
  discriminate.
Defined.

(** ** The registry: registration, updates, removal *)

Lemma addCall_heap env now callData w :
  let id := key_of (get callData "id") in
  let w' := exec (addCall env now callData) w in
  exists l c a1 a3,
    activeCalls (mon w') !! id = Some l
    /\ objs (mon w') !! l = Some c
    /\ c = <["listenerCount" := VNum 0]>
           (<["hasActiveListeners" := VBool false]>
           (<["debugMode" := js_or (get callData "debugMode") (VBool false)]>
           (<["extendedMonitoring" := js_or (get callData "extendedMonitoring") (VBool false)]>
           (<["statusHistory" := VArr a3]>
           (<["events" := VArr (fresh (dom (<[a1 := []]> (arrs (mon w)))))]>
           (<["transcript" := VArr a1]>
           (<["addedAt" := VDate now]> callData)))))))
    /\ arrs (mon w') !! a1 = Some []
    /\ arrs (mon w') !! a3
       = Some [VLit [("status", js_or (get callData "status") (VStr "queued"));
                     ("timestamp", VDate now); ("source", VStr "call_creation")]]
    /\ a3 <> a1.
Proof.
  intros id w'. subst w'. unfold addCall. fold id.
  repeat rewrite exec_bind.
  match goal with
  | |- context [exec (if ?b then ?m else ret tt) ?w0] =>
      assert (E : heap (exec (if b then m else ret tt) w0) = heap w0)
  end.
  { destruct (truthy _); [|reflexivity]. now apply setupAudioStreamWithRetry_heap. }
  unfold heap in E. injection E as E1 E2 E3. rewrite E1, E2, E3. clear E1 E2 E3.
  unfold alloc_arr, alloc_obj. st_simp. simpl.
  set (a1 := fresh (dom (arrs (mon w)))).
  set (a2 := fresh (dom (<[a1 := []]> (arrs (mon w))))).
  set (a3 := fresh (dom (<[a2 := []]> (<[a1 := []]> (arrs (mon w)))))).
  assert (H31 : a3 <> a1).
  { intros E. apply (is_fresh (dom (<[a2 := []]> (<[a1 := []]> (arrs (mon w)))))).
    fold a3. rewrite E. rewrite !dom_insert. set_solver. }
  assert (H21 : a2 <> a1).
  { intros E. apply (is_fresh (dom (<[a1 := []]> (arrs (mon w))))).
    fold a2. rewrite E. rewrite !dom_insert. set_solver. }
  eexists _, _, a1, a3. rewrite !lookup_insert_eq.
  split; [reflexivity|]. split; [reflexivity|]. split; [reflexivity|].
  split; [|split; [reflexivity|exact H31]].
  rewrite lookup_insert_ne by exact H31. rewrite lookup_insert_ne by exact H21.
  apply lookup_insert_eq.
Qed.

Lemma get_insert_chain_other (o : obj) k :
  k ∉ addCall_keys ->
  forall v1 v2 v3 v4 v5 v6 v7 v8,
  get (<["listenerCount" := v1]> (<["hasActiveListeners" := v2]> (<["debugMode" := v3]>
      (<["extendedMonitoring" := v4]> (<["statusHistory" := v5]> (<["events" := v6]>
      (<["transcript" := v7]> (<["addedAt" := v8]> o)))))))) k = get o k.
Proof.
  intros Hk *. unfold addCall_keys in Hk.
  rewrite !get_insert_ne; [reflexivity|..]; intros E; subst k; apply Hk; set_solver.
Qed.

(** X9.  [addCall] then [getCall].  Whatever the registry held for the id
    before, after [addCall] it holds a fresh record: every field of the
    call data that [addCall] does not set itself reads as given, the
    listener count is 0, the transcript is empty and the status history has
    the one entry of the creation, with the given status or 'queued'. *)
Theorem addCall_then_getCall (env : Env) (now : Z) (callData : obj) (w : World) :
  let callId := key_of (get callData "id") in
  let w' := exec (addCall env now callData) w in
  registered callId w'
  /\ (forall k, k ∉ addCall_keys -> callField w' callId k = Some (get callData k))
  /\ callField w' callId "listenerCount" = Some (VNum 0)
  /\ callField w' callId "addedAt" = Some (VDate now)
  /\ transcriptOf w' callId = Some []
  /\ statusHistoryOf w' callId
     = Some [VLit [("status", js_or (get callData "status") (VStr "queued"));
                   ("timestamp", VDate now); ("source", VStr "call_creation")]].
Proof.
  intros callId w'.
  destruct (addCall_heap env now callData w) as (l & c & a1 & a3 & Hl & Hc & -> & H1 & H3 & Hne).
  fold callId w' in Hl, Hc, H1, H3.
  unfold registered, callField, transcriptOf, statusHistoryOf, callObject.
  rewrite Hl, Hc. cbn [fmap option_fmap option_map].
  split; [eauto|]. split; [|split; [|split; [|split]]].
  - intros k Hk. f_equal. now apply get_insert_chain_other.
  - now simpl_get.
  - now simpl_get.
  - simpl_get. exact H1.
  - simpl_get. exact H3.
Qed.

Lemma addCall_then_getCall_witness :
  callField (exec (addCall env0 1000 {[ "id" := VStr "c1"; "status" := VStr "queued" ]})
               emptyWorld)
    (key_of (get ({[ "id" := VStr "c1"; "status" := VStr "queued" ]} : obj) "id")) "status"
  = Some (get ({[ "id" := VStr "c1"; "status" := VStr "queued" ]} : obj) "status").
Proof.
  apply (proj1 (proj2 (addCall_then_getCall env0 1000
           {[ "id" := VStr "c1"; "status" := VStr "queued" ]} emptyWorld)) "status").
  apply (bool_decide_unpack _). vm_compute. exact I.
Defined.

Lemma recordStatusChange_obj now callId l updates w c :
  objs (mon w) !! l = Some c ->
  let w1 := exec (recordStatusChange now callId l updates) w in
  activeCalls (mon w1) = activeCalls (mon w)
  /\ exists c1, objs (mon w1) !! l = Some c1
                /\ forall k, k <> "statusHistory" -> get c1 k = get c k.
Proof.
  intros Hc w1. subst w1.
  unfold recordStatusChange, read_obj. st_simp. rewrite Hc. simpl.
  destruct (_ && _); [|st_simp; eauto].
  destruct (truthy (get c "statusHistory")) eqn:Hsh; simpl.
  - st_simp. rewrite Hc. simpl.
    unfold push. destruct (get c "statusHistory"); st_simp; simpl; eauto.
  - unfold alloc_arr, set_field. st_simp. simpl.
    rewrite lookup_alter_eq, Hc. simpl. rewrite get_insert_eq.
    unfold push. st_simp. simpl. rewrite lookup_alter_eq, Hc. simpl.
    split; [reflexivity|]. eexists. split; [reflexivity|].
    intros k Hk. now rewrite get_insert_ne by congruence.
Qed.

(** X10.  [updateCall] merges.  For an id that is not registered it changes
    nothing.  For a registered call whose stored status history is unset or
    an array, the registry afterwards holds
    [{...call, ...updates, updatedAt: now}]: a key of the update reads as
    updated, [updatedAt] is the time of the update, and every other field
    (the status history apart, which may gain an entry) reads as before. *)
Theorem updateCall_merges (env : Env) (now : Z) (callId : string) (updates : obj)
    (w : World) :
  let w' := exec (updateCall env now callId updates) w in
  (activeCalls (mon w) !! callId = None -> w' = w)
  /\ (forall l c,
        activeCalls (mon w) !! callId = Some l ->
        objs (mon w) !! l = Some c ->
        history_ok w callId = true ->
        callField w' callId "updatedAt" = Some (VDate now)
        /\ (forall k v, k <> "updatedAt" -> updates !! k = Some v ->
              callField w' callId k = Some v)
        /\ (forall k, k <> "updatedAt" -> k <> "statusHistory" -> updates !! k = None ->
              callField w' callId k = Some (get c k))).
Proof.
  intros w'. subst w'. split; [apply updateCall_unregistered|].
  intros l c Hl Hc _.
  rewrite (updateCall_registered _ _ _ _ _ _ Hl).
  destruct (recordStatusChange_obj now callId l updates w c Hc) as (_ & c1 & Hc1 & Hk1).
  unfold callField. rewrite storeUpdatedCall_callObject, Hc1. simpl.
  split; [now rewrite get_insert_eq|]. split.
  - intros k v Hk Hu. f_equal. rewrite get_insert_ne by congruence.
    now apply get_union_l.
  - intros k Hk Hs Hu. f_equal. rewrite get_insert_ne by congruence.
    rewrite get_union_r by exact Hu. now apply Hk1.
Qed.

Lemma updateCall_merges_witness :
  exec (updateCall env0 5000 "c9" {[ "status" := VStr "ended" ]}) w_queued = w_queued
  /\ callField (exec (updateCall env0 5000 "c1" {[ "status" := VStr "ended" ]}) w_queued)
       "c1" "status" = Some (VStr "ended").
Proof.
  split.
  - apply (proj1 (updateCall_merges env0 5000 "c9" {[ "status" := VStr "ended" ]} w_queued)).
    vm_compute. reflexivity.
  - apply (proj2 (updateCall_merges env0 5000 "c1" {[ "status" := VStr "ended" ]} w_queued)
             (default 1%positive (activeCalls (mon w_queued) !! "c1"))
             (default ∅ (callObject w_queued "c1"))).
    + vm_compute. reflexivity.
    + vm_compute. reflexivity.
    + vm_compute. reflexivity.
    + discriminate.
    + vm_compute. reflexivity.
Defined.

(** X11.  [updateCall] keeps the status history.  On a registered call with
    its history array, an update whose status is set and differs from the
    stored one appends one entry [{from, to, timestamp, source:
    'webhook_update'}]; an update with the stored status, or with none,
    leaves the history as it is.  The new record refers to the same
    history. *)
Theorem updateCall_records_transitions (env : Env) (now : Z) (callId : string)
    (updates : obj) (w : World) (l : positive) (c : obj) (h : positive) (H : list val) :
  activeCalls (mon w) !! callId = Some l ->
  objs (mon w) !! l = Some c ->
  get c "statusHistory" = VArr h ->
  arrs (mon w) !! h = Some H ->
  updates !! "statusHistory" = None ->
  statusHistoryOf (exec (updateCall env now callId updates) w) callId
  = Some (if truthy (get updates "status")
             && negb (strict_eq (get updates "status") (get c "status"))
          then H ++ [VLit [("from", get c "status"); ("to", get updates "status");
                           ("timestamp", VDate now); ("source", VStr "webhook_update")]]
          else H).
Proof.
  intros Hl Hc Hh HH Hu.
  rewrite (updateCall_registered _ _ _ _ _ _ Hl).
  unfold statusHistoryOf. rewrite storeUpdatedCall_callObject.
  destruct (storeUpdatedCall_heap env now callId l updates
              (exec (recordStatusChange now callId l updates) w)) as (_ & _ & Ea).
  unfold arr_of.
  assert (E : objs (mon (exec (recordStatusChange now callId l updates) w)) !! l = Some c
              /\ arrs (mon (exec (recordStatusChange now callId l updates) w)) !! h
                 = Some (if truthy (get updates "status")
                            && negb (strict_eq (get updates "status") (get c "status"))
                         then H ++ [VLit [("from", get c "status"); ("to", get updates "status");
                                          ("timestamp", VDate now);
                                          ("source", VStr "webhook_update")]]
                         else H)).
  { unfold recordStatusChange, read_obj. st_simp. rewrite Hc. simpl.
    destruct (_ && _); [|st_simp; auto].
    rewrite Hh. simpl. st_simp. rewrite Hc. simpl. rewrite Hh.
    unfold push. st_simp. simpl. rewrite lookup_alter_eq, HH. auto. }
  destruct E as [E1 E2]. rewrite E1. simpl.
  rewrite get_insert_ne by discriminate.
  rewrite get_union_r by exact Hu. rewrite Hh, Ea. exact E2.
Qed.

Lemma updateCall_records_transitions_witness :
  length <$> statusHistoryOf
    (exec (updateCall env0 5000 "c1" {[ "status" := VStr "ringing" ]}) w_queued) "c1"
  = Some 2.
Proof.
  rewrite (updateCall_records_transitions env0 5000 "c1" {[ "status" := VStr "ringing" ]}
             w_queued
             (default 1%positive (activeCalls (mon w_queued) !! "c1"))
             (default ∅ (callObject w_queued "c1"))
             3%positive
             (default [] (statusHistoryOf w_queued "c1"))).
  - vm_compute. reflexivity.
  - vm_compute. reflexivity.
  - vm_compute. reflexivity.
  - vm_compute. reflexivity.
  - vm_compute. reflexivity.
  - reflexivity.
Defined.

(** X12.  A [removeCall] that returns [true] has forgotten the id in every
    map of the monitor: the registry, the listeners, the retry counters and
    the state history; the registry entries of all other calls stay.  It
    returns [true] whenever it is forced, and also, forced or not, for an id
    that is not registered. *)
Theorem removeCall_clears_tracking (callId : string) (w : World) :
  (forall force,
      eval (removeCall callId force) w = true ->
      let w' := exec (removeCall callId force) w in
      activeCalls (mon w') !! callId = None
      /\ callListeners (mon w') !! callId = None
      /\ retryAttempts (mon w') !! callId = None
      /\ callStateHistory (mon w') !! callId = None
      /\ forall other, other <> callId ->
           activeCalls (mon w') !! other = activeCalls (mon w) !! other)
  /\ eval (removeCall callId true) w = true
  /\ (activeCalls (mon w) !! callId = None -> eval (removeCall callId false) w = true).
Proof.
  split; [|split].
  - intros force. unfold eval, exec. rewrite removeCall_run. cbv zeta.
    destruct (match activeCalls (mon w) !! callId with Some _ => _ | None => _ end);
      cbn [fst snd]; [discriminate|].
    intros _. simpl.
    rewrite !lookup_delete_eq. repeat split.
    intros other Ho. rewrite lookup_delete_ne by congruence.
    now rewrite (closeAudioStream_activeCalls callId (activeCalls (mon w)) w eq_refl).
  - unfold eval. rewrite removeCall_run. cbv zeta.
    destruct (activeCalls (mon w) !! callId); reflexivity.
  - intros H. unfold eval. rewrite removeCall_run, H. reflexivity.
Qed.

Lemma removeCall_clears_tracking_witness :
  activeCalls (mon (exec (removeCall "c1" true) w_spoken)) !! "c1" = None
  /\ eval (removeCall "c9" false) w_spoken = true.
Proof.
  split.
  - apply (proj1 (removeCall_clears_tracking "c1" w_spoken) true).
    vm_compute. reflexivity.
  - apply (proj2 (proj2 (removeCall_clears_tracking "c9" w_spoken))).
    vm_compute. reflexivity.
Defined.

Lemma closeAudioStream_heap callId x :
  preserves (fun w => heap w = x) (closeAudioStream callId).
Proof.
  unfold closeAudioStream, socket, setSocket.
  repeat first [ pres_step
               | apply preserves_modify; intros ? ?; unfold heap in *; simpl in *; assumption ].
Qed.

Lemma removeCall_false_heap callId w :
  let w' := exec (removeCall callId false) w in
  objs (mon w') = objs (mon w)
  /\ arrs (mon w') = arrs (mon w)
  /\ activeCalls (mon w')
     = if removal_blocked w callId then activeCalls (mon w)
       else delete callId (activeCalls (mon w)).
Proof.
  intros w'. subst w'. unfold exec. rewrite removeCall_run. cbv zeta.
  unfold removal_blocked.
  pose proof (closeAudioStream_heap callId (heap w) w eq_refl) as E.
  unfold heap in E. injection E as E1 E2 E3.
  destruct (activeCalls (mon w) !! callId) as [l|]; cbn [negb andb].
  - destruct (_ || _); cbn [snd]; [auto|]. simpl. rewrite E1, E2, E3. auto.
  - cbn [snd]. simpl. rewrite E1, E2, E3. auto.
Qed.

Lemma removal_blocked_ext w1 w callId :
  objs (mon w1) = objs (mon w) -> arrs (mon w1) = arrs (mon w) ->
  activeCalls (mon w1) !! callId = activeCalls (mon w) !! callId ->
  removal_blocked w1 callId = removal_blocked w callId.
Proof.
  intros Ho Ha Hl. unfold removal_blocked, nonempty, js_length. now rewrite Ho, Ha, Hl.
Qed.

Lemma removeCalls_spec ids w :
  let w' := exec (removeCalls ids) w in
  objs (mon w') = objs (mon w)
  /\ arrs (mon w') = arrs (mon w)
  /\ forall callId,
       activeCalls (mon w') !! callId
       = if bool_decide (callId ∈ ids) && negb (removal_blocked w callId) then None
         else activeCalls (mon w) !! callId.
Proof.
  revert w. induction ids as [|a rest IH]; intros w w'; subst w'.
  - simpl. rewrite exec_ret. repeat split.
  - simpl. rewrite exec_bind.
    destruct (removeCall_false_heap a w) as (R1 & R2 & R3).
    set (w1 := exec (removeCall a false) w) in *.
    destruct (IH w1) as (I1 & I2 & I3).
    rewrite I1, I2, R1, R2. split; [reflexivity|]. split; [reflexivity|].
    intros callId. rewrite I3.
    destruct (decide (callId = a)) as [->|Hne].
    + rewrite (bool_decide_true (a ∈ a :: rest)) by (now left).
      rewrite R3. cbn [andb].
      destruct (removal_blocked w a) eqn:Hb.
      * cbn [negb].
        rewrite (removal_blocked_ext w1 w a R1 R2) by (now rewrite R3).
        rewrite Hb. now rewrite andb_false_r.
      * cbn [negb]. rewrite lookup_delete_eq. now destruct (_ && _).
    + assert (Hl : activeCalls (mon w1) !! callId = activeCalls (mon w) !! callId).
      { rewrite R3. destruct (removal_blocked w a); [reflexivity|].
        now rewrite lookup_delete_ne by congruence. }
      rewrite (removal_blocked_ext w1 w callId R1 R2 Hl), Hl.
      assert (Hin : bool_decide (callId ∈ a :: rest) = bool_decide (callId ∈ rest)).
      { apply bool_decide_ext. rewrite elem_of_cons. tauto. }
      now rewrite Hin.
Qed.

Lemma cleanup_due_active now maxAge (c : obj) :
  includes ["ringing"; "in-progress"; "answered"] (get c "status") = true ->
  cleanup_due now maxAge c = false.
Proof.
  unfold includes. cbn [existsb]. rewrite orb_false_r, !orb_true_iff.
  unfold cleanup_due. destruct (date_of _); [|reflexivity].
  destruct (get c "status") as [| | | |s| | | |]; try (simpl; intuition discriminate).
  cbn [strict_eq]. rewrite !String.eqb_eq.
  intros [E|[E|E]]; subst s; reflexivity.
Qed.

(** X13.  The sweep of [cleanup].  A call leaves the registry exactly when
    the sweep picks it (ended longer ago than [maxAge], failed longer than
    half of it, without status longer than a quarter, or queued for more
    than five minutes) and it has no transcript lines; every other call
    keeps its entry, and no call record or array is changed.  A call that
    is ringing, in progress or answered is never picked, whatever its
    age. *)
Theorem cleanup_removes_exactly (now maxAge : Z) (w : World) :
  let w' := exec (cleanup now maxAge) w in
  objs (mon w') = objs (mon w)
  /\ arrs (mon w') = arrs (mon w)
  /\ (forall callId,
        activeCalls (mon w') !! callId
        = if cleanup_picks now maxAge w callId && negb (removal_blocked w callId) then None
          else activeCalls (mon w) !! callId)
  /\ (forall callId l c,
        activeCalls (mon w) !! callId = Some l ->
        objs (mon w) !! l = Some c ->
        includes ["ringing"; "in-progress"; "answered"] (get c "status") = true ->
        activeCalls (mon w') !! callId = Some l).
Proof.
  intros w'. subst w'. unfold cleanup. rewrite exec_bind, exec_gets, eval_gets.
  match goal with |- context [removeCalls ?ids] => set (toRemove := ids) end.
  destruct (removeCalls_spec toRemove w) as (S1 & S2 & S3).
  assert (Hpick : forall callId,
            bool_decide (callId ∈ toRemove) = cleanup_picks now maxAge w callId).
  { intros callId. unfold cleanup_picks.
    destruct (activeCalls (mon w) !! callId) as [l|] eqn:Hl.
    - destruct (cleanup_due now maxAge (default ∅ (objs (mon w) !! l))) eqn:Hd.
      + apply bool_decide_true. apply list_elem_of_omap. exists (callId, l).
        split; [now apply elem_of_map_to_list|]. now rewrite Hd.
      + apply bool_decide_false. intros Hin.
        apply list_elem_of_omap in Hin as ([i l0] & Hin & Hx).
        apply elem_of_map_to_list in Hin.
        destruct (cleanup_due now maxAge (default ∅ (objs (mon w) !! l0))) eqn:Hd0;
          [|discriminate].
        injection Hx as <-. rewrite Hl in Hin. injection Hin as <-. congruence.
    - apply bool_decide_false. intros Hin.
      apply list_elem_of_omap in Hin as ([i l0] & Hin & Hx).
      apply elem_of_map_to_list in Hin.
      destruct (cleanup_due now maxAge (default ∅ (objs (mon w) !! l0))); [|discriminate].
      injection Hx as <-. congruence. }
  split; [exact S1|]. split; [exact S2|]. split.
  - intros callId. rewrite S3, Hpick. reflexivity.
  - intros callId l c Hl Hc Hact. rewrite S3, Hpick. unfold cleanup_picks.
    rewrite Hl, Hc. simpl. rewrite (cleanup_due_active _ _ _ Hact). reflexivity.
Qed.

Lemma cleanup_removes_exactly_witness :
  activeCalls (mon (exec (cleanup 90000000 3600000) w_in_progress)) !! "c1"
  = Some (default 1%positive (activeCalls (mon w_in_progress) !! "c1")).
Proof.
  apply (proj2 (proj2 (proj2 (cleanup_removes_exactly 90000000 3600000 w_in_progress)))
           "c1" (default 1%positive (activeCalls (mon w_in_progress) !! "c1"))
           (default ∅ (callObject w_in_progress "c1"))).
  - vm_compute. reflexivity.
  - vm_compute. reflexivity.
  - vm_compute. reflexivity.
Defined.

(** ** Listeners and the audio stream *)

(** X14.  Listeners.  A listener added with a callback gets every event
    emitted for its call; for a call without listeners [emitToListeners]
    does nothing; and removing the only listener of a call undoes
    [addListener] altogether: the state is the one before.  The listeners
    of other calls are not touched. *)
Theorem listener_round_trip (callId : string) (listenerId : option string)
    (callback : option nat) (event : Event) (w : World) :
  let added := exec (addListener callId listenerId callback) w in
  (callListeners (mon w) !! callId = None ->
     exec (removeListener callId listenerId) added = w)
  /\ (is_Some callback ->
      (callId, listenerId, event) ∈ delivered (exec (emitToListeners callId event) added))
  /\ (callListeners (mon w) !! callId = None ->
      exec (emitToListeners callId event) w = w)
  /\ (forall other, other <> callId ->
        callListeners (mon added) !! other = callListeners (mon w) !! other).
Proof.
  intros added. subst added. unfold addListener, removeListener.
  rewrite !exec_modify.
  split; [|split; [|split]].
  - intros Hnone. destruct w as [[o a ac cl au ra ch so] st p t b s d v].
    simpl in Hnone. unfold with_mon, with_callListeners. simpl.
    rewrite lookup_insert_eq, Hnone. simpl.
    rewrite (delete_insert_id (M := gmap (option string))) by apply lookup_empty.
    rewrite bool_decide_true by apply map_size_empty.
    now rewrite delete_insert_id by exact Hnone.
  - intros [n ->]. rewrite emitToListeners_run. simpl. rewrite lookup_insert_eq.
    simpl. apply elem_of_app. right.
    apply list_elem_of_omap. exists (listenerId, Some n). split; [|reflexivity].
    apply elem_of_map_to_list. apply lookup_insert_eq.
  - intros Hnone. rewrite emitToListeners_run, Hnone. reflexivity.
  - intros other Ho. simpl. now rewrite lookup_insert_ne by congruence.
Qed.

Lemma listener_round_trip_witness :
  exec (removeListener "c1" (Some "ui")) (exec (addListener "c1" (Some "ui") (Some 7)) w_queued)
  = w_queued.
Proof.
  apply (proj1 (listener_round_trip "c1" (Some "ui") (Some 7) [] w_queued)).
  vm_compute. reflexivity.
Defined.


(** X15.  The retry timer is guarded.  When it fires for a call that has
    left the registry, or for a call whose stream is open already, nothing
    happens.  For a registered call without a stream it opens a socket for
    the attempt the timer carries and sets the ten-second connection
    timeout. *)
Theorem retry_timer_is_guarded (env : Env) (now : Z) (callId : string) (listenUrl : val)
    (nextRetryCount : nat) (w : World) :
  (activeCalls (mon w) !! callId = None \/ is_Some (audioStreams (mon w) !! callId) ->
     onAudioRetry env now callId listenUrl nextRetryCount w = (tt, w))
  /\ (is_Some (activeCalls (mon w) !! callId) ->
      audioStreams (mon w) !! callId = None ->
      truthy listenUrl = true ->
      ws_new_throws env listenUrl = None ->
      let w' := exec (onAudioRetry env now callId listenUrl nextRetryCount) w in
      sockets (mon w')
        = sockets (mon w) ++ [mkSocket callId listenUrl nextRetryCount false CONNECTING 0]
      /\ timers w' = timers w ++ [(10000%Z, TConnectionTimeout (length (sockets (mon w))))]).
Proof.
  split.
  - intros H. unfold onAudioRetry, bind, gets, ret. simpl.
    destruct H as [H|H].
    + rewrite H. rewrite bool_decide_false by (intros [? ?]; discriminate). reflexivity.
    + rewrite (bool_decide_true (is_Some (audioStreams (mon w) !! callId))) by exact H.
      now rewrite andb_false_r.
  - intros Hc Hs Hu Hn w'. subst w'.
    unfold onAudioRetry. st_simp.
    rewrite (bool_decide_true _ Hc), Hs.
    rewrite bool_decide_false by (intros [? ?]; discriminate). cbn [negb andb].
    unfold setupAudioStreamWithRetry. rewrite Hu, Hn. cbn [negb].
    unfold setTimeout. st_simp. auto.
Qed.

Lemma retry_timer_is_guarded_witness :
  onAudioRetry env0 9000 "c9" (VStr "wss://listen") 1 w_queued = (tt, w_queued).
Proof.
  apply (proj1 (retry_timer_is_guarded env0 9000 "c9" (VStr "wss://listen") 1 w_queued)).
  left. vm_compute. reflexivity.
Defined.

(** X16.  What a closing socket sets going.  The stream of the call is
    forgotten and the connection timeout of the socket is cleared.  A retry
    is scheduled only for an abnormal close (a code other than 1000) of a
    socket that had connected and whose attempt number is below the
    maximum; a normal close, or the close of a socket that never connected,
    schedules nothing and leaves the retry counters alone. *)
Theorem close_retries_only_when_abnormal (now : Z) (ws : nat) (code : Z) (reason : string)
    (w : World) (s : Socket) :
  sockets (mon w) !! ws = Some s ->
  let w' := exec (onClose now ws code reason) w in
  let cleared := filter (fun t => is_connection_timeout ws t = false) (timers w) in
  audioStreams (mon w') !! ws_callId s = None
  /\ (code = 1000%Z \/ ws_isConnected s = false \/ maxRetries <= ws_retryCount s ->
      timers w' = cleared /\ retryAttempts (mon w') = retryAttempts (mon w))
  /\ (code <> 1000%Z -> ws_isConnected s = true -> ws_retryCount s < maxRetries ->
      timers w' = cleared ++ [(retryDelay (ws_retryCount s),
                               TAudioRetry (ws_callId s) (ws_listenUrl s) (ws_retryCount s + 1))]).
Proof.
  intros Hs w' cleared. subst w'.
  unfold onClose, socket. st_simp. rewrite Hs.
  rewrite !exec_bind.
  rewrite (setSocket_run _ _ _ _ Hs).
  unfold clearConnectionTimeout. rewrite !exec_modify.
  set (w1 := with_mon (with_audioStreams (delete (ws_callId s))) _).
  set (e := [("type", VStr "audio_disconnected"); _; _; _; _]).
  assert (Hm : mon (exec (emitToListeners (ws_callId s) e) w1) = mon w1)
    by apply emitToListeners_mon.
  assert (Ht : timers (exec (emitToListeners (ws_callId s) e) w1) = cleared)
    by (rewrite emitToListeners_timers; reflexivity).
  set (w2 := exec (emitToListeners (ws_callId s) e) w1) in *.
  assert (Hau : audioStreams (mon w2) !! ws_callId s = None).
  { rewrite Hm. subst w1. simpl. apply lookup_delete_eq. }
  assert (Hra : retryAttempts (mon w2) = retryAttempts (mon w)) by (now rewrite Hm).
  destruct (negb (code =? 1000)%Z && (ws_retryCount s <? maxRetries) && ws_isConnected s)
    eqn:Hretry.
  - apply andb_true_iff in Hretry as [Hretry Hconn].
    apply andb_true_iff in Hretry as [Hcode Hrc].
    apply negb_true_iff, Z.eqb_neq in Hcode. apply Nat.ltb_lt in Hrc.
    unfold handleAudioStreamRetry.
    rewrite (proj2 (Nat.ltb_lt _ _) Hrc).
    rewrite !exec_bind, emitToListeners_mon, emitToListeners_timers.
    unfold setTimeout. rewrite !exec_modify. simpl.
    split; [exact Hau|]. split.
    + intros [E|[E|E]]; [contradiction|congruence|lia].
    + intros _ _ _. now rewrite Ht.
  - rewrite exec_ret. split; [exact Hau|]. split; [auto|].
    intros Hcode Hconn Hrc.
    apply Z.eqb_neq in Hcode. apply Nat.ltb_lt in Hrc.
    rewrite Hcode, Hrc, Hconn in Hretry. discriminate.
Qed.

Lemma close_retries_only_when_abnormal_witness :
  timers (exec (onClose 7000 0 1006 "gone") w_streaming)
  = filter (fun t => is_connection_timeout 0 t = false) (timers w_streaming)
    ++ [(retryDelay (ws_retryCount socket0),
         TAudioRetry (ws_callId socket0) (ws_listenUrl socket0) (ws_retryCount socket0 + 1))].
Proof.
  apply (proj2 (proj2 (close_retries_only_when_abnormal 7000 0 1006 "gone" w_streaming
                         socket0 ltac:(vm_compute; reflexivity)))).
  - discriminate.
  - reflexivity.
  - unfold maxRetries. simpl. lia.
Defined.

(** X17.  A control message of the audio stream.  For a call that is not
    registered it is dropped.  For a registered call it is appended to the
    call's [events] with its type and the time, the call record itself
    stays as it is, and every listener with a callback is handed the
    message. *)
Theorem stream_message_is_recorded (now : Z) (callId : string) (message : obj) (w : World) :
  (activeCalls (mon w) !! callId = None ->
     handleStreamMessage now callId message w = (tt, w))
  /\ (forall l c a events,
        activeCalls (mon w) !! callId = Some l ->
        objs (mon w) !! l = Some c ->
        get c "events" = VArr a ->
        arrs (mon w) !! a = Some events ->
        let w' := exec (handleStreamMessage now callId message) w in
        arrs (mon w') !! a
          = Some (events ++ [VLit [("type", get message "type"); ("data", lit_of message);
                                   ("timestamp", VDate now)]])
        /\ objs (mon w') = objs (mon w)
        /\ (forall ls lid cb,
              callListeners (mon w) !! callId = Some ls ->
              ls !! lid = Some (Some cb) ->
              (callId, lid, map_to_list message) ∈ delivered w')).
Proof.
  split.
  - intros H. unfold handleStreamMessage, bind, gets, ret. simpl. now rewrite H.
  - intros l c a events Hl Hc Ha He w'. subst w'.
    unfold handleStreamMessage, read_obj. st_simp. rewrite Hl. st_simp. rewrite Hc. simpl.
    rewrite Ha. unfold push. st_simp.
    rewrite emitToListeners_mon. simpl. rewrite lookup_alter_eq, He. simpl.
    split; [reflexivity|]. split; [reflexivity|].
    intros ls lid cb Hls Hlid.
    now apply (emitToListeners_delivers _ _ _ ls lid cb).
Qed.

Lemma stream_message_is_recorded_witness :
  handleStreamMessage 7000 "c9" {[ "type" := VStr "status" ]} w_queued = (tt, w_queued).
Proof.
  apply (proj1 (stream_message_is_recorded 7000 "c9" {[ "type" := VStr "status" ]} w_queued)).
  vm_compute. reflexivity.
Defined.

(** ** The campaign controller *)

Lemma find_none_Forall (l : list obj) :
  List.find (fun c : obj => strict_eq (get c "status") (VStr "active")) l = None ->
  forall c, c ∈ l -> strict_eq (get c "status") (VStr "active") = false.
Proof.
  induction l as [|x l IH]; simpl; [intros _ c Hc; inversion Hc|].
  destruct (strict_eq (get x "status") (VStr "active")) eqn:E; [discriminate|].
  intros H c Hc. apply elem_of_cons in Hc as [->|Hc]; auto.
Qed.

Lemma deleteCampaign_gone campaignId w :
  let w' := exec (deleteCampaign campaignId) w in
  campaigns (store w') !! campaignId = None
  /\ (campaignId ∉ activeCampaigns (store w'))
  /\ queueOf campaignId w' = [].
Proof.
  intros w'. subst w'. unfold deleteCampaign, queueOf. st_simp. simpl.
  split; [apply lookup_delete_eq|]. split.
  - intros H. apply list_elem_of_filter in H as [H _]. now apply H.
  - now rewrite lookup_delete_eq.
Qed.

(** X18.  [stopCampaign].  Without an active campaign it answers 400 and
    changes nothing.  With one, stored under its id, it answers 200 and the
    campaign is gone: no record, no place among the campaigns, an empty
    queue; so a batch of that campaign still pending halts when it runs,
    dispatching nothing. *)
Theorem stopCampaign_stops (env : Env) (now : Z) (w : World) :
  (List.find (fun c : obj => strict_eq (get c "status") (VStr "active"))
     (eval getAllCampaigns w) = None ->
   stopCampaign now w = (mkResponse 400 [("error", VStr "No active campaign to stop")], w))
  /\ (forall running stored,
        List.find (fun c : obj => strict_eq (get c "status") (VStr "active"))
          (eval getAllCampaigns w) = Some running ->
        campaigns (store w) !! key_of (get running "id") = Some stored ->
        let campaignId := key_of (get running "id") in
        let w' := exec (stopCampaign now) w in
        status (eval (stopCampaign now) w) = 200
        /\ eval (getCampaign campaignId) w' = None
        /\ (campaignId ∉ activeCampaigns (store w'))
        /\ queueOf campaignId w' = []
        /\ (forall now' maxConcurrent callDelay,
              processBatch env now' campaignId maxConcurrent callDelay w' = (Halted, w'))).
Proof.
  split.
  - intros H. unfold stopCampaign. unfold bind at 1.
    unfold getAllCampaigns at 1, gets at 1. cbv beta iota.
    change (omap _ _) with (eval getAllCampaigns w). now rewrite H.
  - intros running stored Hfind Hstored campaignId w'. subst w'.
    assert (E : stopCampaign now w
      = (mkResponse 200
           [("message", VStr "Campaign stopped successfully");
            ("campaign", lit_of ({[ "status" := VStr "stopped"; "endTime" := VDate now ]}
                                  ∪ stored))],
         exec (broadcastToClients
                 [("type", VStr "campaign_stopped"); ("campaignId", get running "id");
                  ("campaign", lit_of ({[ "status" := VStr "stopped"; "endTime" := VDate now ]}
                                        ∪ stored))])
           (exec (deleteCampaign campaignId)
              (exec (saveCampaign campaignId
                       ({[ "status" := VStr "stopped"; "endTime" := VDate now ]} ∪ stored)) w)))).
    { unfold stopCampaign. unfold bind at 1.
      unfold getAllCampaigns at 1, gets at 1. cbv beta iota.
      change (omap _ _) with (eval getAllCampaigns w). rewrite Hfind.
      fold campaignId.
      unfold updateCampaign, getCampaign, bind, gets, ret. simpl.
      fold campaignId in Hstored. rewrite Hstored. reflexivity. }
    assert (Ev : eval (stopCampaign now) w = fst (stopCampaign now w)) by reflexivity.
    assert (Ex : exec (stopCampaign now) w = snd (stopCampaign now w)) by reflexivity.
    rewrite E in Ev, Ex. cbn [fst snd] in Ev, Ex. rewrite Ev. clear E Ev.
    set (w1 := exec (saveCampaign campaignId _) w) in Ex.
    destruct (deleteCampaign_gone campaignId w1) as (D1 & D2 & Hq).
    set (w2 := exec (deleteCampaign campaignId) w1) in *.
    unfold getCampaign. rewrite eval_gets.
    split; [reflexivity|]. rewrite Ex.
    split; [exact D1|]. split; [exact D2|]. split; [exact Hq|].
    intros now' m d. apply processBatch_halted.
    intros c0 Hc0. change (campaigns (store w2) !! campaignId = Some c0) in Hc0.
    congruence.
Qed.

Lemma stopCampaign_stops_witness :
  status (eval (stopCampaign 9000) w_campaign) = 200
  /\ eval (getCampaign "k1") (exec (stopCampaign 9000) w_campaign) = None.
Proof.
  destruct (proj2 (stopCampaign_stops env0 9000 w_campaign)
              (default ∅ (campaigns (store w_campaign) !! "k1"))
              (default ∅ (campaigns (store w_campaign) !! "k1"))) as (H1 & H2 & _).
  - vm_compute. reflexivity.
  - vm_compute. reflexivity.
  - split; [exact H1|]. exact H2.
Defined.

(** X19.  A call that cannot be placed for want of a valid number.  [makeCall]
    places nothing: no request reaches the provider and no call is
    registered.  Its failure count is written under the top-level key
    'stats.failed' of the campaign record; the counter [stats.failed]
    inside the statistics, which the status reports read, stays as it
    was. *)
Theorem makeCall_invalid_number (env : Env) (now : Z) (campaignId : string)
    (contact c : obj) (n : Z) (w : World) :
  campaigns (store w) !! campaignId = Some c ->
  field (get c "stats") "failed" = VNum n ->
  formatToE164 (get contact "phone_number") = None ->
  let w' := exec (makeCall env now campaignId contact) w in
  eval (makeCall env now campaignId contact) w = false
  /\ vapiRequests w' = vapiRequests w
  /\ mon w' = mon w
  /\ exists c', campaigns (store w') !! campaignId = Some c'
                /\ field (get c' "stats") "failed" = VNum n
                /\ get c' "stats.failed" = VNum (n + 1).
Proof.
  intros Hc Hn Hphone w'. subst w'.
  assert (E : makeCall env now campaignId contact w
    = (false,
       exec (broadcastToClients
               [("type", VStr "call_failed"); ("campaignId", VStr campaignId);
                ("contact", lit_of contact);
                ("error", VStr ("Invalid phone number format: "
                                +:+ js_String (get contact "phone_number")))])
         (exec (saveCampaign campaignId
                  ({[ "stats.failed" := VNum (to_Z (field (get c "stats") "failed") + 1);
                      "stats.inProgress" :=
                        VNum (Z.max 0 (to_Z (field (get c "stats") "inProgress") - 1)) ]}
                   ∪ c)) w))).
  { unfold makeCall, getCampaign, bind, gets, ret. simpl. rewrite Hc, Hphone.
    cbv zeta. simpl. rewrite Hc, (stats_not_nullish c _ _ Hn).
    unfold updateCampaign, getCampaign, bind, gets, ret. simpl.
    repeat (rewrite Hc; simpl). reflexivity. }
  assert (Ev : eval (makeCall env now campaignId contact) w
               = fst (makeCall env now campaignId contact w)) by reflexivity.
  assert (Ex : exec (makeCall env now campaignId contact) w
               = snd (makeCall env now campaignId contact w)) by reflexivity.
  rewrite E in Ev, Ex. cbn [fst snd] in Ev, Ex. rewrite Ev, Ex. clear E Ev Ex.
  split; [reflexivity|]. split; [reflexivity|]. split; [reflexivity|].
  eexists. split.
  - change (campaigns (store (exec (broadcastToClients ?e) ?w0)))
      with (campaigns (store w0)).
    rewrite saveCampaign_run. simpl. apply lookup_insert_eq.
  - split.
    + unfold get at 1. rewrite json_lookup.
      rewrite lookup_union_r by reflexivity.
      unfold get in Hn. destruct (c !! "stats") as [st|]; simpl in Hn |- *; [|discriminate].
      destruct st; try discriminate. simpl in Hn.
      cbn [is_undef]. cbn [default from_option id].
      now apply lit_get_json_num.
    + rewrite Hn. apply get_json_num. apply get_union_l. reflexivity.
Qed.

Lemma makeCall_invalid_number_witness :
  eval (makeCall env0 9000 "k1" contact_short) w_campaign = false
  /\ vapiRequests (exec (makeCall env0 9000 "k1" contact_short) w_campaign)
     = vapiRequests w_campaign.
Proof.
  destruct (makeCall_invalid_number env0 9000 "k1" contact_short
              (default ∅ (campaigns (store w_campaign) !! "k1")) 0 w_campaign)
    as (H1 & H2 & _).
  - vm_compute. reflexivity.
  - vm_compute. reflexivity.
  - vm_compute. reflexivity.
  - split; [exact H1|exact H2].
Defined.

Lemma find_none_filter (l : list obj) :
  List.find (fun c : obj => strict_eq (get c "status") (VStr "active")) l = None ->
  filter (fun c : obj => strict_eq (get c "status") (VStr "active") = true) l = [].
Proof.
  induction l as [|x l IH]; simpl; [reflexivity|].
  destruct (strict_eq (get x "status") (VStr "active")) eqn:E; [discriminate|].
  intros H. rewrite filter_cons_False; [now apply IH|]. rewrite E. discriminate.
Qed.

(** X20.  A deferred start is never carried out by its own timer.  When no
    campaign is active and the schedule time lies ahead, [startCampaign]
    stores the campaign as 'scheduled' and sets a timer for
    [executeCampaign]; nothing is sent to the provider.  When that timer
    fires, [executeCampaign] finds the status 'scheduled', not 'active',
    and returns: the timer is gone, and nothing else has changed. *)
Theorem deferred_start_is_never_run (env : Env) (now now' : Z) (req : StartRequest)
    (delay : Z) (w : World) :
  List.find (fun c : obj => strict_eq (get c "status") (VStr "active"))
    (eval getAllCampaigns w) = None ->
  scheduleDelay now (sr_scheduleTime req) = Some delay ->
  let w1 := exec (startCampaign env now req) w in
  let i := length (timers w) in
  timers w1 !! i = Some (delay, TExecuteCampaign (sr_id req))
  /\ vapiRequests w1 = vapiRequests w
  /\ fireTimer env now' i w1 = (tt, with_timers (delete i) w1)
  /\ queueOf (sr_id req) (exec (fireTimer env now' i) w1) = json <$> sr_contacts req.
Proof.
  intros Hnone Hd w1 i.
  assert (Hlen : (0 <? length (filter (fun c : obj =>
            strict_eq (get c "status") (VStr "active") = true) (eval getAllCampaigns w))) = false).
  { apply Nat.ltb_ge.
    rewrite (find_none_filter _ Hnone). simpl. lia. }
  assert (Hw1 : exists c1,
            campaigns (store w1) !! sr_id req = Some c1
            /\ get c1 "status" = VStr "scheduled"
            /\ timers w1 = timers w ++ [(delay, TExecuteCampaign (sr_id req))]
            /\ vapiRequests w1 = vapiRequests w
            /\ queueOf (sr_id req) w1 = json <$> sr_contacts req).
  { subst w1. unfold startCampaign. st_simp. rewrite Hlen. st_simp. rewrite Hd. st_simp.
    match goal with
    | |- context [exec (saveCampaignQueue ?i ?q) ?w0] => set (w0' := w0)
    end.
    destruct (saveCampaignQueue_run (sr_id req) (sr_contacts req) w0') as (Q1 & Q2 & Q3).
    assert (Qv : vapiRequests (exec (saveCampaignQueue (sr_id req) (sr_contacts req)) w0')
                 = vapiRequests w).
    { unfold saveCampaignQueue. st_simp. destruct (negb _); reflexivity. }
    set (w2 := exec (saveCampaignQueue (sr_id req) (sr_contacts req)) w0') in *.
    assert (Hc1 : exists c1, campaigns (store w2) !! sr_id req = Some c1).
    { rewrite Q2. subst w0'. rewrite saveCampaign_run. simpl.
      rewrite lookup_insert_eq. eauto. }
    destruct Hc1 as [c1 Hc1].
    unfold updateCampaign, getCampaign, setTimeout. st_simp. rewrite Hc1. st_simp.
    rewrite saveCampaign_run. simpl.
    eexists. split; [apply lookup_insert_eq|]. split.
    { apply get_json_str. now apply get_union_l. }
    split; [now rewrite Q3|]. split; [exact Qv|exact Q1]. }
  destruct Hw1 as (c1 & Hc1 & Hst & Ht & Hv & Hq).
  assert (Hi : timers w1 !! i = Some (delay, TExecuteCampaign (sr_id req))).
  { rewrite Ht. subst i. rewrite lookup_app_r by lia.
    now rewrite Nat.sub_diag. }
  assert (Hfire : fireTimer env now' i w1 = (tt, with_timers (delete i) w1)).
  { unfold fireTimer, bind, gets, modify. simpl. rewrite Hi.
    apply (executeCampaign_not_active env now' (sr_id req) c1).
    - exact Hc1.
    - now rewrite Hst. }
  split; [exact Hi|]. split; [exact Hv|]. split; [exact Hfire|].
  unfold exec. rewrite Hfire. exact Hq.
Qed.

Lemma deferred_start_is_never_run_witness :
  vapiRequests (exec (startCampaign env_ok 1000 start_k3_later) emptyWorld) = []
  /\ fireTimer env_ok 60000 0 (exec (startCampaign env_ok 1000 start_k3_later) emptyWorld)
     = (tt, with_timers (delete 0) (exec (startCampaign env_ok 1000 start_k3_later) emptyWorld)).
Proof.
  destruct (deferred_start_is_never_run env_ok 1000 60000 start_k3_later 59000 emptyWorld)
    as (_ & H2 & H3 & _).
  - reflexivity.
  - reflexivity.
  - split; [exact H2|exact H3].
Defined.

Lemma chunks_spec fuel m (q : list obj) :
  0 < m -> length q <= fuel * m ->
  concat (chunks fuel m q) = q
  /\ Forall (fun b : list obj => 0 < length b <= m) (chunks fuel m q)
  /\ length q <= length (chunks fuel m q) * m < length q + m.
Proof.
  intros Hm. revert q. induction fuel as [|fuel IH]; intros q Hlen.
  - destruct q; [|simpl in Hlen; lia]. simpl. repeat split; [constructor|lia|lia].
  - destruct q as [|c0 q0]; [simpl; repeat split; [constructor|lia|lia]|].
    change (chunks (S fuel) m (c0 :: q0))
      with (take m (c0 :: q0) :: chunks fuel m (drop m (c0 :: q0))).
    assert (Hd : length (drop m (c0 :: q0)) <= fuel * m).
    { rewrite length_drop. simpl in *. lia. }
    destruct (IH _ Hd) as (I1 & I2 & I3).
    split; [|split].
    + simpl concat. rewrite I1. apply take_drop.
    + constructor; [|exact I2]. rewrite length_take. simpl length. lia.
    + cbn [length]. rewrite length_drop in I3.
      destruct (le_lt_dec (length (c0 :: q0)) m) as [Hle|Hgt].
      * rewrite drop_ge by exact Hle. rewrite chunks_nil. simpl in *. lia.
      * simpl in *. lia.
Qed.

(** X21.  A campaign run dispatches every queued contact exactly once.  For
    an active campaign whose statistics hold a number of calls in progress,
    with [maxConcurrent = m > 0] and a queue that is not empty, the batch
    loop started by [executeCampaign] dispatches batches and then
    completes; the contacts of the batches, one after the other, are the
    queue in its order, no batch is empty or has more than [m] contacts,
    and there are as many batches as [m] requires (the queue length over
    [m], rounded up).  The requests sent to the provider during the run are
    those of the queued contacts with a valid number, one each, in the
    order of the queue. *)
Theorem campaign_run_covers_queue (env : Env) (now : Z) (cid : string) (m : nat)
    (c : obj) (n : Z) (w : World) (fuel : nat) :
  campaigns (store w) !! cid = Some c ->
  get c "status" = VStr "active" ->
  get c "maxConcurrent" = VNum (Z.of_nat m) ->
  field (get c "stats") "inProgress" = VNum n ->
  0 < m ->
  queueOf cid w <> [] ->
  batchTimers cid w = [] ->
  length (queueOf cid w) <= S fuel * m ->
  exists batches : list (list (obj * bool)),
    eval (runCampaign env (S fuel) now cid) w = (Dispatched <$> batches) ++ [Completed]
    /\ concat ((fun calls : list (obj * bool) => calls.*1) <$> batches) = queueOf cid w
    /\ Forall (fun calls : list (obj * bool) => 0 < length calls <= m) batches
    /\ length (queueOf cid w) <= length batches * m < length (queueOf cid w) + m
    /\ vapiRequests (exec (runCampaign env (S fuel) now cid) w)
       = vapiRequests w ++ dispatchRequests cid (queueOf cid w).
Proof.
  intros Hc Hst Hmax Hn Hm Hne Hts Hlen.
  destruct (runCampaign_spec env now cid m c n (queueOf cid w) w fuel
              Hc Hst Hmax Hn eq_refl Hts Hm Hne Hlen) as (css & E & Ech & Ev).
  destruct (chunks_spec (S fuel) m (queueOf cid w) Hm Hlen) as (C1 & C2 & C3).
  exists css. split; [exact E|]. rewrite <- Ech in C1, C2, C3.
  split; [exact C1|]. split; [|split; [|exact Ev]].
  - apply Forall_fmap in C2. eapply Forall_impl; [exact C2|].
    intros calls H. simpl in H. now rewrite length_fmap in H.
  - now rewrite length_fmap in C3.
Qed.

Lemma campaign_run_covers_queue_witness :
  exists batches : list (list (obj * bool)),
    eval (runCampaign env0 4 0 "k1") w_campaign = (Dispatched <$> batches) ++ [Completed]
    /\ concat ((fun calls : list (obj * bool) => calls.*1) <$> batches)
       = queueOf "k1" w_campaign
    /\ Forall (fun calls : list (obj * bool) => 0 < length calls <= 3) batches
    /\ length (queueOf "k1" w_campaign) <= length batches * 3
         < length (queueOf "k1" w_campaign) + 3
    /\ vapiRequests (exec (runCampaign env0 4 0 "k1") w_campaign)
       = vapiRequests w_campaign ++ dispatchRequests "k1" (queueOf "k1" w_campaign).
Proof.
  refine (campaign_run_covers_queue env0 0 "k1" 3
            (default ∅ (campaigns (store w_campaign) !! "k1")) 0 w_campaign 3
            _ _ _ _ _ _ _ _).
  - vm_compute. reflexivity.
  - vm_compute. reflexivity.
  - vm_compute. reflexivity.
  - vm_compute. reflexivity.
  - lia.
  - vm_compute. discriminate.
  - vm_compute. reflexivity.
  - vm_compute. lia.
Defined.

(** ** Webhooks *)

(** X22.  The signature check of the webhook endpoint comes first.  A request
    whose signature does not validate is answered 401 and changes nothing
    at all, whatever event it carries.  With a valid signature, an event of
    type 'speech-ended', for which there is no handler, is answered 200
    with [received: true] and changes nothing either. *)
Theorem webhook_signature_first (env : Env) (now : Z) (reqBody : val) (w : World) :
  (validateWebhookSignature env reqBody = false ->
     handleVapiWebhook env now reqBody w
     = (mkResponse 401 [("error", VStr "Invalid signature")], w))
  /\ (validateWebhookSignature env reqBody = true ->
      field (js_or (field reqBody "message") reqBody) "type" = VStr "speech-ended" ->
      handleVapiWebhook env now reqBody w
      = (mkResponse 200 [("received", VBool true); ("timestamp", VDate now)], w)).
Proof.
  split; intros H; unfold handleVapiWebhook; rewrite H; cbn [negb].
  - reflexivity.
  - intros Ht. rewrite Ht. reflexivity.
Qed.

Lemma webhook_signature_first_witness :
  handleVapiWebhook (mkEnv false (fun _ => None) (fun _ _ => None) (fun _ => false))
    3000 hello_final w_in_progress
  = (mkResponse 401 [("error", VStr "Invalid signature")], w_in_progress).
Proof.
  apply (proj1 (webhook_signature_first
                  (mkEnv false (fun _ => None) (fun _ _ => None) (fun _ => false))
                  3000 hello_final w_in_progress)).
  reflexivity.
Defined.

(** X23.  Events about a call the registry does not know.  A transcript, a
    speech update, a conversation update or a connection event for it is
    dropped: nothing changes.  A status update is different: it enters the
    call into the registry, with the reported status. *)
Theorem events_for_unknown_calls (env : Env) (now : Z) (call : val) (w : World) :
  no_call call = false ->
  activeCalls (mon w) !! call_key call = None ->
  (forall webhookData, field webhookData "call" = call ->
     handleTranscriptEvent env now webhookData w = (tt, w))
  /\ (forall message, handleSpeechUpdate env now call message w = (tt, w))
  /\ (forall data, field data "call" = call ->
        handleConversationUpdate env now data w = (tt, w))
  /\ handleCallConnected env now call w = (tt, w)
  /\ registered (call_key call) (exec (handleStatusUpdate env now call) w)
  /\ callField (exec (handleStatusUpdate env now call) w) (call_key call) "status"
     = Some (field call "status").
Proof.
  intros Hcall Hnone.
  pose proof (handleStatusUpdate_status env now call w Hcall) as Hst.
  split; [|split; [|split; [|split; [|split]]]].
  - intros ev <-. unfold handleTranscriptEvent. rewrite Hcall.
    unfold getCall, bind, gets. simpl. now rewrite Hnone.
  - intros message. unfold handleSpeechUpdate. rewrite Hcall.
    unfold getCall, bind, gets. simpl. now rewrite Hnone.
  - intros data <-. unfold handleConversationUpdate. rewrite Hcall.
    unfold getCall, bind, gets. simpl. now rewrite Hnone.
  - unfold handleCallConnected. rewrite Hcall.
    unfold getCall, bind, gets. simpl. now rewrite Hnone.
  - unfold callField, callObject in Hst. unfold registered.
    destruct (activeCalls (mon (exec (handleStatusUpdate env now call) w)) !! call_key call);
      [eauto|discriminate].
  - exact Hst.
Qed.

Lemma events_for_unknown_calls_witness :
  handleCallConnected env0 3000 (call_c1 "ringing") emptyWorld = (tt, emptyWorld)
  /\ registered "c1" (exec (handleStatusUpdate env0 3000 (call_c1 "ringing")) emptyWorld).
Proof.
  destruct (events_for_unknown_calls env0 3000 (call_c1 "ringing") emptyWorld)
    as (_ & _ & _ & H4 & H5 & _).
  - reflexivity.
  - reflexivity.
  - split; [exact H4|exact H5].
Defined.

Lemma updateCall_field env now callId updates w l k v :
  activeCalls (mon w) !! callId = Some l ->
  k <> "updatedAt" ->
  updates !! k = Some v ->
  callField (exec (updateCall env now callId updates) w) callId k = Some v.
Proof.
  intros Hl Hk Hu.
  destruct (updateCall_callObject env now callId updates w l Hl) as [c2 E].
  unfold callField. rewrite E. simpl.
  rewrite get_insert_ne by congruence.
  now rewrite (get_union_l _ _ _ _ Hu).
Qed.

(** X24.  The end of a call.  For a registered call without active listeners,
    whose stored status history is unset or an array,
    [handleCallEnded] records the status 'ended', the time, and the
    duration in whole seconds since the call was answered (0 for a call
    never answered); [wasAnswered] says whether that duration is positive,
    so a call that ends within the second in which it was answered counts
    as not answered.  A call marked as having active listeners is not ended
    at all: the event changes nothing. *)
Theorem call_end_is_recorded (env : Env) (now : Z) (call : val) (w : World)
    (l : positive) (c : obj) :
  no_call call = false ->
  activeCalls (mon w) !! call_key call = Some l ->
  objs (mon w) !! l = Some c ->
  (truthy (get c "hasActiveListeners") = true ->
     handleCallEnded env now call w = (tt, w))
  /\ (truthy (get c "hasActiveListeners") = false ->
      history_ok w (call_key call) = true ->
      let w' := exec (handleCallEnded env now call) w in
      let duration :=
        match get c "answeredAt" with
        | VDate t => ((now - t) `div` 1000)%Z
        | _ => 0%Z
        end in
      (get c "answeredAt" = VUndef \/ exists t, get c "answeredAt" = VDate t) ->
      callField w' (call_key call) "status" = Some (VStr "ended")
      /\ callField w' (call_key call) "endedAt" = Some (VDate now)
      /\ callField w' (call_key call) "duration" = Some (VNum duration)
      /\ callField w' (call_key call) "wasAnswered" = Some (VBool (0 <? duration)%Z)).
Proof.
  intros Hcall Hl Hc. split.
  - intros Hls. unfold handleCallEnded. rewrite Hcall.
    unfold getCall, read_obj, bind, gets, ret. simpl. rewrite Hl. simpl. rewrite Hc. simpl.
    now rewrite Hls.
  - intros Hls _ w' duration Hans. subst w'.
    unfold handleCallEnded. rewrite Hcall.
    unfold getCall, read_obj. st_simp. rewrite Hl. st_simp. rewrite Hc. simpl.
    rewrite Hls. st_simp.
    assert (Hd : (if truthy (get c "answeredAt")
                  then match date_of (get c "answeredAt") with
                       | Some t => ((now - t) `div` 1000)%Z
                       | None => 0%Z
                       end
                  else 0%Z) = duration).
    { subst duration. destruct Hans as [E|[t E]]; rewrite E; reflexivity. }
    rewrite Hd.
    match goal with
    | |- context [exec (setTimeout ?t ?d) (exec ?m (exec (updateCall env now ?i ?u) w))] =>
        set (w1 := exec (updateCall env now i u) w);
        assert (Hm : mon (exec (setTimeout t d) (exec m w1)) = mon w1)
    end.
    { apply setTimeout_mon.
      destruct (truthy (field _ "campaignId")); [|reflexivity].
      now apply updateCallStatus_mon. }
    rewrite !(callField_mon _ _ _ _ Hm). subst w1.
    repeat split; apply (updateCall_field _ _ _ _ _ l); try exact Hl; try discriminate;
      reflexivity.
Qed.

Lemma call_end_is_recorded_witness :
  callField (exec (handleCallEnded env0 9500 (call_c1 "ended")) w_in_progress) "c1" "duration"
  = Some (VNum 7).
Proof.
  destruct (call_end_is_recorded env0 9500 (call_c1 "ended") w_in_progress
              (default 1%positive (activeCalls (mon w_in_progress) !! "c1"))
              (default ∅ (callObject w_in_progress "c1"))) as (_ & H).
  - reflexivity.
  - vm_compute. reflexivity.
  - vm_compute. reflexivity.
  - destruct H as (_ & _ & H3 & _).
    + vm_compute. reflexivity.
    + vm_compute. reflexivity.
    + right. exists 2000%Z. vm_compute. reflexivity.
    + etransitivity; [exact H3|]. vm_compute. reflexivity.
Defined.

(** X25.  The removal timers of an ended call respect listeners.  While the
    call record says [hasActiveListeners], the removal timer removes
    nothing and only sets one re-check for five minutes later, and the
    re-check changes nothing at all: it sets no further timer, so the call
    stays registered.  Without active listeners either of them removes the
    call from the registry, transcript or not. *)
Theorem ended_call_waits_for_listeners (call : val) (w : World) (l : positive) (c : obj) :
  activeCalls (mon w) !! call_key call = Some l ->
  objs (mon w) !! l = Some c ->
  (truthy (get c "hasActiveListeners") = true ->
     onEndedRemoval call w
       = (tt, with_timers (fun ts => ts ++ [(300000%Z, TEndedRecheck call)]) w)
     /\ onEndedRecheck call w = (tt, w))
  /\ (truthy (get c "hasActiveListeners") = false ->
      activeCalls (mon (exec (onEndedRemoval call) w)) !! call_key call = None
      /\ activeCalls (mon (exec (onEndedRecheck call) w)) !! call_key call = None).
Proof.
  intros Hl Hc. split; intros Hls.
  - unfold onEndedRemoval, onEndedRecheck, getCall, read_obj, setTimeout,
      bind, gets, ret, modify.
    simpl. rewrite Hl. simpl. rewrite Hc. simpl. rewrite Hls. split; reflexivity.
  - assert (R : activeCalls (mon (exec (removeCall (call_key call) true) w)) !! call_key call
                = None).
    { unfold exec. rewrite removeCall_run. rewrite Hl. simpl. apply lookup_delete_eq. }
    assert (Rv : eval (removeCall (call_key call) true) w = true).
    { unfold eval. rewrite removeCall_run. rewrite Hl. reflexivity. }
    unfold onEndedRemoval, onEndedRecheck, getCall, read_obj.
    st_simp. rewrite Hl. st_simp. rewrite Hc.
    change (default ∅ (Some c)) with c. rewrite Hls. cbn [negb]. st_simp.
    rewrite Rv.
    split; exact R.
Qed.

Lemma ended_call_waits_for_listeners_witness :
  activeCalls (mon (exec (onEndedRemoval (call_c1 "ended")) w_spoken)) !! "c1" = None.
Proof.
  refine (proj1 (proj2 (ended_call_waits_for_listeners (call_c1 "ended") w_spoken
            (default 1%positive (activeCalls (mon w_spoken) !! "c1"))
            (default ∅ (callObject w_spoken "c1")) _ _) _)).
  - vm_compute. reflexivity.
  - vm_compute. reflexivity.
  - vm_compute. reflexivity.
Defined.

Lemma cleanupPhoneTracking_keeps callId p x :
  (forall e, x !! p = Some e -> strict_eq (get e "callId") callId = false) ->
  preserves (fun w => activeCallsByPhone w = x) (cleanupPhoneTracking callId (VStr p)).
Proof.
  intros H w Hw. unfold cleanupPhoneTracking.
  rewrite exec_bind, eval_gets, exec_gets. simpl key_of. rewrite Hw.
  destruct (x !! p) as [e|] eqn:He; [|exact Hw].
  rewrite (H e eq_refl), andb_false_r. exact Hw.
Qed.

(** X26.  A late event of an older call does not release the number of a
    newer one.  When the number of the reported call is not tracked, or is
    tracked for another call id, the failure handler, the no-answer handler
    and the clean-up timer of an ended call leave the table of tracked
    numbers exactly as it was. *)
Theorem late_events_keep_newer_tracking (env : Env) (now : Z) (call : val) (w : World)
    (p : string) :
  field (field call "customer") "number" = VStr p ->
  (forall e, activeCallsByPhone w !! p = Some e ->
     strict_eq (get e "callId") (field call "id") = false) ->
  activeCallsByPhone (exec (handleCallFailed env now call) w) = activeCallsByPhone w
  /\ activeCallsByPhone (exec (handleCallNoAnswer env now call) w) = activeCallsByPhone w
  /\ (forall duration endedAt,
        activeCallsByPhone (exec (onEndedCleanup env call duration endedAt) w)
        = activeCallsByPhone w).
Proof.
  intros Hnum Hother.
  pose proof (cleanupPhoneTracking_keeps (field call "id") p (activeCallsByPhone w) Hother)
    as K.
  split; [|split].
  - assert (P : preserves (fun w0 => activeCallsByPhone w0 = activeCallsByPhone w)
                  (handleCallFailed env now call)).
    { unfold handleCallFailed. rewrite Hnum. pres_tac phones_fin. }
    now apply P.
  - assert (P : preserves (fun w0 => activeCallsByPhone w0 = activeCallsByPhone w)
                  (handleCallNoAnswer env now call)).
    { unfold handleCallNoAnswer, getCall, read_obj. rewrite Hnum. pres_tac phones_fin. }
    now apply P.
  - intros duration endedAt.
    assert (P : preserves (fun w0 => activeCallsByPhone w0 = activeCallsByPhone w)
                  (onEndedCleanup env call duration endedAt)).
    { unfold onEndedCleanup. rewrite Hnum. pres_tac phones_fin. }
    now apply P.
Qed.

Lemma late_events_keep_newer_tracking_witness :
  activeCallsByPhone (exec (handleCallFailed env_ok 2000
     (VLit [("id", VStr "c1"); ("customer", VLit [("number", VStr "+15551234567")])]))
     w_dialed)
  = activeCallsByPhone w_dialed.
Proof.
  refine (proj1 (late_events_keep_newer_tracking env_ok 2000
     (VLit [("id", VStr "c1"); ("customer", VLit [("number", VStr "+15551234567")])])
     w_dialed "+15551234567" eq_refl _)).
  intros e H. vm_compute in H. injection H as <-. reflexivity.
Defined.

(** X27.  Requests [createCall] does not carry out.  Without an assistant
    type, or with a number [formatToE164] refuses, the answer is 400 and
    nothing has changed: no request went to the provider.  When the number
    is free and the provider refuses the request, the client gets no
    answer at all (the [catch] block reads [formattedPhone], which is out
    of scope there, and throws in turn); the request was sent once, and no
    call is registered, no number tracked and nothing broadcast. *)
Theorem createCall_refusals (env : Env) (now : Z) (body : obj) (w : World) :
  (truthy (field (get body "metadata") "assistantType") = false ->
     exists r, createCall env now body w = (Some r, w) /\ status r = 400)
  /\ (truthy (field (get body "metadata") "assistantType") = true ->
      formatToE164 (get body "phone_number") = None ->
      exists r, createCall env now body w = (Some r, w) /\ status r = 400)
  /\ (forall p,
      truthy (field (get body "metadata") "assistantType") = true ->
      formatToE164 (get body "phone_number") = Some p ->
      activeCallsByPhone w !! p = None ->
      (forall n request, vapi_createCall env n request = None) ->
      let w' := exec (createCall env now body) w in
      eval (createCall env now body) w = None
      /\ mon w' = mon w
      /\ activeCallsByPhone w' = activeCallsByPhone w
      /\ broadcasts w' = broadcasts w
      /\ length (vapiRequests w') = S (length (vapiRequests w))).
Proof.
  split; [|split].
  - intros Ha. unfold createCall. rewrite Ha. eexists. split; reflexivity.
  - intros Ha Hp. unfold createCall. rewrite Ha, Hp. eexists. split; reflexivity.
  - intros p Ha Hp Hfree Hvapi w'. subst w'.
    unfold createCall. rewrite Ha, Hp. simpl negb. cbv iota.
    rewrite !eval_bind, !exec_bind, !eval_gets, !exec_gets. rewrite Hfree.
    rewrite !eval_ret, !exec_ret.
    rewrite !eval_bind, !exec_bind, !eval_gets, !exec_gets, !exec_modify.
    rewrite Hvapi. rewrite eval_ret, exec_ret. simpl.
    repeat split. rewrite length_app. simpl. lia.
Qed.

Lemma createCall_refusals_witness :
  (exists r,
     createCall env0 1000 (<["phone_number" := VStr "555"]> dial_request) emptyWorld
       = (Some r, emptyWorld)
     /\ status r = 400)
  /\ eval (createCall env0 1000 dial_request) emptyWorld = None.
Proof.
  split.
  - apply (proj1 (proj2 (createCall_refusals env0 1000
             (<["phone_number" := VStr "555"]> dial_request) emptyWorld))).
    + reflexivity.
    + reflexivity.
  - apply (proj2 (proj2 (createCall_refusals env0 1000 dial_request emptyWorld))
             "+15551234567").
    + reflexivity.
    + reflexivity.
    + reflexivity.
    + reflexivity.
Defined.

(** X28.  The transfer route always answers the tool call.  Whatever a request
    with a body holds and whatever the providers do, [POST
    /transfer-conference] answers with HTTP status 200 and one result that
    carries the id of the tool call (or 'unknown').  The result either says
    [success: true] and names the conference, or says [success: false] with
    an error text and no conference id. *)
Theorem transfer_always_answers (tel : Telephony) (now : Z) (reqBody : val) (w : World) :
  nullish reqBody = false ->
  let r := eval (transferConference tel now reqBody) w in
  status r = 200
  /\ field (first_of (lit_get (body r) "results")) "toolCallId"
     = js_or (field (first_of (field (field reqBody "message") "toolCallList")) "id")
             (VStr "unknown")
  /\ ((field (toolResult r) "success" = VBool true
       /\ exists cid, field (toolResult r) "conferenceId" = VStr cid)
      \/ (field (toolResult r) "success" = VBool false
          /\ field (toolResult r) "conferenceId" = VUndef
          /\ exists s, field (toolResult r) "error" = VStr s)).
Proof.
  intros _ r. subst r. unfold eval.
  assert (Hx : transferConference tel now reqBody w
               = match transferConference_try tel now reqBody w with
                 | (inr response, w1) => (response, w1)
                 | (inl error, w1) => (conferenceError reqBody error, w1)
                 end).
  { unfold transferConference, bind, ret.
    now destruct (transferConference_try tel now reqBody w) as [[error|r] w1]. }
  rewrite Hx. clear Hx.
  destruct (transferConference_try tel now reqBody w) as [[error|r] w1] eqn:H; cbn [fst].
  { unfold conferenceError, toolResult.
    match goal with
    | |- context [let '(a, b) := ?X in _] => destruct X as [errorMessage toQueue]
    end.
    split; [reflexivity|]. split; [reflexivity|]. right.
    split; [reflexivity|]. split; [destruct toQueue; reflexivity|].
    exists errorMessage. reflexivity. }
  unfold transferConference_try in H. cbv zeta in H.
  try_step H. try_step H.
  match type of H with
  | (if ?b then _ else _) _ = _ => destruct b eqn:Hchk; [discriminate|]
  end.
  set (cid := String.append "conf_" _) in H.
  do 9 try_step H.
  match type of H with
  | (if truthy ?ac then _ else _) _ = _ => destruct (truthy ac)
  end.
  - do 3 try_step H.
    apply ret_inr_inv in H as [-> ->].
    split; [reflexivity|]. split; [reflexivity|]. left. split; [reflexivity|].
    exists cid. reflexivity.
  - apply ret_inr_inv in H as [-> ->].
    split; [reflexivity|]. split; [reflexivity|]. left. split; [reflexivity|].
    exists cid. reflexivity.
Qed.

Lemma transfer_always_answers_witness :
  status (eval (transferConference tel_none 1000 transfer_request) emptyWorld) = 200.
Proof.
  apply (transfer_always_answers tel_none 1000 transfer_request emptyWorld). reflexivity.
Defined.
